(** * Smart Expense Tracker: the state object of script.js and its storage glue

    A shallow embedding of the [state] object of [src/script.js]
    (expenses, currentFilter, addExpense, removeExpense, setFilter,
    getFilteredExpenses, getTotal, saveToStorage, loadFromStorage, init), of
    the helpers [validateForm], [handleAddExpense], [handleDeleteExpense],
    [generateUID] and [getCategoryStats], of the drawing functions as far as
    their completion goes, and of the two browser facilities the state
    object leans on: [localStorage] and [JSON].

    JavaScript values are untyped, and [loadFromStorage] stores whatever
    [JSON.parse] returns, so the ledger holds a [value]; the typed record
    [Expense] describes the objects that [handleAddExpense] builds and is
    injected into [value] by [expense_obj].  Code that can throw returns a
    [completion]; code that reads or writes the page's globals runs in the
    state monad [JS] over [World]. *)

From Stdlib Require Import String Ascii ZArith Lia List DecimalString DecimalPos DecimalZ.
From stdpp Require Import base option list strings gmap.

(** ** Characters and strings

    A JavaScript string is a sequence of 16-bit code units.  Here it is the
    sequence of bytes that writes each code unit the way UTF-8 writes a code
    point: one byte below 0x80, two below 0x800, three from there on (a
    surrogate is written like any other code unit, so a character outside
    the basic plane takes two groups of three bytes).  Two strings are equal
    exactly when their bytes are; an ASCII string has one byte per code
    unit. *)

Definition dquote : ascii := "034"%char.
Definition backslash : ascii := "092"%char.

Definition is_digit (c : ascii) : bool :=
  let n := nat_of_ascii c in (48 <=? n)%nat && (n <=? 57)%nat.

(** The characters a JSON number token is made of: digits, sign, point, exponent. *)
Definition is_num_char (c : ascii) : bool :=
  is_digit c || Ascii.eqb c "-" || Ascii.eqb c "+" || Ascii.eqb c "."
  || Ascii.eqb c "e" || Ascii.eqb c "E".

Definition is_num_start (c : ascii) : bool := is_digit c || Ascii.eqb c "-".

(** JSON white space: tab, line feed, carriage return, space. *)
Definition is_ws (c : ascii) : bool :=
  Ascii.eqb c " " || Ascii.eqb c "009" || Ascii.eqb c "010" || Ascii.eqb c "013".

Fixpoint skip_ws (s : string) : string :=
  match s with
  | String c rest => if is_ws c then skip_ws rest else s
  | EmptyString => s
  end.

Fixpoint string_forall (p : ascii -> bool) (s : string) : bool :=
  match s with
  | EmptyString => true
  | String c rest => p c && string_forall p rest
  end.

(** The longest prefix of [s] made of characters satisfying [p], and the rest. *)
Fixpoint span (p : ascii -> bool) (s : string) : string * string :=
  match s with
  | String c rest =>
      if p c then let '(tok, r) := span p rest in (String c tok, r)
      else (EmptyString, s)
  | EmptyString => (EmptyString, EmptyString)
  end.

Definition starts_with (p : ascii -> bool) (s : string) : bool :=
  match s with String c _ => p c | EmptyString => false end.

(** [strip_prefix p s]: [Some rest] when [s = p +:+ rest]. *)
Fixpoint strip_prefix (p s : string) : option string :=
  match p, s with
  | EmptyString, _ => Some s
  | String a p', String b s' => if Ascii.eqb a b then strip_prefix p' s' else None
  | String _ _, EmptyString => None
  end.

(** ** Numbers

    A JavaScript number is an IEEE-754 double.  The program uses numbers
    through a small interface only: the constants 0, 1 and NaN, [+], [<=],
    finiteness, the decimal text of a number and the value of a JSON number
    token.  The development is parametric in that interface; [IntNumber]
    below is the instance of integers with the three special values, on
    which the scenarios of the specification are evaluated. *)

Class Number (num : Type) := {
  num_zero : num;
  num_one : num;
  num_nan : num;
  num_add : num -> num -> num;
  (** [num_le a b] is [a <= b]; false as soon as one side is NaN *)
  num_le : num -> num -> bool;
  num_is_finite : num -> bool;
  (** Number::toString(x) in radix 10 *)
  num_to_string : num -> string;
  (** the value of a JSON number token, [None] when the token is malformed *)
  num_of_literal : string -> option num;
}.

(** What JSON needs of the text of a finite number: it is a number token
    (made of number characters, starting with a digit or a sign) and it
    reads back as the number.  For doubles this is the round trip that
    Number::toString guarantees, negative zero being read back as zero. *)
Class NumberText (num : Type) `{Number num} := {
  num_text_chars : forall n : num, num_is_finite n = true ->
    string_forall is_num_char (num_to_string n) = true;
  num_text_start : forall n : num, num_is_finite n = true ->
    starts_with is_num_start (num_to_string n) = true;
  num_text_read : forall n : num, num_is_finite n = true ->
    num_of_literal (num_to_string n) = Some n;
}.

(** ** Values *)

#[local] Unset Elimination Schemes.
Inductive value (num : Type) : Type :=
  | VNull
  | VBool (b : bool)
  | VNum (n : num)
  | VStr (s : string)
  | VArr (elems : list (value num))
  | VObj (props : list (string * value num)).

#[local] Set Elimination Schemes.

Arguments VNull {num}.
Arguments VBool {num} b.
Arguments VNum {num} n.
Arguments VStr {num} s.
Arguments VArr {num} elems.
Arguments VObj {num} props.

(** [undefined] is not a JSON value and never sits inside the ledger; it
    only shows up as the result of reading a missing property, which is an
    [option value] with [None] for [undefined]. *)

(** Thrown errors and the outcome of an evaluation. *)
Inductive exn : Type :=
  | TypeError
  | SyntaxError
  | QuotaExceededError
  | SecurityError.

Inductive completion (A : Type) : Type :=
  | Normal (a : A)
  | Throw (e : exn).

Arguments Normal {A} a.
Arguments Throw {A} e.

Definition completion_bind {A B} (m : completion A) (k : A -> completion B)
  : completion B :=
  match m with
  | Normal a => k a
  | Throw e => Throw e
  end.

#[export] Instance completion_ret : MRet completion := fun A a => Normal a.
#[export] Instance completion_mbind : MBind completion :=
  fun A B k m => completion_bind m k.

(** ** Property tables

    The own properties of an ordinary object, in the order [Object.keys]
    lists them: array indices in ascending order first, then the other keys
    in creation order. *)

Definition props (A : Type) := list (string * A).

Fixpoint prop_get {A} (ps : props A) (k : string) : option A :=
  match ps with
  | [] => None
  | (k', a) :: ps' => if String.eqb k' k then Some a else prop_get ps' k
  end.

(** Digits of a canonical array index: "0", or a nonzero digit followed by digits. *)
Definition is_canonical_digits (k : string) : bool :=
  match k with
  | EmptyString => false
  | String c EmptyString => is_digit c
  | String c rest => is_digit c && negb (Ascii.eqb c "0") && string_forall is_digit rest
  end.

Fixpoint digits_value (acc : N) (k : string) : N :=
  match k with
  | EmptyString => acc
  | String c rest => digits_value (acc * 10 + N.of_nat (nat_of_ascii c - 48)) rest
  end.

(** An array index is a canonical numeric string below 2^32 - 1. *)
Definition array_index (k : string) : option N :=
  if is_canonical_digits k then
    let n := digits_value 0%N k in
    if (n <? 4294967295)%N then Some n else None
  else None.

(** Place a new index key among the index keys, before all string keys. *)
Fixpoint insert_index {A} (n : N) (k : string) (a : A) (ps : props A) : props A :=
  match ps with
  | [] => [(k, a)]
  | (k', a') :: ps' =>
      match array_index k' with
      | Some n' => if (n' <? n)%N then (k', a') :: insert_index n k a ps'
                   else (k, a) :: ps
      | None => (k, a) :: ps
      end
  end.

Fixpoint prop_replace {A} (k : string) (a : A) (ps : props A) : props A :=
  match ps with
  | [] => []
  | (k', a') :: ps' =>
      if String.eqb k' k then (k', a) :: ps' else (k', a') :: prop_replace k a ps'
  end.

(** [obj[k] = a] on own properties: an existing key keeps its place. *)
Definition prop_set {A} (ps : props A) (k : string) (a : A) : props A :=
  match prop_get ps k with
  | Some _ => prop_replace k a ps
  | None =>
      match array_index k with
      | Some n => insert_index n k a ps
      | None => ps ++ [(k, a)]
      end
  end.

(** ** Conversions and [+]

    ECMAScript's ToString, ToNumber and addition operator on the values
    above. *)

Section Semantics.
Context {num : Type} `{Number num}.

(** ToString.  An object is converted by the [toString] it has: the
    inherited one gives "[object Object]"; an own property of that name is a
    JSON value, which cannot be called, and the inherited [valueOf] returns
    the object itself, so the conversion finds no primitive and throws.  An
    array has [Array.prototype.toString], which joins the converted
    elements. *)
Fixpoint to_string (v : value num) : completion string :=
  match v with
  | VNull => Normal "null"
  | VBool true => Normal "true"
  | VBool false => Normal "false"
  | VNum n => Normal (num_to_string n)
  | VStr s => Normal s
  | VArr l =>
      (* Array.prototype.join: null elements give the empty string *)
      parts ← (fix join (l : list (value num)) : completion (list string) :=
                 match l with
                 | [] => Normal []
                 | x :: l' =>
                     s ← match x with VNull => Normal "" | _ => to_string x end;
                     r ← join l';
                     Normal (s :: r)
                 end) l;
      Normal (String.concat "," parts)
  | VObj ps =>
      match prop_get ps "toString" with
      | Some _ => Throw TypeError
      | None => Normal "[object Object]"
      end
  end.

Definition to_string_opt (o : option (value num)) : completion string :=
  match o with
  | Some v => to_string v
  | None => Normal "undefined"
  end.

(** ToPrimitive: arrays and plain objects go through their toString (their
    [valueOf] comes first where no string is asked for, and returns the
    object itself). *)
Definition to_primitive (o : option (value num)) : completion (option (value num)) :=
  match o with
  | Some (VArr l) => s ← to_string (VArr l); Normal (Some (VStr s))
  | Some (VObj ps) => s ← to_string (VObj ps); Normal (Some (VStr s))
  | _ => Normal o
  end.

Definition is_string (o : option (value num)) : bool :=
  match o with Some (VStr _) => true | _ => false end.

(** ToNumber of a primitive that is not a string. *)
Definition to_number (o : option (value num)) : num :=
  match o with
  | Some (VNum n) => n
  | Some (VBool true) => num_one
  | Some (VBool false) => num_zero
  | Some VNull => num_zero
  | _ => num_nan
  end.

(** [a + b] *)
Definition js_add (a b : option (value num)) : completion (value num) :=
  pa ← to_primitive a;
  pb ← to_primitive b;
  if is_string pa || is_string pb
  then sa ← to_string_opt pa; sb ← to_string_opt pb; Normal (VStr (sa +:+ sb))
  else Normal (VNum (num_add (to_number pa) (to_number pb))).

(** [a === b] on numbers: NaN equals nothing, the two zeros are equal. *)
Definition num_eq (a b : num) : bool := num_le a b && num_le b a.

(** [v.k] for a property name that no prototype defines ([id], [category],
    [amount]): reading a property of [null] throws, a missing property is
    [undefined]. *)
Definition get_prop (v : value num) (k : string) : completion (option (value num)) :=
  match v with
  | VNull => Throw TypeError
  | VObj ps => Normal (prop_get ps k)
  | _ => Normal None
  end.

(** [o === s] for a string [s]. *)
Definition strict_eq_string (o : option (value num)) (s : string) : bool :=
  match o with
  | Some (VStr s') => String.eqb s' s
  | _ => false
  end.

(** [arr.filter(f)] for a callback without side effects that may throw. *)
Fixpoint filter_elems (f : value num -> completion bool) (l : list (value num))
  : completion (list (value num)) :=
  match l with
  | [] => Normal []
  | x :: l' =>
      b ← f x;
      r ← filter_elems f l';
      Normal (if b : bool then x :: r else r)
  end.

Definition array_filter (f : value num -> completion bool) (v : value num)
  : completion (value num) :=
  match v with
  | VArr l => r ← filter_elems f l; Normal (VArr r)
  | _ => Throw TypeError
  end.

(** [arr.reduce(f, init)]; also [arr.forEach] with a callback that updates
    one variable, which is then the accumulator. *)
Fixpoint reduce_elems {A} (f : A -> value num -> completion A) (acc : A)
  (l : list (value num)) : completion A :=
  match l with
  | [] => Normal acc
  | x :: l' => acc' ← f acc x; reduce_elems f acc' l'
  end.

Definition array_reduce {A} (f : A -> value num -> completion A) (init : A)
  (v : value num) : completion A :=
  match v with
  | VArr l => reduce_elems f init l
  | _ => Throw TypeError
  end.

End Semantics.

(** ** JSON

    [JSON.stringify] without indentation and [JSON.parse] without reviver, on
    the values above. *)

Definition hex_digit (n : nat) : ascii :=
  ascii_of_nat (if (n <? 10)%nat then 48 + n else 87 + n).

Definition hex_value (c : ascii) : option nat :=
  let n := nat_of_ascii c in
  if (48 <=? n)%nat && (n <=? 57)%nat then Some (n - 48)
  else if (97 <=? n)%nat && (n <=? 102)%nat then Some (n - 87)
  else if (65 <=? n)%nat && (n <=? 70)%nat then Some (n - 55)
  else None.

(** The escape [\uXXXX] of a code unit, in lower case (UnicodeEscape). *)
Definition unicode_text (n : N) : string :=
  String backslash
    (String "u"
       (String (hex_digit (N.to_nat (n / 4096)))
          (String (hex_digit (N.to_nat ((n / 256) mod 16)))
             (String (hex_digit (N.to_nat ((n / 16) mod 16)))
                (String (hex_digit (N.to_nat (n mod 16))) EmptyString)))))%N.

(** The text of one byte inside a quoted string (QuoteJSONString): the
    quote, the backslash and the control characters are escaped. *)
Definition escape_char (c : ascii) : string :=
  let n := nat_of_ascii c in
  if Ascii.eqb c dquote then String backslash (String dquote EmptyString)
  else if Ascii.eqb c backslash then String backslash (String backslash EmptyString)
  else if (n =? 8)%nat then String backslash "b"
  else if (n =? 9)%nat then String backslash "t"
  else if (n =? 10)%nat then String backslash "n"
  else if (n =? 12)%nat then String backslash "f"
  else if (n =? 13)%nat then String backslash "r"
  else if (n <? 32)%nat then unicode_text (N.of_nat n)
  else String c EmptyString.

(** The three bytes of a surrogate are 0xED, then 0xA0-0xAF for a leading
    and 0xB0-0xBF for a trailing one, then 0x80-0xBF. *)
Definition continuation (c : ascii) : bool :=
  let n := nat_of_ascii c in (128 <=? n)%nat && (n <=? 191)%nat.

Definition leading_surrogate (c c1 c2 : ascii) : bool :=
  let n1 := nat_of_ascii c1 in
  Ascii.eqb c "237" && (160 <=? n1)%nat && (n1 <=? 175)%nat && continuation c2.

Definition trailing_surrogate (c c1 c2 : ascii) : bool :=
  let n1 := nat_of_ascii c1 in
  Ascii.eqb c "237" && (176 <=? n1)%nat && (n1 <=? 191)%nat && continuation c2.

(** The code unit that three bytes write. *)
Definition three_bytes (c c1 c2 : ascii) : N :=
  (4096 * (N_of_ascii c - 224) + 64 * (N_of_ascii c1 - 128) + (N_of_ascii c2 - 128))%N.

(** The body of a quoted string: a leading surrogate followed by a trailing
    one is a character and is written as it is; a surrogate on its own is
    written as its escape. *)
Fixpoint escape (s : string) : string :=
  match s with
  | EmptyString => EmptyString
  | String c rest =>
      match rest with
      | String c1 (String c2 rest3) =>
          if leading_surrogate c c1 c2 then
            match rest3 with
            | String d (String d1 (String d2 rest6)) =>
                if trailing_surrogate d d1 d2
                then String c (String c1 (String c2
                       (String d (String d1 (String d2 (escape rest6))))))
                else unicode_text (three_bytes c c1 c2) +:+ escape rest3
            | _ => unicode_text (three_bytes c c1 c2) +:+ escape rest3
            end
          else if trailing_surrogate c c1 c2
          then unicode_text (three_bytes c c1 c2) +:+ escape rest3
          else escape_char c +:+ escape rest
      | _ => escape_char c +:+ escape rest
      end
  end.

Definition quote (s : string) : string :=
  String dquote (escape s +:+ String dquote EmptyString).

(** The code unit a one-letter escape stands for. *)
Definition simple_escape (c : ascii) : option ascii :=
  if Ascii.eqb c dquote then Some dquote
  else if Ascii.eqb c backslash then Some backslash
  else if Ascii.eqb c "/" then Some "/"%char
  else if Ascii.eqb c "b" then Some "008"%char
  else if Ascii.eqb c "f" then Some "012"%char
  else if Ascii.eqb c "n" then Some "010"%char
  else if Ascii.eqb c "r" then Some "013"%char
  else if Ascii.eqb c "t" then Some "009"%char
  else None.

(** The bytes of one code unit. *)
Definition code_unit (n : N) : string :=
  (if n <? 128 then String (ascii_of_N n) EmptyString
   else if n <? 2048 then
     String (ascii_of_N (192 + n / 64))
       (String (ascii_of_N (128 + n mod 64)) EmptyString)
   else
     String (ascii_of_N (224 + n / 4096))
       (String (ascii_of_N (128 + (n / 64) mod 64))
          (String (ascii_of_N (128 + n mod 64)) EmptyString)))%N.

(** The code unit that the four hexadecimal digits of a [\u] escape name. *)
Definition unicode_escape (h1 h2 h3 h4 : ascii) : option string :=
  a ← hex_value h1; b ← hex_value h2; c ← hex_value h3; d ← hex_value h4;
  Some (code_unit (4096 * N.of_nat a + 256 * N.of_nat b + 16 * N.of_nat c + N.of_nat d)).

(** Read a string body up to its closing quote; the opening quote is gone. *)
Fixpoint lex_string (s : string) : option (string * string) :=
  match s with
  | EmptyString => None
  | String c rest =>
      if Ascii.eqb c dquote then Some (EmptyString, rest)
      else if Ascii.eqb c backslash then
        match rest with
        | String e rest' =>
            if Ascii.eqb e "u" then
              match rest' with
              | String h1 (String h2 (String h3 (String h4 r))) =>
                  x ← unicode_escape h1 h2 h3 h4;
                  '(str, r') ← lex_string r;
                  Some (x +:+ str, r')
              | _ => None
              end
            else
              x ← simple_escape e;
              '(str, r') ← lex_string rest';
              Some (String x str, r')
        | EmptyString => None
        end
      else if (nat_of_ascii c <? 32)%nat then None
      else '(str, r') ← lex_string rest; Some (String c str, r')
  end.

Section JSON.
Context {num : Type} `{Number num}.

Fixpoint JSON_stringify (v : value num) : string :=
  match v with
  | VNull => "null"
  | VBool true => "true"
  | VBool false => "false"
  | VNum n => if num_is_finite n then num_to_string n else "null"
  | VStr s => quote s
  | VArr l => "[" +:+ String.concat "," (List.map JSON_stringify l) +:+ "]"
  | VObj ps =>
      "{" +:+ String.concat ","
               (List.map (fun p => quote (fst p) +:+ ":" +:+ JSON_stringify (snd p)) ps)
          +:+ "}"
  end.

Definition lex_number (s : string) : option (value num * string) :=
  let '(tok, rest) := span is_num_char s in
  n ← num_of_literal tok; Some (VNum n, rest).

Definition lex_literal (s : string) : option (value num * string) :=
  match strip_prefix "null" s with
  | Some r => Some (VNull, r)
  | None =>
      match strip_prefix "true" s with
      | Some r => Some (VBool true, r)
      | None =>
          match strip_prefix "false" s with
          | Some r => Some (VBool false, r)
          | None => None
          end
      end
  end.

(** Skip white space and consume the character [c], if it comes next. *)
Definition expect (c : ascii) (s : string) : option string :=
  match skip_ws s with
  | String c' r => if Ascii.eqb c' c then Some r else None
  | EmptyString => None
  end.

(** Recursive descent; [fuel] bounds the number of calls.  A budget as
    large as the text is long never runs out ([parse_adequate]). *)
Fixpoint parse_value (fuel : nat) (s : string) : option (value num * string) :=
  match fuel with
  | O => None
  | S fuel' =>
      match skip_ws s with
      | EmptyString => None
      | String c rest =>
          if Ascii.eqb c dquote then
            '(str, r) ← lex_string rest; Some (VStr str, r)
          else if Ascii.eqb c "[" then
            match expect "]" rest with
            | Some r => Some (VArr [], r)
            | None => '(l, r) ← parse_elements fuel' rest; Some (VArr l, r)
            end
          else if Ascii.eqb c "{" then
            match expect "}" rest with
            | Some r => Some (VObj [], r)
            | None => '(ps, r) ← parse_members fuel' rest []; Some (VObj ps, r)
            end
          else if is_num_start c then lex_number (String c rest)
          else lex_literal (String c rest)
      end
  end
with parse_elements (fuel : nat) (s : string) : option (list (value num) * string) :=
  match fuel with
  | O => None
  | S fuel' =>
      '(v, r) ← parse_value fuel' s;
      match expect "," r with
      | Some r' => '(l, r'') ← parse_elements fuel' r'; Some (v :: l, r'')
      | None =>
          match expect "]" r with
          | Some r' => Some ([v], r')
          | None => None
          end
      end
  end
with parse_members (fuel : nat) (s : string) (acc : props (value num))
  : option (props (value num) * string) :=
  match fuel with
  | O => None
  | S fuel' =>
      r0 ← expect dquote s;
      '(k, r) ← lex_string r0;
      r1 ← expect ":" r;
      '(v, r2) ← parse_value fuel' r1;
      (* a repeated key overwrites the earlier value *)
      let acc' := prop_set acc k v in
      match expect "," r2 with
      | Some r3 => parse_members fuel' r3 acc'
      | None =>
          match expect "}" r2 with
          | Some r3 => Some (acc', r3)
          | None => None
          end
      end
  end.

(** [JSON.parse(text)]: one value, then white space only.  [None] stands
    for the SyntaxError. *)
Definition JSON_parse (text : string) : option (value num) :=
  '(v, rest) ← parse_value (S (String.length text)) text;
  match skip_ws rest with
  | EmptyString => Some v
  | String _ _ => None
  end.

End JSON.

(** ** The page's globals

    [localStorage] is a string-to-string store that can refuse access
    (SecurityError) and refuses a write that would exceed its quota
    (QuotaExceededError); [console] keeps what [console.error] was given. *)

Record Storage : Type := mkStorage {
  items : gmap string string;
  quota : nat;
  accessible : bool;
}.

Definition storage_size (m : gmap string string) : nat :=
  map_fold (fun k v acc => String.length k + String.length v + acc)%nat 0%nat m.

Section Ledger.
Context {num : Type} `{Number num}.

(** The [state] object: its two data properties. *)
Record State : Type := mkState {
  expenses : value num;
  currentFilter : string;
}.

Record World : Type := mkWorld {
  state : State;
  localStorage : Storage;
  console : list (string * exn);
}.

Definition JS (A : Type) : Type := World -> completion A * World.

Definition js_ret {A} (a : A) : JS A := fun w => (Normal a, w).

Definition js_bind {A B} (m : JS A) (k : A -> JS B) : JS B :=
  fun w =>
    match m w with
    | (Normal a, w') => k a w'
    | (Throw e, w') => (Throw e, w')
    end.

#[global] Instance JS_ret : MRet JS := @js_ret.
#[global] Instance JS_mbind : MBind JS := fun A B k m => js_bind m k.

(** A computation without effect on the globals. *)
Definition lift {A} (c : completion A) : JS A := fun w => (c, w).

(** [try { body } catch (error) { handler }] *)
Definition try_catch {A} (body : JS A) (handler : exn -> JS A) : JS A :=
  fun w =>
    match body w with
    | (Normal a, w') => (Normal a, w')
    | (Throw e, w') => handler e w'
    end.

Definition console_error (msg : string) (e : exn) : JS unit :=
  fun w => (Normal tt,
            mkWorld (state w) (localStorage w) (console w ++ [(msg, e)])).

(** [localStorage.getItem(k)]: [None] is JavaScript's [null]. *)
Definition getItem (k : string) : JS (option string) :=
  fun w =>
    if accessible (localStorage w)
    then (Normal (items (localStorage w) !! k), w)
    else (Throw SecurityError, w).

(** [localStorage.setItem(k, v)] *)
Definition setItem (k v : string) : JS unit :=
  fun w =>
    let st := localStorage w in
    if accessible st then
      let items' := <[k := v]> (items st) in
      if (storage_size items' <=? quota st)%nat
      then (Normal tt,
            mkWorld (state w) (mkStorage items' (quota st) (accessible st)) (console w))
      else (Throw QuotaExceededError, w)
    else (Throw SecurityError, w).

Definition get_state : JS State := fun w => (Normal (state w), w).

Definition set_expenses (v : value num) : JS unit :=
  fun w => (Normal tt,
            mkWorld (mkState v (currentFilter (state w))) (localStorage w) (console w)).

Definition set_currentFilter (f : string) : JS unit :=
  fun w => (Normal tt,
            mkWorld (mkState (expenses (state w)) f) (localStorage w) (console w)).

(** ** The state object *)

(** [saveToStorage()] (script.js 68-74) *)
Definition saveToStorage : JS unit :=
  try_catch
    (st ← get_state; setItem "expenses" (JSON_stringify (expenses st)))
    (fun error => console_error "Error saving to localStorage:" error).

(** [loadFromStorage()] (script.js 80-88); [stored ? ... : []] takes the
    second branch for [null] and for the empty string. *)
Definition loadFromStorage : JS (value num) :=
  try_catch
    (stored ← getItem "expenses";
     match stored with
     | Some (String c text) =>
         match JSON_parse (String c text) with
         | Some v => mret v
         | None => lift (Throw SyntaxError)
         end
     | Some EmptyString | None => mret (VArr [])
     end)
    (fun error =>
       _ ← console_error "Error loading from localStorage:" error;
       mret (VArr [])).

(** [init()] (script.js 16-18) *)
Definition init : JS unit :=
  v ← loadFromStorage; set_expenses v.

(** [arr.push(x)]; anything but an array has no [push]. *)
Definition array_push (v x : value num) : completion (value num) :=
  match v with
  | VArr l => Normal (VArr (l ++ [x]))
  | _ => Throw TypeError
  end.

(** [addExpense(expense)] (script.js 24-27) *)
Definition addExpense (expense : value num) : JS unit :=
  st ← get_state;
  es ← lift (array_push (expenses st) expense);
  _ ← set_expenses es;
  saveToStorage.

(** [removeExpense(id)] (script.js 33-36) *)
Definition removeExpense (id : string) : JS unit :=
  st ← get_state;
  es ← lift (array_filter
               (fun expense => i ← get_prop expense "id";
                               Normal (negb (strict_eq_string i id)))
               (expenses st));
  _ ← set_expenses es;
  saveToStorage.

(** [setFilter(category)] (script.js 42-44) *)
Definition setFilter (category : string) : JS unit :=
  set_currentFilter category.

(** [getFilteredExpenses()] (script.js 50-55); it reads [this] only. *)
Definition getFilteredExpenses (this : State) : completion (value num) :=
  if String.eqb (currentFilter this) "All" then Normal (expenses this)
  else array_filter
         (fun expense => c ← get_prop expense "category";
                         Normal (strict_eq_string c (currentFilter this)))
         (expenses this).

(** [getTotal()] (script.js 61-63) *)
Definition getTotal (this : State) : completion (value num) :=
  l ← getFilteredExpenses this;
  array_reduce
    (fun sum expense => a ← get_prop expense "amount";
                        js_add (Some sum) a)
    (VNum num_zero) l.

End Ledger.

Arguments State : clear implicits.
Arguments World : clear implicits.
Arguments JS : clear implicits.

(** ** Category statistics (script.js 378-388) *)

(** The property names every plain object inherits from [Object.prototype]
    (ECMAScript with its annex for browsers, nothing added by the page): for
    these keys [stats[key]] is an inherited function or object, hence
    truthy, although [stats] has no such property of its own.  A write to
    such an inherited object changes neither [stats] nor these names, and is
    not followed: the one write that a later lookup can see is that of a
    string to [Object.prototype.total], which takes an entry whose category
    is "__proto__" and whose amount is a string, an array or an object. *)
Definition object_prototype_names : list string :=
  [ "constructor"; "__defineGetter__"; "__defineSetter__"; "hasOwnProperty";
    "__lookupGetter__"; "__lookupSetter__"; "isPrototypeOf";
    "propertyIsEnumerable"; "toString"; "valueOf"; "__proto__";
    "toLocaleString" ].

Definition inherited (k : string) : bool :=
  existsb (String.eqb k) object_prototype_names.

Section Stats.
Context {num : Type} `{Number num}.

Record CategoryStat : Type := mkStat {
  (** a count of array elements stays far below 2^53, where [+ 1] is exact *)
  count : nat;
  total : value num;
}.

(** [!stats[k]] *)
Definition stats_missing (stats : props CategoryStat) (k : string) : bool :=
  match prop_get stats k with
  | Some _ => false
  | None => negb (inherited k)
  end.

(** One round of the [forEach] callback. *)
Definition stats_step (stats : props CategoryStat) (expense : value num)
  : completion (props CategoryStat) :=
  c ← get_prop expense "category";
  k ← to_string_opt c;
  let stats1 :=
    if stats_missing stats k then prop_set stats k (mkStat 0 (VNum num_zero))
    else stats in
  a ← get_prop expense "amount";
  match prop_get stats1 k with
  | Some s =>
      t ← js_add (Some (total s)) a;
      Normal (prop_set stats1 k (mkStat (count s + 1) t))
  | None =>
      (* the two [+=] land on the inherited object, not on [stats]; the
         addition still converts the amount *)
      _ ← to_primitive a;
      Normal stats1
  end.

(** [getCategoryStats()]: it reads [state.expenses], never [currentFilter]. *)
Definition getCategoryStats (st : State num) : completion (props CategoryStat) :=
  array_reduce stats_step [] (expenses st).

End Stats.

Arguments CategoryStat : clear implicits.

(** ** Expense objects and the form handlers *)

Section Handlers.
Context {num : Type} `{Number num}.

(** The object that [handleAddExpense] builds (script.js 288-293). *)
Record Expense : Type := mkExpense {
  id : string;
  amount : num;
  category : string;
  timestamp : string;
}.

Definition expense_obj (e : Expense) : value num :=
  VObj [ ("id", VStr (id e)); ("amount", VNum (amount e));
         ("category", VStr (category e)); ("timestamp", VStr (timestamp e)) ].

Definition ledger (l : list Expense) : value num := VArr (List.map expense_obj l).

(** [generateUID()] (script.js 358-360): [now] is [Date.now()] and
    [random36] is [Math.random().toString(36)]. *)
Definition generateUID (now : num) (random36 : string) : string :=
  num_to_string now +:+ "-" +:+ String.substring 2 9 random36.

(** The form fields and the two error boxes. *)
Record ErrorBox : Type := mkErrorBox {
  textContent : string;
  show : bool;
}.

Record Elements : Type := mkElements {
  amountInput : string;
  categoryInput : string;
  amountError : ErrorBox;
  categoryError : ErrorBox;
}.

(** [parseFloat] is the built-in; the handlers take it as a parameter. *)
Variable parseFloat : string -> num.

Definition is_empty (s : string) : bool :=
  match s with EmptyString => true | String _ _ => false end.

Definition hide (b : ErrorBox) : ErrorBox := mkErrorBox (textContent b) false.

(** [showError(element, message)] (script.js 143-146) *)
Definition showError (message : string) : ErrorBox := mkErrorBox message true.

(** [validateForm()] (script.js 115-136): the page after the call and the
    verdict. *)
Definition validateForm (el : Elements) : Elements * bool :=
  let amount := parseFloat (amountInput el) in
  let bad_amount := is_empty (amountInput el) || num_le amount num_zero in
  let bad_category := is_empty (categoryInput el) in
  (mkElements (amountInput el) (categoryInput el)
     (if bad_amount then showError "Please enter a positive amount"
      else hide (amountError el))
     (if bad_category then showError "Please select a category"
      else hide (categoryError el)),
   negb bad_amount && negb bad_category).

(** *** Drawing (script.js 155-269)

    What the page shows is not part of the model; whether drawing completes
    is, because a handler that calls [renderUI] stops there when it throws.
    The elements that [elements] looks up are taken to exist. *)

(** [createExpenseHTML(expense)] (script.js 182-226): the steps that can
    throw, each where the text has it first. *)
Definition createExpenseHTML (expense : value num) : completion unit :=
  c ← get_prop expense "category";
  (* the key of [categoryEmojis[...]] and of [categoryClasses[...]] *)
  _ ← to_string_opt c;
  t ← get_prop expense "timestamp";
  (* [new Date(expense.timestamp)]; an invalid date is formatted as such *)
  _ ← to_primitive t;
  i ← get_prop expense "id";
  _ ← to_string_opt i;
  a ← get_prop expense "amount";
  (* [expense.amount.toFixed(2)]: numbers only have a [toFixed] *)
  match a with
  | Some (VNum _) => Normal tt
  | _ => Throw TypeError
  end.

(** [v.length === 0] for the value that [getFilteredExpenses] returned. *)
Definition length_is_zero (v : value num) : completion bool :=
  match v with
  | VNull => Throw TypeError
  | VArr l => Normal (match l with [] => true | _ :: _ => false end)
  | VStr s => Normal (is_empty s)
  | VObj ps =>
      Normal (match prop_get ps "length" with
              | Some (VNum n) => num_eq n num_zero
              | _ => false
              end)
  | _ => Normal false
  end.

(** [renderExpenses()] (script.js 155-175) *)
Definition renderExpenses (this : State num) : completion unit :=
  filteredExpenses ← getFilteredExpenses this;
  empty ← length_is_zero filteredExpenses;
  if empty : bool then Normal tt
  else
    (* [.map(expense => createExpenseHTML(expense))]: arrays only have a [map] *)
    array_reduce (fun _ expense => createExpenseHTML expense) tt filteredExpenses.

(** [updateTotal()] (script.js 231-239); [animateValue] starts a timer and
    returns. *)
Definition updateTotal (this : State num) : completion unit :=
  _ ← getTotal this;
  filteredExpenses ← getFilteredExpenses this;
  match filteredExpenses with
  | VNull => Throw TypeError
  | _ => Normal tt
  end.

(** [renderUI()] (script.js 266-269) *)
Definition renderUI (this : State num) : completion unit :=
  _ ← renderExpenses this; updateTotal this.

(** [handleAddExpense(e)] (script.js 279-307): the page after the call.
    [now], [random36] and [iso] are what the clock and the random generator
    give this call; [form.reset()] empties the two fields, and
    [showSuccessMessage] changes the style of the form only. *)
Definition handleAddExpense (now : num) (random36 iso : string) (el : Elements)
  : JS num Elements :=
  let '(el1, valid) := validateForm el in
  if valid then
    let expense :=
      mkExpense (generateUID now random36) (parseFloat (amountInput el1))
                (categoryInput el1) iso in
    _ ← addExpense (expense_obj expense);
    st ← get_state;
    _ ← lift (renderUI st);
    mret (mkElements "" "" (amountError el1) (categoryError el1))
  else mret el1.

End Handlers.

Arguments Expense : clear implicits.

(** ** Integers with NaN and the infinities: an instance of [Number] *)

Inductive intnum : Type :=
  | IFin (z : Z)
  | INaN
  | IInf (negative : bool).

Definition int_add (a b : intnum) : intnum :=
  match a, b with
  | INaN, _ | _, INaN => INaN
  | IFin x, IFin y => IFin (x + y)
  | IInf s, IFin _ | IFin _, IInf s => IInf s
  | IInf s, IInf s' => if Bool.eqb s s' then IInf s else INaN
  end.

Definition int_le (a b : intnum) : bool :=
  match a, b with
  | INaN, _ | _, INaN => false
  | IFin x, IFin y => (x <=? y)%Z
  | IInf true, _ => true
  | _, IInf false => true
  | IInf false, _ => false
  | _, IInf true => false
  end.

Definition int_is_finite (a : intnum) : bool :=
  match a with IFin _ => true | _ => false end.

Definition Z_to_string (z : Z) : string := NilZero.string_of_int (Z.to_int z).

Definition int_to_string (a : intnum) : string :=
  match a with
  | IFin z => Z_to_string z
  | INaN => "NaN"
  | IInf false => "Infinity"
  | IInf true => "-Infinity"
  end.

(** Tokens with a fraction, an exponent or a negative zero have no value
    among the integers; the others are the canonical decimal texts. *)
Definition int_of_literal (tok : string) : option intnum :=
  match NilZero.int_of_string tok with
  | Some d =>
      let z := Z.of_int d in
      if String.eqb (Z_to_string z) tok then Some (IFin z) else None
  | None => None
  end.

#[export] Instance IntNumber : Number intnum := {
  num_zero := IFin 0;
  num_one := IFin 1;
  num_nan := INaN;
  num_add := int_add;
  num_le := int_le;
  num_is_finite := int_is_finite;
  num_to_string := int_to_string;
  num_of_literal := int_of_literal;
}.

(** ** Notions the statements below are phrased in *)

Section Notions.
Context {num : Type} `{Number num}.

(** The number of calls that parsing the text of [v] takes. *)
Fixpoint value_size (v : value num) : nat :=
  match v with
  | VArr l => S (list_sum (map (fun x => S (value_size x)) l))
  | VObj ps => S (list_sum (map (fun p => S (value_size (snd p))) ps))
  | _ => 1
  end.

(** Keys that [JSON.parse] leaves in the order of the text: no key twice,
    no array index. *)
Definition plain_keys (ks : list string) : Prop :=
  NoDup ks /\ Forall (fun k => array_index k = None) ks.

(** Values that [JSON.stringify] writes without loss: finite numbers (NaN
    and the infinities are written as [null]) and plain keys. *)
Fixpoint serializable (v : value num) : Prop :=
  match v with
  | VNum n => num_is_finite n = true
  | VArr l => fold_right (fun x P => serializable x /\ P) True l
  | VObj ps =>
      plain_keys (map fst ps)
      /\ fold_right (fun p P => serializable (snd p) /\ P) True ps
  | _ => True
  end.

(** The three bytes of a surrogate, and what reading its escape gives. *)
Definition surrogate (c c1 c2 : ascii) : bool :=
  leading_surrogate c c1 c2 || trailing_surrogate c c1 c2.

Definition lex_unicode (s : string) : option string :=
  match s with
  | String _ (String _ (String h1 (String h2 (String h3 (String h4 _))))) =>
      unicode_escape h1 h2 h3 h4
  | _ => None
  end.

Definition reads_back (n1 n2 : nat) : bool :=
  let c := "237"%char in
  let c1 := ascii_of_nat n1 in
  let c2 := ascii_of_nat n2 in
  match lex_unicode (unicode_text (three_bytes c c1 c2)) with
  | Some x => String.eqb x (String c (String c1 (String c2 EmptyString)))
  | None => false
  end.

(** The first character of a serialized value. *)
Definition value_start (c : ascii) : bool :=
  Ascii.eqb c dquote || Ascii.eqb c "[" || Ascii.eqb c "{" || is_num_start c
  || Ascii.eqb c "n" || Ascii.eqb c "t" || Ascii.eqb c "f".

Definition roundtrips (v : value num) : Prop :=
  serializable v -> forall fuel rest,
    value_size v <= fuel -> starts_with is_num_char rest = false ->
    parse_value fuel (JSON_stringify v +:+ rest) = Some (v, rest).

Definition member_text (p : string * value num) : string :=
  quote (fst p) +:+ ":" +:+ JSON_stringify (snd p).

Definition define_all (acc : props (value num)) (ps : props (value num))
  : props (value num) :=
  fold_left (fun acc p => prop_set acc (fst p) (snd p)) ps acc.

(** A successful parse consumed at least one character, and any budget no
    smaller than the number of characters consumed gives the same result. *)
Definition adequate {A} (parse : nat -> string -> option (A * string))
    (n : nat) : Prop :=
  forall s a r, parse n s = Some (a, r) ->
    String.length r < String.length s
    /\ forall m, String.length s - String.length r <= m -> parse m s = Some (a, r).

(** The world with [this.expenses] replaced. *)
Definition with_expenses (v : value num) (w : World num) : World num :=
  mkWorld (mkState v (currentFilter (state w))) (localStorage w) (console w).

(** A sequence of calls on the state object. *)
Inductive op : Type :=
  | Add (e : Expense num)
  | Remove (i : string).

Definition run_op (o : op) : JS num unit :=
  match o with
  | Add e => addExpense (expense_obj e)
  | Remove i => removeExpense i
  end.

Fixpoint replay (ops : list op) : JS num unit :=
  match ops with
  | [] => mret tt
  | o :: ops' => _ ← run_op o; replay ops'
  end.

Definition without_id (i : string) (l : list (Expense num)) : list (Expense num) :=
  List.filter (fun e => negb (String.eqb (id e) i)) l.

(** What the calls do to a typed ledger, one after the other. *)
Fixpoint apply_ops (l : list (Expense num)) (ops : list op) : list (Expense num) :=
  match ops with
  | [] => l
  | Add e :: ops' => apply_ops (l ++ [e]) ops'
  | Remove i :: ops' => apply_ops (without_id i l) ops'
  end.

(** The specification's reading: the added expenses, in the order of the
    calls, ... *)
Fixpoint added (ops : list op) : list (Expense num) :=
  match ops with
  | [] => []
  | Add e :: ops' => e :: added ops'
  | Remove _ :: ops' => added ops'
  end.

Definition removed_later (i : string) (ops : list op) : bool :=
  existsb (fun o => match o with Remove j => String.eqb j i | Add _ => false end) ops.

(** ... that no later call removed. *)
Fixpoint survivors (ops : list op) : list (Expense num) :=
  match ops with
  | [] => []
  | Add e :: ops' =>
      if removed_later (id e) ops' then survivors ops' else e :: survivors ops'
  | Remove _ :: ops' => survivors ops'
  end.

Definition ids (l : list (Expense num)) : list string := map (fun e => id e) l.

(** The entries a query sees (the specification's getVisibleExpenses). *)
Definition visible (f : string) (l : list (Expense num)) : list (Expense num) :=
  if String.eqb f "All" then l
  else List.filter (fun e => String.eqb (category e) f) l.

(** The sum of the amounts, taken from 0 in the order of the entries. *)
Definition sum_amounts (l : list (Expense num)) : num :=
  fold_left num_add (map amount l) num_zero.

Definition with_category (c : string) (l : list (Expense num)) : list (Expense num) :=
  List.filter (fun e => String.eqb (category e) c) l.

(** The categories of the specification's data model. *)
Definition recognized (c : string) : bool :=
  existsb (String.eqb c) ["Food"; "Travel"; "Shopping"; "Bills"; "Others"].

(** One [forEach] round seen from the entry of one category, on amounts and
    totals that are numbers. *)
Definition bump (o : option (CategoryStat num)) (e : Expense num) : option (CategoryStat num) :=
  let s := default (mkStat 0 (VNum num_zero)) o in
  Some (mkStat (count s + 1) (VNum (num_add (to_number (Some (total s))) (amount e)))).

(** Statistics whose totals are numbers. *)
Definition numeric_totals (stats : props (CategoryStat num)) : Prop :=
  forall k s, prop_get stats k = Some s -> exists t, total s = VNum t.

End Notions.

Arguments op : clear implicits.

(** ** Concrete ledgers, on the integers *)

Definition lunch : Expense intnum :=
  mkExpense "1700000000000-k3j9x2m1p" (IFin 50) "Food" "2023-11-14T22:13:20.000Z".

Definition taxi : Expense intnum :=
  mkExpense "1700000060000-a8d2f6q0z" (IFin 30) "Travel" "2023-11-14T22:14:20.000Z".

(** An expense no form would let through: negative amount, unknown category. *)
Definition refund : Expense intnum :=
  mkExpense "1700000120000-zz0q1w2e3" (IFin (-5)) "Gambling" "2023-11-14T22:15:20.000Z".

(** An expense whose category is the name of an inherited property. *)
Definition odd : Expense intnum :=
  mkExpense "1700000180000-b7n5m3v1c" (IFin 5) "constructor" "2023-11-14T22:16:20.000Z".

Definition store (slots : list (string * string)) (room : nat) (open : bool) : Storage :=
  mkStorage (list_to_map slots) room open.

(** A page that has never stored anything, with room to store. *)
Definition fresh_world : World intnum :=
  mkWorld (mkState (VArr []) "All") (store [] 4096 true) [].

(** The same page with a store that is full. *)
Definition full_world : World intnum :=
  mkWorld (mkState (VArr []) "All") (store [] 0 true) [].

(** A page whose slot holds text that is not JSON. *)
Definition corrupt_world : World intnum :=
  mkWorld (mkState (VArr []) "All") (store [("expenses", "[{oops")] 4096 true) [].

(** A stand-in for [parseFloat] on the integers: it agrees with it on the
    decimal text of an integer, the only text the examples give it. *)
Definition parse_int (s : string) : intnum :=
  match int_of_literal s with
  | Some n => n
  | None => INaN
  end.

Definition blank_form (amount category : string) : Elements :=
  mkElements amount category (mkErrorBox "" false) (mkErrorBox "" false).

(** A page holding two entries, with room to store. *)
Definition two_entries : World intnum :=
  mkWorld (mkState (ledger [lunch; taxi]) "All") (store [] 4096 true) [].

(** A page whose slot holds entries that no form would have let through:
    a negative amount, an unknown category, one id twice. *)
Definition tampered_world : World intnum :=
  mkWorld (mkState (VArr []) "All")
    (store [("expenses", JSON_stringify (ledger [refund; refund]))] 4096 true) [].

(** The scenario of the specification: two Food entries and one Travel entry. *)
Definition scenario : list (Expense intnum) :=
  [ mkExpense "a" (IFin 10) "Food" "2023-11-14T22:13:20.000Z";
    mkExpense "b" (IFin 20) "Food" "2023-11-14T22:14:20.000Z";
    mkExpense "c" (IFin 5) "Travel" "2023-11-14T22:15:20.000Z" ].

(** Two submissions of the form at one reading of the clock and one draw of
    the random generator. *)
Definition same_instant_twice : completion Elements * World intnum :=
  (_ ← handleAddExpense parse_int (IFin 1700000000000) "0.k3j9x2m1p4"
         "2023-11-14T22:13:20.000Z" (blank_form "50" "Food");
   handleAddExpense parse_int (IFin 1700000000000) "0.k3j9x2m1p4"
     "2023-11-14T22:13:20.000Z" (blank_form "30" "Travel")) fresh_world.

(** ** The delete handler, and notions for the further properties *)

Section MoreNotions.
Context {num : Type} `{Number num}.

(** [handleDeleteExpense(e)] (script.js 313-319): [i] is the [data-id] of
    the button, [confirmed] the answer to the confirm dialog. *)
Definition handleDeleteExpense (i : string) (confirmed : bool) : JS num unit :=
  if confirmed then
    _ ← removeExpense i;
    st ← get_state;
    lift (renderUI st)
  else mret tt.

(** The object an expense comes back as after [JSON.stringify] and
    [JSON.parse]: an amount that is not finite has become [null]. *)
Definition reloaded_obj (e : Expense num) : value num :=
  VObj [ ("id", VStr (id e));
         ("amount", if num_is_finite (amount e) then VNum (amount e) else VNull);
         ("category", VStr (category e)); ("timestamp", VStr (timestamp e)) ].

Definition categories (l : list (Expense num)) : list string :=
  map (fun e => category e) l.

Definition keys {A} (ps : props A) : list string := map fst ps.

(** The counts of a statistics object, added up. *)
Definition sum_counts (stats : props (CategoryStat num)) : nat :=
  list_sum (map (fun p => count (snd p)) stats).

(** The entries that the statistics count: those whose category is not the
    name of an inherited property. *)
Definition counted (l : list (Expense num)) : list (Expense num) :=
  List.filter (fun e => negb (inherited (category e))) l.

(** The values whose [id] is not the string [i]: [removeExpense(i)] keeps them. *)
Definition id_differs (i : string) (x : value num) : Prop :=
  exists o, get_prop x "id" = Normal o /\ strict_eq_string o i = false.

(** The values whose [amount] is a string. *)
Definition string_amount (x : value num) : Prop :=
  exists s, get_prop x "amount" = Normal (Some (VStr s)).

(** What is neither an array nor an object. *)
Definition primitive (o : option (value num)) : bool :=
  match o with
  | Some (VArr _) | Some (VObj _) => false
  | _ => true
  end.

(** The values whose [amount] is a primitive, or missing. *)
Definition primitive_amount (x : value num) : Prop :=
  exists o, get_prop x "amount" = Normal o /\ primitive o = true.

(** A page opened anew on a store: empty entries, filter "All", empty console. *)
Definition reload (st : Storage) : World num :=
  mkWorld (mkState (VArr []) "All") st [].

End MoreNotions.

(** The page with two entries after it has saved, opened anew. *)
Definition reopened_world : World intnum :=
  reload (localStorage (snd (saveToStorage two_entries))).

(** The rupee sign U+20B9, and the two halves of the character U+1F600. *)
Definition rupee : string := code_unit 8377.
Definition leading_half : string := code_unit 55357.
Definition trailing_half : string := code_unit 56832.

(** A page whose slot holds the text [["\u20b9"]]. *)
Definition escaped_world : World intnum :=
  mkWorld (mkState (VArr []) "All")
    (store [("expenses",
             "[" +:+ String dquote ("\u20b9" +:+ String dquote "]"))] 4096 true) [].

(** An entry whose id is the number 5, as a stored text can give it. *)
Definition numeric_id_entry : value intnum :=
  VObj [ ("id", VNum (IFin 5)); ("amount", VNum (IFin 7)); ("category", VStr "Food") ].

(** An entry whose amount is the string "7". *)
Definition string_amount_entry : value intnum :=
  VObj [ ("id", VStr "s1"); ("amount", VStr "7"); ("category", VStr "Food") ].

(** An entry whose amount is an object with a [toString] of its own, as the
    stored text [{"amount":{"toString":0}}] gives. *)
Definition unconvertible_amount_entry : value intnum :=
  VObj [ ("amount", VObj [ ("toString", VNum (IFin 0)) ]) ].

(** A page whose only entry has a string for amount. *)
Definition string_amount_world : World intnum :=
  mkWorld (mkState (VArr [string_amount_entry]) "All") (store [] 4096 true) [].

(** An expense whose amount is NaN. *)
Definition nan_expense : Expense intnum :=
  mkExpense "1700000240000-q1w2e3r4t" INaN "Food" "2023-11-14T22:17:20.000Z".

(** A page with two entries, a store that holds their text and a slot of
    another script, and room left. *)
Definition synced_world : World intnum :=
  mkWorld (mkState (ledger [lunch; taxi]) "All")
    (store [("expenses", JSON_stringify (ledger [lunch; taxi])); ("theme", "dark")]
           4096 true) [].

(** The same page with a store that has no room for one more entry. *)
Definition tight_world : World intnum :=
  mkWorld (mkState (ledger [lunch; taxi]) "All")
    (store [("expenses", JSON_stringify (ledger [lunch; taxi])); ("theme", "dark")]
           250 true) [].

(** A page whose store refuses access. *)
Definition locked_world : World intnum :=
  mkWorld (mkState (VArr []) "All") (store [("expenses", "[]")] 4096 false) [].

(** A page whose slot holds a JSON object, not an array. *)
Definition object_world : World intnum :=
  mkWorld (mkState (VArr []) "All") (store [("expenses", "{}")] 4096 true) [].

(** A page whose slot holds the empty string. *)
Definition blank_world : World intnum :=
  mkWorld (mkState (VArr []) "All") (store [("expenses", "")] 4096 true) [].

(** A page on which one id is carried by two entries. *)
Definition doubled_world : World intnum :=
  mkWorld (mkState (ledger [lunch; taxi; lunch]) "All") (store [] 4096 true) [].

(** A page whose entries hold a [null], as the stored text [[..., null]] gives. *)
Definition null_world : World intnum :=
  mkWorld (mkState (VArr [expense_obj lunch; VNull]) "All") (store [] 4096 true) [].

(** A page whose entries are an object, as the stored text [{}] gives. *)
Definition broken_world : World intnum :=
  mkWorld (mkState (VObj []) "All") (store [("expenses", "{}")] 4096 true) [].

(** A page whose only entry has a number for id. *)
Definition numeric_world : World intnum :=
  mkWorld (mkState (VArr [numeric_id_entry]) "All") (store [] 4096 true) [].

(** A page holding an entry whose amount is NaN. *)
Definition nan_world : World intnum :=
  mkWorld (mkState (ledger [nan_expense; lunch]) "All") (store [] 4096 true) [].

(** * Facts *)

(** ** Strings *)

Lemma lex_string_escape_char c tail :
  lex_string (escape_char c +:+ tail) =
  '(str, r) ← lex_string tail; Some (String c str, r).
Proof.
  destruct c as [[] [] [] [] [] [] [] []]; reflexivity.
Qed.

Lemma string_app_cons c (a b : string) : String c a +:+ b = String c (a +:+ b).
Proof. reflexivity. Qed.

Lemma string_app_nil_l (b : string) : "" +:+ b = b.
Proof. reflexivity. Qed.

Lemma string_app_assoc (a b c : string) : (a +:+ b) +:+ c = a +:+ (b +:+ c).
Proof. induction a as [|x a IH]; [done|]. by rewrite !string_app_cons, IH. Qed.

Lemma string_length_app (a b : string) :
  String.length (a +:+ b) = (String.length a + String.length b)%nat.
Proof. induction a as [|x a IH]; [done|]. rewrite string_app_cons. simpl. by rewrite IH. Qed.

(** Distinct code units are written in distinct bytes. *)
Lemma ascii_of_N_inj (a b : N) :
  (a < 256)%N -> (b < 256)%N -> ascii_of_N a = ascii_of_N b -> a = b.
Proof.
  intros Ha Hb Heq. apply (f_equal N_of_ascii) in Heq.
  by rewrite !N_ascii_embedding in Heq.
Qed.

Lemma code_unit_inj (n m : N) :
  (n < 65536)%N -> (m < 65536)%N -> code_unit n = code_unit m -> n = m.
Proof.
  intros Hn Hm. unfold code_unit.
  rewrite <- !(N.Div0.div_div _ 64 64).
  pose proof (N.div_mod n 64 ltac:(done)). pose proof (N.mod_lt n 64 ltac:(done)).
  pose proof (N.div_mod m 64 ltac:(done)). pose proof (N.mod_lt m 64 ltac:(done)).
  pose proof (N.div_mod (n / 64) 64 ltac:(done)). pose proof (N.mod_lt (n / 64) 64 ltac:(done)).
  pose proof (N.div_mod (m / 64) 64 ltac:(done)). pose proof (N.mod_lt (m / 64) 64 ltac:(done)).
  generalize dependent ((n / 64) mod 64)%N. generalize dependent (n / 64 / 64)%N.
  generalize dependent ((m / 64) mod 64)%N. generalize dependent (m / 64 / 64)%N.
  generalize dependent (n mod 64)%N. generalize dependent (n / 64)%N.
  generalize dependent (m mod 64)%N. generalize dependent (m / 64)%N.
  intros qm rm qn rn qqm rrm qqn rrn. intros.
  destruct (N.ltb_spec n 128), (N.ltb_spec m 128);
    [|destruct (N.ltb_spec m 2048)|destruct (N.ltb_spec n 2048)
     |destruct (N.ltb_spec n 2048), (N.ltb_spec m 2048)]; try done.
  - match goal with Heq : String _ _ = String _ _ |- _ => injection Heq as Hb1 end.
    apply ascii_of_N_inj in Hb1; lia.
  - match goal with Heq : String _ _ = String _ _ |- _ => injection Heq as Hb1 Hb2 end.
    apply ascii_of_N_inj in Hb1; [|lia..]. apply ascii_of_N_inj in Hb2; lia.
  - match goal with Heq : String _ _ = String _ _ |- _ => injection Heq as Hb1 Hb2 Hb3 end.
    apply ascii_of_N_inj in Hb1; [|lia..]. apply ascii_of_N_inj in Hb2; [|lia..].
    apply ascii_of_N_inj in Hb3; lia.
Qed.

(** The escape of a surrogate reads back as its three bytes. *)
Lemma reads_back_all :
  forallb (fun n1 => forallb (reads_back n1) (seq 128 64)) (seq 160 32) = true.
Proof. vm_compute. reflexivity. Qed.

Lemma surrogate_bytes c c1 c2 :
  surrogate c c1 c2 = true ->
  c = "237"%char
  /\ 160 <= nat_of_ascii c1 < 192 /\ 128 <= nat_of_ascii c2 < 192.
Proof.
  unfold surrogate, leading_surrogate, trailing_surrogate, continuation.
  rewrite orb_true_iff, !andb_true_iff, !Nat.leb_le, Ascii.eqb_eq.
  intros [(((-> & ?) & ?) & ? & ?)|(((-> & ?) & ?) & ? & ?)]; split; try done; lia.
Qed.

Lemma unicode_text_read c c1 c2 :
  surrogate c c1 c2 = true ->
  lex_unicode (unicode_text (three_bytes c c1 c2))
  = Some (String c (String c1 (String c2 EmptyString))).
Proof.
  intros (-> & H1 & H2)%surrogate_bytes.
  pose proof reads_back_all as Hall.
  rewrite forallb_forall in Hall.
  specialize (Hall (nat_of_ascii c1)). rewrite forallb_forall in Hall.
  specialize (Hall ltac:(apply in_seq; lia) (nat_of_ascii c2) ltac:(apply in_seq; lia)).
  unfold reads_back in Hall. cbv zeta in Hall. rewrite !ascii_nat_embedding in Hall.
  destruct (lex_unicode _) as [x|]; [|done].
  by apply String.eqb_eq in Hall as ->.
Qed.

Lemma lex_string_unicode_text n tail :
  lex_string (unicode_text n +:+ tail) =
  x ← lex_unicode (unicode_text n); '(str, r) ← lex_string tail; Some (x +:+ str, r).
Proof. reflexivity. Qed.

(** A byte of a group of two or three is read as it is. *)
Lemma lex_string_byte c tail :
  continuation c = true \/ c = "237"%char ->
  lex_string (String c tail) = '(str, r) ← lex_string tail; Some (String c str, r).
Proof.
  intros Hc. rewrite <- (lex_string_escape_char c tail).
  assert (escape_char c = String c EmptyString) as ->; [|done].
  destruct Hc as [Hc| ->]; [|done].
  destruct c as [[] [] [] [] [] [] [] []]; try done.
Qed.

Lemma lex_string_escape_upto n : forall s rest,
  String.length s <= n ->
  lex_string (escape s +:+ String dquote rest) = Some (s, rest).
Proof.
  induction n as [|n IH]; intros s rest Hlen.
  - destruct s; [done | simpl in Hlen; lia].
  - destruct s as [|c s']; [done|].
    assert (Hplain : lex_string ((escape_char c +:+ escape s') +:+ String dquote rest)
                     = Some (String c s', rest)).
    { rewrite string_app_assoc, lex_string_escape_char, IH by (simpl in Hlen; lia). done. }
    destruct s' as [|c1 [|c2 s3]]; [exact Hplain..|].
    simpl escape.
    destruct (leading_surrogate c c1 c2) eqn:Hlead.
    + assert (Hlone : lex_string ((unicode_text (three_bytes c c1 c2) +:+ escape s3)
                                    +:+ String dquote rest)
                      = Some (String c (String c1 (String c2 s3)), rest)).
      { rewrite string_app_assoc, lex_string_unicode_text, unicode_text_read
          by (unfold surrogate; by rewrite Hlead).
        simpl. rewrite IH by (simpl in Hlen; lia). done. }
      destruct s3 as [|d [|d1 [|d2 s6]]]; [exact Hlone..|].
      destruct (trailing_surrogate d d1 d2) eqn:Htrail; [|exact Hlone].
      assert (Hc : surrogate c c1 c2 = true) by (unfold surrogate; by rewrite Hlead).
      assert (Hd : surrogate d d1 d2 = true)
        by (unfold surrogate; by rewrite Htrail, orb_true_r).
      apply surrogate_bytes in Hc as (-> & Hc1 & Hc2).
      apply surrogate_bytes in Hd as (-> & Hd1 & Hd2).
      rewrite !string_app_cons.
      rewrite !lex_string_byte, IH; [done|simpl in Hlen; lia|..];
        try (by right); left; unfold continuation;
        apply andb_true_iff; split; apply Nat.leb_le; lia.
    + destruct (trailing_surrogate c c1 c2) eqn:Htrail; [|exact Hplain].
      rewrite string_app_assoc, lex_string_unicode_text, unicode_text_read
        by (unfold surrogate; by rewrite Htrail, orb_true_r).
      simpl. rewrite IH by (simpl in Hlen; lia). done.
Qed.

Lemma lex_string_escape s rest :
  lex_string (escape s +:+ String dquote rest) = Some (s, rest).
Proof. by apply (lex_string_escape_upto (String.length s)). Qed.

Lemma skip_ws_start s :
  starts_with is_ws s = false -> skip_ws s = s.
Proof. destruct s as [|c s]; simpl; [done|]. by intros ->. Qed.

Lemma span_token p tok rest :
  string_forall p tok = true -> starts_with p rest = false ->
  span p (tok +:+ rest) = (tok, rest).
Proof.
  intros Htok Hrest. induction tok as [|c tok IH].
  - rewrite string_app_nil_l. destruct rest as [|c r]; simpl in *; [done|]. by rewrite Hrest.
  - rewrite string_app_cons. simpl in *. apply andb_true_iff in Htok as [-> Htok].
    by rewrite IH.
Qed.

Section Roundtrip.
Context {num : Type} `{NumberText num}.

Lemma value_ind (P : value num -> Prop) :
  P VNull -> (forall b, P (VBool b)) -> (forall n, P (VNum n)) ->
  (forall s, P (VStr s)) ->
  (forall l, Forall P l -> P (VArr l)) ->
  (forall ps, Forall (fun p => P (snd p)) ps -> P (VObj ps)) ->
  forall v, P v.
Proof.
  intros Hnull Hbool Hnum Hstr Harr Hobj.
  fix IH 1. intros [| b | n | s | l | ps].
  - exact Hnull.
  - apply Hbool.
  - apply Hnum.
  - apply Hstr.
  - apply Harr. induction l as [|x l IHl]; constructor; [apply IH | exact IHl].
  - apply Hobj. induction ps as [|p ps IHps]; constructor; [apply IH | exact IHps].
Qed.

Lemma stringify_start (v : value num) :
  serializable v -> starts_with value_start (JSON_stringify v) = true.
Proof.
  destruct v as [| [] | n | s | l | ps]; simpl; try done.
  intros Hfin. rewrite Hfin.
  pose proof (num_text_start n Hfin) as Hs.
  destruct (num_to_string n) as [|c r]; simpl in *; [done|].
  unfold value_start. rewrite Hs. by rewrite !orb_true_r.
Qed.

Lemma num_start_dispatch c :
  is_num_start c = true ->
  is_ws c = false /\ Ascii.eqb c dquote = false /\ Ascii.eqb c "[" = false
  /\ Ascii.eqb c "{" = false.
Proof. destruct c as [[] [] [] [] [] [] [] []]; vm_compute; auto; discriminate. Qed.

Lemma value_start_not_ws c : value_start c = true -> is_ws c = false.
Proof. destruct c as [[] [] [] [] [] [] [] []]; vm_compute; auto; discriminate. Qed.

Lemma value_start_not_close c :
  value_start c = true -> Ascii.eqb c "]" = false /\ Ascii.eqb c "}" = false.
Proof. destruct c as [[] [] [] [] [] [] [] []]; vm_compute; auto; discriminate. Qed.

Lemma expect_here c rest : is_ws c = false -> expect c (String c rest) = Some rest.
Proof. intros Hc. unfold expect. simpl. by rewrite Hc, Ascii.eqb_refl. Qed.

Lemma expect_other c c' rest :
  is_ws c' = false -> Ascii.eqb c' c = false -> expect c (String c' rest) = None.
Proof. intros Hw Hc. unfold expect. simpl. by rewrite Hw, Hc. Qed.

Lemma parse_elements_stringify x l :
  Forall roundtrips (x :: l) ->
  fold_right (fun x P => serializable x /\ P) True (x :: l) ->
  forall fuel rest,
    list_sum (List.map (fun x => S (value_size x)) (x :: l)) <= fuel ->
    parse_elements fuel
      (String.concat "," (List.map JSON_stringify (x :: l)) +:+ String "]" rest)
    = Some (x :: l, rest).
Proof.
  revert x. induction l as [|y l IH]; intros x Hall Hser fuel rest Hfuel.
  - apply Forall_cons in Hall as [Hx _]. destruct Hser as [Sx _].
    destruct fuel as [|fuel]; simpl in Hfuel; [lia|].
    simpl. by rewrite (Hx Sx) by (done || lia).
  - apply Forall_cons in Hall as [Hx Hall]. destruct Hser as [Sx Hser].
    destruct fuel as [|fuel]; [simpl in Hfuel; lia|].
    change (String.concat "," (List.map JSON_stringify (x :: y :: l)))
      with (JSON_stringify x +:+ "," +:+ String.concat "," (List.map JSON_stringify (y :: l))).
    rewrite !string_app_assoc. simpl in Hfuel.
    specialize (IH y Hall Hser fuel rest).
    remember (String.concat "," (List.map JSON_stringify (y :: l)) +:+ String "]" rest)
      as tail.
    simpl parse_elements. rewrite (Hx Sx) by (done || lia). simpl.
    rewrite string_app_nil_l, IH; [done|]. simpl. lia.
Qed.

Lemma parse_members_stringify p ps :
  Forall (fun p => roundtrips (snd p)) (p :: ps) ->
  fold_right (fun p P => serializable (snd p) /\ P) True (p :: ps) ->
  forall fuel rest acc,
    list_sum (List.map (fun p => S (value_size (snd p))) (p :: ps)) <= fuel ->
    parse_members fuel
      (String.concat "," (List.map member_text (p :: ps)) +:+ String "}" rest) acc
    = Some (define_all acc (p :: ps), rest).
Proof.
  revert p. induction ps as [|q ps IH]; intros [k v] Hall Hser fuel rest acc Hfuel.
  - apply Forall_cons in Hall as [Hx _]. destruct Hser as [Sx _].
    destruct fuel as [|fuel]; simpl in Hfuel; [lia|].
    simpl in Hx, Sx.
    change (String.concat "," (List.map member_text [(k, v)]))
      with (String dquote (escape k +:+ String dquote "") +:+ ":" +:+ JSON_stringify v).
    rewrite !string_app_cons, !string_app_assoc, !string_app_cons, !string_app_nil_l.
    remember (JSON_stringify v +:+ String "}" rest) as tail.
    simpl parse_members.
    rewrite lex_string_escape. simpl. subst tail.
    rewrite (Hx Sx) by (done || lia). by simpl.
  - apply Forall_cons in Hall as [Hx Hall]. destruct Hser as [Sx Hser].
    destruct fuel as [|fuel]; [simpl in Hfuel; lia|].
    simpl in Hx, Sx.
    change (String.concat "," (List.map member_text ((k, v) :: q :: ps)))
      with ((String dquote (escape k +:+ String dquote "") +:+ ":" +:+ JSON_stringify v)
            +:+ "," +:+ String.concat "," (List.map member_text (q :: ps))).
    rewrite !string_app_cons, !string_app_assoc, !string_app_cons, !string_app_nil_l.
    simpl in Hfuel.
    specialize (IH q Hall Hser fuel rest (prop_set acc k v)).
    remember (String.concat "," (List.map member_text (q :: ps)) +:+ String "}" rest)
      as tail.
    remember (JSON_stringify v +:+ String "," tail) as tail'.
    simpl parse_members.
    rewrite lex_string_escape. simpl. subst tail'.
    rewrite (Hx Sx) by (done || lia). simpl.
    rewrite IH; [done|]. simpl. lia.
Qed.

Lemma prop_set_fresh {A} (acc : props A) k (a : A) :
  prop_get acc k = None -> array_index k = None ->
  prop_set acc k a = (acc ++ [(k, a)]).
Proof. intros Hget Hidx. unfold prop_set. by rewrite Hget, Hidx. Qed.

Lemma prop_get_snoc_ne {A} (acc : props A) k k' (a : A) :
  k <> k' -> prop_get acc k' = None ->
  prop_get (acc ++ [(k, a)]) k' = None.
Proof.
  intros Hne. induction acc as [|[k0 a0] acc IH]; simpl.
  - intros _. by apply String.eqb_neq in Hne as ->.
  - destruct (String.eqb k0 k'); [done | exact IH].
Qed.

Lemma define_all_fresh (acc ps : props (value num)) :
  NoDup (List.map fst ps) ->
  Forall (fun k => array_index k = None) (List.map fst ps) ->
  Forall (fun k => prop_get acc k = None) (List.map fst ps) ->
  define_all acc ps = (acc ++ ps).
Proof.
  revert acc. induction ps as [|[k v] ps IH]; intros acc Hnd Hidx Hfresh.
  - by rewrite app_nil_r.
  - simpl in *. apply NoDup_cons in Hnd as [Hk Hnd].
    apply Forall_cons in Hidx as [Hik Hidx].
    apply Forall_cons in Hfresh as [Hfk Hfresh].
    unfold define_all. simpl. rewrite prop_set_fresh by done.
    fold (define_all (acc ++ [(k, v)]) ps). rewrite IH; [|done|done|].
    + by rewrite <- app_assoc.
    + apply Forall_forall. intros k' Hin.
      apply prop_get_snoc_ne; [intros ->; by apply Hk|].
      by apply (proj1 (Forall_forall _ _) Hfresh).
Qed.

Lemma serializable_elems (l : list (value num)) :
  fold_right (fun x P => serializable x /\ P) True l <-> Forall serializable l.
Proof.
  induction l as [|x l IH]; simpl; [by split|].
  rewrite Forall_cons. by rewrite IH.
Qed.

(** A serialized value, followed by a delimiter, parses back to the value. *)
Lemma parse_value_stringify (v : value num) : roundtrips v.
Proof.
  induction v as [| b | n | s | l IH | ps IH] using value_ind;
    intros Hser fuel rest Hfuel Hrest;
    (destruct fuel as [|fuel]; [simpl in Hfuel; lia|]).
  - reflexivity.
  - by destruct b.
  - simpl in Hser. simpl JSON_stringify. rewrite Hser.
    pose proof (num_text_start n Hser) as Hstart.
    pose proof (num_text_chars n Hser) as Hchars.
    pose proof (num_text_read n Hser) as Hread.
    destruct (num_to_string n) as [|c r] eqn:Htext; [done|].
    simpl in Hstart. destruct (num_start_dispatch c Hstart) as (Hw & Hq & Ha & Ho).
    rewrite string_app_cons. simpl. rewrite Hw, Hq, Ha, Ho, Hstart.
    unfold lex_number. rewrite <- string_app_cons, span_token by done.
    by rewrite Hread.
  - simpl JSON_stringify. unfold quote. rewrite string_app_cons, string_app_assoc, string_app_cons, string_app_nil_l.
    simpl. by rewrite lex_string_escape.
  - destruct l as [|x l]; [reflexivity|].
    simpl in Hser.
    change (JSON_stringify (VArr (x :: l)))
      with ("[" +:+ String.concat "," (List.map JSON_stringify (x :: l)) +:+ "]").
    rewrite !string_app_cons, !string_app_nil_l, string_app_assoc, string_app_cons, string_app_nil_l.
    pose proof (parse_elements_stringify x l IH Hser fuel rest) as Hel.
    assert (Hfirst : starts_with value_start
              (String.concat "," (List.map JSON_stringify (x :: l)) +:+ String "]" rest)
              = true).
    { pose proof (stringify_start x (proj1 Hser)) as Hx.
      simpl. destruct (List.map JSON_stringify l);
        destruct (JSON_stringify x); try done. }
    remember (String.concat "," (List.map JSON_stringify (x :: l)) +:+ String "]" rest)
      as tail.
    destruct tail as [|c tail]; [done|]. simpl in Hfirst.
    simpl. rewrite expect_other;
      [| by apply value_start_not_ws | by apply value_start_not_close].
    rewrite Hel; [done|]. simpl in Hfuel |- *. lia.
  - destruct ps as [|p ps]; [reflexivity|].
    destruct Hser as [[Hnd Hidx] Hser].
    change (JSON_stringify (VObj (p :: ps)))
      with ("{" +:+ String.concat "," (List.map member_text (p :: ps)) +:+ "}").
    rewrite !string_app_cons, !string_app_nil_l, string_app_assoc, string_app_cons, string_app_nil_l.
    pose proof (parse_members_stringify p ps IH Hser fuel rest []) as Hel.
    rewrite define_all_fresh in Hel; [|done|done|].
    2:{ apply Forall_forall. by intros. }
    assert (Hfirst : starts_with value_start
              (String.concat "," (List.map member_text (p :: ps)) +:+ String "}" rest)
              = true).
    { simpl. destruct (List.map member_text ps); done. }
    remember (String.concat "," (List.map member_text (p :: ps)) +:+ String "}" rest)
      as tail.
    destruct tail as [|c tail]; [done|]. simpl in Hfirst.
    simpl. rewrite expect_other;
      [| by apply value_start_not_ws | by apply value_start_not_close].
    rewrite Hel; [done|]. simpl in Hfuel |- *. lia.
Qed.

Lemma length_quote s : 2 <= String.length (quote s).
Proof. unfold quote. simpl. rewrite string_length_app. simpl. lia. Qed.

Lemma length_concat_bound {A} (size : A -> nat) (text : A -> string) (l : list A) :
  Forall (fun x => size x <= String.length (text x)) l ->
  list_sum (map (fun x => S (size x)) l)
  <= S (String.length (String.concat "," (map text l))).
Proof.
  induction l as [|x l IH]; intros Hall; [simpl; lia|].
  apply Forall_cons in Hall as [Hx Hall]. specialize (IH Hall).
  destruct l as [|y l]; [simpl in *; lia|].
  change (String.concat "," (map text (x :: y :: l)))
    with (text x +:+ "," +:+ String.concat "," (map text (y :: l))).
  rewrite !string_length_app.
  change (list_sum (map (fun x => S (size x)) (x :: y :: l)))
    with (S (size x) + list_sum (map (fun x => S (size x)) (y :: l))).
  change (String.length ",") with 1. lia.
Qed.

(** The text of a value is at least as long as the budget its parsing needs. *)
Lemma value_size_length (v : value num) :
  serializable v -> value_size v <= String.length (JSON_stringify v).
Proof.
  induction v as [| b | n | s | l IH | ps IH] using value_ind; intros Hser.
  - simpl. lia.
  - destruct b; simpl; lia.
  - simpl in *. rewrite Hser. pose proof (num_text_start n Hser) as Hs.
    destruct (num_to_string n); [done | simpl; lia].
  - pose proof (length_quote s). simpl. lia.
  - simpl in Hser. apply serializable_elems in Hser.
    change (JSON_stringify (VArr l))
      with ("[" +:+ String.concat "," (map JSON_stringify l) +:+ "]").
    rewrite !string_length_app. change (String.length "[") with 1.
    change (String.length "]") with 1. simpl value_size.
    pose proof (length_concat_bound value_size JSON_stringify l) as Hb.
    assert (Forall (fun x => value_size x <= String.length (JSON_stringify x)) l) as Hl.
    { apply Forall_forall. intros x Hx.
      apply (proj1 (Forall_forall _ _) IH x Hx), (proj1 (Forall_forall _ _) Hser x Hx). }
    specialize (Hb Hl). lia.
  - destruct Hser as [_ Hser].
    change (JSON_stringify (VObj ps))
      with ("{" +:+ String.concat "," (map member_text ps) +:+ "}").
    rewrite !string_length_app. change (String.length "{") with 1.
    change (String.length "}") with 1. simpl value_size.
    pose proof (length_concat_bound (fun p => value_size (snd p)) member_text ps) as Hb.
    assert (Forall (fun p => value_size (snd p) <= String.length (member_text p)) ps) as Hl.
    { clear Hb. induction ps as [|p ps IHps]; [constructor|].
      apply Forall_cons in IH as [Hp IH]. destruct Hser as [Sp Hser].
      constructor; [|by apply IHps].
      unfold member_text. rewrite !string_length_app. specialize (Hp Sp).
      pose proof (length_quote (fst p)). lia. }
    specialize (Hb Hl). lia.
Qed.

Lemma string_app_nil_r (s : string) : s +:+ "" = s.
Proof. induction s as [|c s IH]; [done|]. by rewrite string_app_cons, IH. Qed.

(** [JSON.parse(JSON.stringify(v))] is [v]. *)
Lemma parse_stringify (v : value num) :
  serializable v -> JSON_parse (JSON_stringify v) = Some v.
Proof.
  intros Hser. unfold JSON_parse.
  rewrite <- (string_app_nil_r (JSON_stringify v)) at 2.
  rewrite parse_value_stringify; [done..| |done].
  pose proof (value_size_length v Hser). lia.
Qed.

End Roundtrip.

(** ** The budget of the parser *)

Lemma skip_ws_length s : String.length (skip_ws s) <= String.length s.
Proof.
  induction s as [|c s IH]; simpl; [done|]. destruct (is_ws c); simpl; lia.
Qed.

Lemma expect_length c s r :
  expect c s = Some r -> String.length r < String.length s.
Proof.
  unfold expect. pose proof (skip_ws_length s) as Hs.
  destruct (skip_ws s) as [|c' r']; [done|]. simpl in Hs.
  destruct (Ascii.eqb c' c); [|done]. intros [= <-]. lia.
Qed.

Lemma lex_string_length s str r :
  lex_string s = Some (str, r) -> String.length r < String.length s.
Proof.
  remember (String.length s) as n eqn:Hn. revert s str r Hn.
  induction n as [n IH] using lt_wf_ind. intros s str r ->.
  assert (IH' : forall s' str' r', String.length s' < String.length s ->
            lex_string s' = Some (str', r') -> String.length r' < String.length s')
    by (intros s' str' r' Hlt; by apply (IH _ Hlt)).
  clear IH. rename IH' into IH.
  destruct s as [|c rest]; [done|]. simpl.
  destruct (Ascii.eqb c dquote); [intros [= _ <-]; lia|].
  destruct (Ascii.eqb c backslash).
  - destruct rest as [|e rest']; [done|].
    destruct (Ascii.eqb e "u").
    + destruct rest' as [|h1 [|h2 [|h3 [|h4 tail]]]]; try done.
      destruct (unicode_escape h1 h2 h3 h4); [|done]. simpl.
      destruct (lex_string tail) as [[str' r']|] eqn:Htail; [|done]. simpl.
      intros [= _ <-]. apply IH in Htail; simpl in *; lia.
    + destruct (simple_escape e); [|done]. simpl.
      destruct (lex_string rest') as [[str' r']|] eqn:Htail; [|done]. simpl.
      intros [= _ <-]. apply IH in Htail; simpl in *; lia.
  - destruct (nat_of_ascii c <? 32); [done|].
    destruct (lex_string rest) as [[str' r']|] eqn:Htail; [|done]. simpl.
    intros [= _ <-]. apply IH in Htail; simpl in *; lia.
Qed.

Lemma span_length p s : forall tok r,
  span p s = (tok, r) -> String.length s = String.length tok + String.length r.
Proof.
  induction s as [|c s IH]; intros tok r; simpl.
  - by intros [= <- <-].
  - destruct (p c).
    + destruct (span p s) as [tok' r']. intros [= <- <-]. simpl.
      by rewrite (IH tok' r').
    + by intros [= <- <-].
Qed.

Lemma strip_prefix_length p s r :
  strip_prefix p s = Some r -> String.length s = String.length p + String.length r.
Proof.
  revert s. induction p as [|a p IH]; intros s; simpl.
  - by intros [= <-].
  - destruct s as [|b s]; [done|]. destruct (Ascii.eqb a b); [|done].
    intros Hs. simpl. by rewrite (IH s Hs).
Qed.

Section Budget.
Context {num : Type} `{Number num}.

Lemma lex_number_length c rest (v : value num) r :
  is_num_start c = true ->
  lex_number (String c rest) = Some (v, r) ->
  String.length r < String.length (String c rest).
Proof.
  intros Hc. unfold lex_number.
  destruct (span is_num_char (String c rest)) as [tok r'] eqn:Hspan.
  pose proof (span_length _ _ _ _ Hspan) as Hlen.
  destruct (num_of_literal tok); [|done]. simpl. intros [= _ <-].
  simpl in Hspan. assert (is_num_char c = true) as Hc'.
  { unfold is_num_char. unfold is_num_start in Hc.
    apply orb_true_iff in Hc as [-> | ->]; simpl; by rewrite ?orb_true_r. }
  rewrite Hc' in Hspan. destruct (span is_num_char rest). injection Hspan as <- <-.
  simpl in *. lia.
Qed.

Lemma lex_literal_length s (v : value num) r :
  lex_literal s = Some (v, r) -> String.length r < String.length s.
Proof.
  unfold lex_literal.
  destruct (strip_prefix "null" s) as [r1|] eqn:H1.
  { intros [= _ <-]. apply strip_prefix_length in H1. simpl in H1. lia. }
  destruct (strip_prefix "true" s) as [r2|] eqn:H2.
  { intros [= _ <-]. apply strip_prefix_length in H2. simpl in H2. lia. }
  destruct (strip_prefix "false" s) as [r3|] eqn:H3; [|done].
  intros [= _ <-]. apply strip_prefix_length in H3. simpl in H3. lia.
Qed.

Lemma parse_adequate n :
  adequate (parse_value (num := num)) n
  /\ adequate (parse_elements (num := num)) n
  /\ forall acc, adequate (fun n s => parse_members (num := num) n s acc) n.
Proof.
  induction n as [|n (IHv & IHe & IHm)]; [by repeat split|].
  split; [|split].
  - intros s a r Hp. pose proof (skip_ws_length s) as Hws.
    cut (String.length r < String.length (skip_ws s)
         /\ forall m, String.length (skip_ws s) - String.length r <= S m ->
                      parse_value (S m) s = Some (a, r)).
    { intros [Hlt Hm]. split; [lia|]. intros [|m] Hle; [lia|]. apply Hm. lia. }
    simpl in Hp |- *. destruct (skip_ws s) as [|c rest]; [done|].
    destruct (Ascii.eqb c dquote).
    { destruct (lex_string rest) as [[str r']|] eqn:Hstr; [|done].
      simpl in Hp. injection Hp as <- <-.
      apply lex_string_length in Hstr. simpl. split; [lia | done]. }
    destruct (Ascii.eqb c "[").
    { destruct (expect "]" rest) as [r'|] eqn:Hclose.
      - injection Hp as <- <-. apply expect_length in Hclose. simpl. split; [lia | done].
      - destruct (parse_elements n rest) as [[l r']|] eqn:Hel; [|done].
        simpl in Hp. injection Hp as <- <-.
        destruct (IHe _ _ _ Hel) as [Hlt Hany]. simpl. split; [lia|].
        intros m Hm. rewrite Hany by lia. done. }
    destruct (Ascii.eqb c "{").
    { destruct (expect "}" rest) as [r'|] eqn:Hclose.
      - injection Hp as <- <-. apply expect_length in Hclose. simpl. split; [lia | done].
      - destruct (parse_members n rest []) as [[ps r']|] eqn:Hel; [|done].
        simpl in Hp. injection Hp as <- <-.
        destruct (IHm [] _ _ _ Hel) as [Hlt Hany]. simpl. split; [lia|].
        intros m Hm. rewrite Hany by lia. done. }
    destruct (is_num_start c) eqn:Hc.
    { split; [by apply (lex_number_length c rest a) | done]. }
    split; [by apply (lex_literal_length _ a) | done].
  - intros s a r Hp. simpl in Hp.
    destruct (parse_value n s) as [[v r1]|] eqn:Hv; [|done]. simpl in Hp.
    destruct (IHv _ _ _ Hv) as [Hlt1 Hany1].
    destruct (expect "," r1) as [r2|] eqn:Hcomma.
    + destruct (parse_elements n r2) as [[l r3]|] eqn:Hel; [|done].
      simpl in Hp. injection Hp as <- <-.
      destruct (IHe _ _ _ Hel) as [Hlt3 Hany3].
      apply expect_length in Hcomma as Hlt2. split; [lia|].
      intros [|m] Hm; [lia|]. simpl. rewrite Hany1 by lia. simpl.
      rewrite Hcomma, Hany3 by lia. done.
    + destruct (expect "]" r1) as [r2|] eqn:Hclose; [|done].
      injection Hp as <- <-. apply expect_length in Hclose as Hlt2. split; [lia|].
      intros [|m] Hm; [lia|]. simpl. rewrite Hany1 by lia. simpl.
      by rewrite Hcomma, Hclose.
  - intros acc s a r Hp. simpl in Hp.
    destruct (expect dquote s) as [r0|] eqn:Hq; [|done]. simpl in Hp.
    destruct (lex_string r0) as [[k r1]|] eqn:Hk; [|done]. simpl in Hp.
    destruct (expect ":" r1) as [r2|] eqn:Hcolon; [|done]. simpl in Hp.
    destruct (parse_value n r2) as [[v r3]|] eqn:Hv; [|done]. simpl in Hp.
    apply expect_length in Hq as Hlt0. apply lex_string_length in Hk as Hlt1.
    apply expect_length in Hcolon as Hlt2.
    destruct (IHv _ _ _ Hv) as [Hlt3 Hany3].
    destruct (expect "," r3) as [r4|] eqn:Hcomma.
    + destruct (IHm _ _ _ _ Hp) as [Hlt5 Hany5].
      apply expect_length in Hcomma as Hlt4. split; [lia|].
      intros [|m] Hm; [lia|]. simpl. rewrite Hq. simpl. rewrite Hk. simpl.
      rewrite Hcolon. simpl. rewrite Hany3 by lia. simpl.
      rewrite Hcomma. apply Hany5. lia.
    + destruct (expect "}" r3) as [r4|] eqn:Hclose; [|done].
      injection Hp as <- <-. apply expect_length in Hclose as Hlt4. split; [lia|].
      intros [|m] Hm; [lia|]. simpl. rewrite Hq. simpl. rewrite Hk. simpl.
      rewrite Hcolon. simpl. rewrite Hany3 by lia. simpl.
      by rewrite Hcomma, Hclose.
Qed.

(** [JSON_parse] gives what the descent gives under any budget. *)
Lemma JSON_parse_any_budget (n : nat) (text : string) (v : value num) (rest : string) :
  parse_value n text = Some (v, rest) -> skip_ws rest = "" ->
  JSON_parse text = Some v.
Proof.
  intros Hp Hrest. destruct (proj1 (parse_adequate n) _ _ _ Hp) as [_ Hany].
  unfold JSON_parse. rewrite Hany by lia. simpl. by rewrite Hrest.
Qed.

End Budget.

(** ** The integers satisfy the interface laws *)

Lemma uint_text_digits (d : Decimal.uint) :
  string_forall is_digit (NilEmpty.string_of_uint d) = true.
Proof. induction d; simpl; auto. Qed.

Lemma Z_to_string_chars z : string_forall is_num_char (Z_to_string z) = true.
Proof.
  assert (forall s, string_forall is_digit s = true ->
                    string_forall is_num_char s = true) as Hd.
  { induction s as [|c s IH]; simpl; [done|].
    intros [Hc Hs]%andb_true_iff. unfold is_num_char. rewrite Hc. simpl. auto. }
  unfold Z_to_string. destruct (Z.to_int z) as [d|d]; simpl.
  - destruct d; try apply Hd, uint_text_digits; done.
  - destruct d; try apply Hd, uint_text_digits; done.
Qed.

Lemma Z_to_string_start z : starts_with is_num_start (Z_to_string z) = true.
Proof.
  unfold Z_to_string. destruct (Z.to_int z) as [d|d]; simpl; [|done].
  destruct d; done.
Qed.

Lemma Z_to_string_read z : int_of_literal (Z_to_string z) = Some (IFin z).
Proof.
  unfold int_of_literal, Z_to_string.
  rewrite NilZero.isi.
  - rewrite DecimalZ.of_to. fold (Z_to_string z). by rewrite String.eqb_refl.
  - destruct z as [|p|p]; simpl; [done| |done].
    intros [= Hp]. by apply (DecimalPos.Unsigned.to_uint_nonnil p).
  - destruct z as [|p|p]; simpl; [done|done|].
    intros [= Hp]. by apply (DecimalPos.Unsigned.to_uint_nonnil p).
Qed.

#[export] Instance IntNumberText : NumberText intnum.
Proof.
  split.
  - intros [z| |b]; [intros _; apply Z_to_string_chars | done..].
  - intros [z| |b]; [intros _; apply Z_to_string_start | done..].
  - intros [z| |b]; [intros _; apply Z_to_string_read | done..].
Qed.

(** ** The state object *)

Ltac js_unfold :=
  unfold saveToStorage, loadFromStorage, init, addExpense, removeExpense, setFilter,
    try_catch, mbind, JS_mbind, js_bind, mret, JS_ret, js_ret, get_state, setItem,
    getItem, set_expenses, set_currentFilter, lift, console_error, with_expenses;
  cbv beta iota.

Section LedgerFacts.
Context {num : Type} `{Number num}.
Implicit Types (w : World num) (l : list (Expense num)) (e : Expense num).

Lemma saveToStorage_written w :
  accessible (localStorage w) = true ->
  storage_size (<["expenses" := JSON_stringify (expenses (state w))]>
                  (items (localStorage w))) <= quota (localStorage w) ->
  saveToStorage w =
  (Normal tt,
   mkWorld (state w)
     (mkStorage (<["expenses" := JSON_stringify (expenses (state w))]>
                   (items (localStorage w)))
                (quota (localStorage w)) (accessible (localStorage w)))
     (console w)).
Proof.
  intros Hacc Hq. js_unfold. rewrite Hacc.
  by apply Nat.leb_le in Hq as ->.
Qed.

Lemma saveToStorage_refused w err :
  fst (setItem "expenses" (JSON_stringify (expenses (state w))) w) = Throw err ->
  saveToStorage w =
  (Normal tt,
   mkWorld (state w) (localStorage w)
           (console w ++ [("Error saving to localStorage:", err)])).
Proof.
  js_unfold.
  destruct (accessible (localStorage w)); [|by intros [= <-]].
  destruct (_ <=? _); [done | by intros [= <-]].
Qed.

(** [saveToStorage] always completes normally and leaves [state] alone. *)
Lemma saveToStorage_state w :
  fst (saveToStorage w) = Normal tt /\ state (snd (saveToStorage w)) = state w.
Proof.
  js_unfold.
  destruct (accessible (localStorage w)); [|done].
  by destruct (_ <=? _).
Qed.

(** Saving twice leaves the store as saving once does. *)
Lemma saveToStorage_twice w :
  localStorage (snd (saveToStorage (snd (saveToStorage w))))
  = localStorage (snd (saveToStorage w)).
Proof.
  js_unfold.
  destruct (accessible (localStorage w)) eqn:Hacc; simpl; [|by rewrite Hacc].
  destruct (_ <=? _) eqn:Hq; simpl; rewrite ?Hacc.
  - rewrite insert_insert_eq, Hq. done.
  - by rewrite Hq.
Qed.

Lemma addExpense_array (x : value num) (xs : list (value num)) w :
  expenses (state w) = VArr xs ->
  addExpense x w = saveToStorage (with_expenses (VArr (xs ++ [x])) w).
Proof. intros Hx. js_unfold. rewrite Hx. reflexivity. Qed.

Lemma get_prop_id e : get_prop (expense_obj e) "id" = Normal (Some (VStr (id e))).
Proof. reflexivity. Qed.

Lemma get_prop_amount e :
  get_prop (expense_obj e) "amount" = Normal (Some (VNum (amount e))).
Proof. reflexivity. Qed.

Lemma get_prop_category e :
  get_prop (expense_obj e) "category" = Normal (Some (VStr (category e))).
Proof. reflexivity. Qed.

(** [filter] with a test on a string property, on a typed ledger. *)
Lemma filter_elems_ledger (test : value num -> completion bool)
    (keep : Expense num -> bool) l :
  (forall e, test (expense_obj e) = Normal (keep e)) ->
  filter_elems test (map expense_obj l) = Normal (map expense_obj (List.filter keep l)).
Proof.
  intros Htest. induction l as [|e l IH]; [done|].
  simpl. rewrite Htest, IH. simpl. by destruct (keep e).
Qed.

Lemma removeExpense_ledger i l w :
  expenses (state w) = ledger l ->
  removeExpense i w = saveToStorage (with_expenses (ledger (without_id i l)) w).
Proof.
  intros Hl. js_unfold. rewrite Hl. unfold ledger, array_filter.
  rewrite (filter_elems_ledger _ (fun e => negb (String.eqb (id e) i))); [done|].
  intros e. by rewrite get_prop_id.
Qed.

Lemma ledger_app l e : ledger (l ++ [e]) = VArr (map expense_obj l ++ [expense_obj e]).
Proof. unfold ledger. by rewrite map_app. Qed.

(** Replaying calls on a typed ledger never throws and computes [apply_ops]. *)
Lemma replay_apply_ops ops : forall l w,
  expenses (state w) = ledger l ->
  fst (replay ops w) = Normal tt
  /\ expenses (state (snd (replay ops w))) = ledger (apply_ops l ops).
Proof.
  induction ops as [|o ops IH]; intros l w Hl; [done|].
  assert (exists l', l' = apply_ops l [o]
            /\ fst (run_op o w) = Normal tt
            /\ expenses (state (snd (run_op o w))) = ledger l') as (l' & -> & Hc & Hs).
  { destruct o as [e|i]; simpl.
    - eexists; split; [done|]. rewrite (addExpense_array _ (map expense_obj l)) by done.
      destruct (saveToStorage_state (with_expenses (VArr (map expense_obj l ++ [expense_obj e])) w))
        as [-> ->]. by rewrite ledger_app.
    - eexists; split; [done|]. rewrite (removeExpense_ledger _ l) by done.
      by destruct (saveToStorage_state (with_expenses (ledger (without_id i l)) w))
        as [-> ->]. }
  change (replay (o :: ops) w) with (js_bind (run_op o) (fun _ => replay ops) w).
  unfold js_bind. destruct (run_op o w) as [c w1]. simpl in Hc, Hs. subst c.
  destruct (IH _ w1 Hs) as [Hc' Hs']. split; [done|].
  rewrite Hs'. by destruct o.
Qed.

Lemma list_filter_all {A} (l : list A) : List.filter (fun _ => true) l = l.
Proof. induction l as [|x l IH]; simpl; congruence. Qed.

Lemma list_filter_twice {A} (f g : A -> bool) (l : list A) :
  List.filter f (List.filter g l) = List.filter (fun x => g x && f x) l.
Proof.
  induction l as [|x l IH]; [done|]. simpl.
  destruct (g x); simpl; [destruct (f x)|]; by rewrite IH.
Qed.

(** The calls, one after the other, leave what the specification describes. *)
Lemma apply_ops_survivors ops : forall l,
  apply_ops l ops
  = List.filter (fun e => negb (removed_later (id e) ops)) l ++ survivors ops.
Proof.
  induction ops as [|[e|i] ops IH]; intros l.
  - simpl. by rewrite list_filter_all, app_nil_r.
  - simpl. rewrite IH, List.filter_app, <- app_assoc. f_equal.
    simpl. by destruct (removed_later (id e) ops).
  - simpl. rewrite IH. unfold without_id. rewrite list_filter_twice. f_equal.
    apply List.filter_ext. intros e. rewrite (String.eqb_sym i). by rewrite negb_orb.
Qed.

Lemma survivors_sublist (ops : list (op num)) :
  sublist (ids (survivors ops)) (ids (added ops)).
Proof.
  unfold ids. induction ops as [|[e|i] ops IH]; simpl; [constructor| |done].
  destruct (removed_later (id e) ops); simpl; by constructor.
Qed.

Lemma js_add_numbers (a b : num) :
  js_add (Some (VNum a)) (Some (VNum b)) = Normal (VNum (num_add a b)).
Proof. reflexivity. Qed.

Lemma bind_normal {A B} (a : A) (k : A -> completion B) : Normal a ≫= k = k a.
Proof. reflexivity. Qed.

Lemma reduce_elems_cons {A} (f : A -> value num -> completion A) acc x xs :
  reduce_elems f acc (x :: xs) = acc' ← f acc x; reduce_elems f acc' xs.
Proof. reflexivity. Qed.

Lemma reduce_amounts l : forall acc,
  reduce_elems
    (fun sum expense => a ← get_prop expense "amount"; js_add (Some sum) a)
    (VNum acc) (map expense_obj l)
  = Normal (VNum (fold_left num_add (map amount l) acc)).
Proof.
  induction l as [|e l IH]; intros acc; [done|].
  change (map expense_obj (e :: l)) with (expense_obj e :: map expense_obj l).
  rewrite reduce_elems_cons, get_prop_amount, !bind_normal, js_add_numbers.
  apply IH.
Qed.

Lemma getFilteredExpenses_all l :
  getFilteredExpenses (mkState (ledger l) "All") = Normal (ledger l).
Proof. reflexivity. Qed.

Lemma getFilteredExpenses_category l f :
  f <> "All" ->
  getFilteredExpenses (mkState (ledger l) f) = Normal (ledger (with_category f l)).
Proof.
  intros Hf. unfold getFilteredExpenses. simpl.
  apply String.eqb_neq in Hf as ->. unfold ledger, array_filter.
  rewrite (filter_elems_ledger _ (fun e => String.eqb (category e) f)); [done|].
  intros e. by rewrite get_prop_category.
Qed.

Lemma getTotal_of_visible this l :
  getFilteredExpenses this = Normal (ledger l) ->
  getTotal this = Normal (VNum (sum_amounts l)).
Proof.
  intros Hv. unfold getTotal. rewrite Hv. simpl. apply reduce_amounts.
Qed.

(** *** Loading *)

Lemma JSON_parse_empty : JSON_parse (num := num) "" = None.
Proof. reflexivity. Qed.

Lemma loadFromStorage_absent w :
  accessible (localStorage w) = true ->
  items (localStorage w) !! "expenses" = None ->
  loadFromStorage w = (Normal (VArr []), w).
Proof. intros Hacc Hget. js_unfold. by rewrite Hacc, Hget. Qed.

Lemma loadFromStorage_parsed w text v :
  accessible (localStorage w) = true ->
  items (localStorage w) !! "expenses" = Some text ->
  JSON_parse text = Some v ->
  loadFromStorage w = (Normal v, w).
Proof.
  intros Hacc Hget Hparse. js_unfold. rewrite Hacc, Hget.
  destruct text as [|c text]; [by rewrite JSON_parse_empty in Hparse|].
  by rewrite Hparse.
Qed.

Lemma loadFromStorage_corrupt w text :
  accessible (localStorage w) = true ->
  items (localStorage w) !! "expenses" = Some text ->
  JSON_parse (num := num) text = None ->
  fst (loadFromStorage w) = Normal (VArr [])
  /\ state (snd (loadFromStorage w)) = state w
  /\ localStorage (snd (loadFromStorage w)) = localStorage w
  /\ (text <> "" ->
      console (snd (loadFromStorage w))
      = console w ++ [("Error loading from localStorage:", SyntaxError)]).
Proof.
  intros Hacc Hget Hparse. js_unfold. rewrite Hacc, Hget.
  destruct text as [|c text]; [done|]. by rewrite Hparse.
Qed.

Lemma init_load w :
  init w = (let '(c, w1) := loadFromStorage w in
            match c with
            | Normal v => (Normal tt, with_expenses v w1)
            | Throw err => (Throw err, w1)
            end).
Proof. unfold init, mbind, JS_mbind, js_bind. by destruct (loadFromStorage w) as [[v|err] w1]. Qed.

(** *** Removing twice *)

Lemma filter_elems_twice (test : value num -> completion bool) xs r :
  filter_elems test xs = Normal r -> filter_elems test r = Normal r.
Proof.
  revert r. induction xs as [|x xs IH]; intros r; simpl.
  - by intros [= <-].
  - destruct (test x) as [b|] eqn:Hx; [|done]. simpl.
    destruct (filter_elems test xs) as [r'|] eqn:Hr; [|done]. simpl.
    intros [= <-]. specialize (IH r' eq_refl).
    destruct b; [|done]. simpl. by rewrite Hx, IH.
Qed.

Lemma with_expenses_same w :
  with_expenses (expenses (state w)) w = w.
Proof. by destruct w as [[v f] st c]. Qed.

Lemma removeExpense_twice i w :
  let w1 := snd (removeExpense i w) in
  state (snd (removeExpense i w1)) = state w1
  /\ localStorage (snd (removeExpense i w1)) = localStorage w1.
Proof.
  set (test := fun expense : value num =>
                 i0 ← get_prop expense "id"; Normal (negb (strict_eq_string i0 i))).
  assert (Hrun : forall w0, removeExpense i w0 =
            match array_filter test (expenses (state w0)) with
            | Normal v => saveToStorage (with_expenses v w0)
            | Throw err => (Throw err, w0)
            end).
  { intros w0. unfold removeExpense, mbind, JS_mbind, js_bind, get_state, lift, set_expenses.
    cbv beta iota. reflexivity. }
  intros w1. subst w1. rewrite (Hrun w).
  destruct (array_filter test (expenses (state w))) as [v|err] eqn:Hf.
  - set (w0 := with_expenses v w).
    destruct (saveToStorage_state w0) as [_ Hst].
    assert (Hv : expenses (state (snd (saveToStorage w0))) = v) by by rewrite Hst.
    assert (Hf' : array_filter test v = Normal v).
    { destruct (expenses (state w)) as [| | | |xs|]; try done. simpl in Hf.
      destruct (filter_elems test xs) as [r|] eqn:Hr; [|done].
      injection Hf as <-. simpl. by rewrite (filter_elems_twice _ _ _ Hr). }
    assert (Hw : with_expenses v (snd (saveToStorage w0)) = snd (saveToStorage w0)).
    { rewrite <- Hv at 1. apply with_expenses_same. }
    rewrite Hrun, Hv, Hf', Hw.
    split; [apply saveToStorage_state | apply saveToStorage_twice].
  - simpl. by rewrite Hrun, Hf.
Qed.

End LedgerFacts.

(** *** Property tables *)

Section PropFacts.
Context {A : Type}.
Implicit Types (ps : props A) (k : string) (a : A).

Lemma prop_get_replace ps k k' a :
  is_Some (prop_get ps k) ->
  prop_get (prop_replace k a ps) k'
  = if String.eqb k k' then Some a else prop_get ps k'.
Proof.
  induction ps as [|[k0 a0] ps IH]; simpl; [by intros [? [=]]|].
  destruct (String.eqb_spec k0 k) as [->|Hne]; simpl.
  - intros _. by destruct (String.eqb k k').
  - intros Hs. rewrite (IH Hs).
    destruct (String.eqb_spec k0 k') as [->|Hne'];
      destruct (String.eqb_spec k k') as [->|Hne'']; done.
Qed.

Lemma prop_get_insert_index ps n k k' a :
  prop_get ps k = None ->
  prop_get (insert_index n k a ps) k'
  = if String.eqb k k' then Some a else prop_get ps k'.
Proof.
  induction ps as [|[k0 a0] ps IH]; simpl; [done|].
  destruct (String.eqb_spec k0 k) as [->|Hne]; [done|].
  intros Hnone. specialize (IH Hnone).
  destruct (array_index k0) as [n'|]; [destruct (n' <? n)%N|]; simpl; try done.
  rewrite IH.
  destruct (String.eqb_spec k0 k') as [->|Hne'];
    destruct (String.eqb_spec k k') as [->|Hne'']; done.
Qed.

Lemma prop_get_snoc ps k k' a :
  prop_get ps k = None ->
  prop_get (ps ++ [(k, a)]) k'
  = if String.eqb k k' then Some a else prop_get ps k'.
Proof.
  induction ps as [|[k0 a0] ps IH]; simpl; [done|].
  destruct (String.eqb_spec k0 k) as [->|Hne]; [done|].
  intros Hnone. rewrite (IH Hnone).
  destruct (String.eqb_spec k0 k') as [->|Hne'];
    destruct (String.eqb_spec k k') as [->|Hne'']; done.
Qed.

(** Reading after [obj[k] = a]. *)
Lemma prop_get_set ps k k' a :
  prop_get (prop_set ps k a) k'
  = if String.eqb k k' then Some a else prop_get ps k'.
Proof.
  unfold prop_set. destruct (prop_get ps k) as [a0|] eqn:Hget.
  - apply prop_get_replace. by rewrite Hget.
  - destruct (array_index k); [by apply prop_get_insert_index | by apply prop_get_snoc].
Qed.

End PropFacts.

Section StatsFacts.
Context {num : Type} `{Number num}.
Implicit Types (l : list (Expense num)) (e : Expense num)
  (stats : props (CategoryStat num)).

(** Totals stay numbers when numbers are added. *)
Lemma numeric_totals_set stats k n (t : num) :
  numeric_totals stats -> numeric_totals (prop_set stats k (mkStat n (VNum t))).
Proof.
  intros Hnum k' s. rewrite prop_get_set.
  destruct (String.eqb k k'); [intros [= <-]; by eexists | apply Hnum].
Qed.

Lemma to_string_category e :
  to_string_opt (Some (VStr (category e))) = Normal (category e).
Proof. reflexivity. Qed.

(** One round on a typed entry: the entry of its category is bumped, unless
    the category names an inherited property and has no entry, in which
    case nothing is recorded. *)
Lemma stats_step_typed stats e :
  numeric_totals stats ->
  exists stats',
    stats_step stats (expense_obj e) = Normal stats'
    /\ numeric_totals stats'
    /\ (forall c, inherited c = false ->
          prop_get stats' c
          = if String.eqb (category e) c then bump (prop_get stats c) e
            else prop_get stats c)
    /\ (forall c, inherited c = true -> prop_get stats c = None ->
          prop_get stats' c = None).
Proof.
  intros Hnum. unfold stats_step.
  rewrite get_prop_category, bind_normal, to_string_category, bind_normal.
  cbv beta zeta. rewrite get_prop_amount, bind_normal.
  unfold stats_missing.
  destruct (prop_get stats (category e)) as [s|] eqn:Hget.
  - rewrite Hget. destruct (Hnum _ _ Hget) as [t Ht].
    rewrite Ht, js_add_numbers, bind_normal.
    eexists. split; [done|]. split; [by apply numeric_totals_set|]. split.
    + intros c Hc. rewrite prop_get_set. unfold bump.
      destruct (String.eqb_spec (category e) c) as [<-|]; [|done].
      rewrite Hget. simpl. by rewrite Ht.
    + intros c Hc Hnone. rewrite prop_get_set.
      destruct (String.eqb_spec (category e) c) as [<-|]; [congruence | done].
  - destruct (inherited (category e)) eqn:Hin; simpl.
    + rewrite Hget. eexists. split; [done|]. split; [done|]. split; [|done].
      intros c Hc. destruct (String.eqb_spec (category e) c) as [<-|]; [congruence|done].
    + rewrite prop_get_set, String.eqb_refl. simpl total.
      rewrite js_add_numbers, bind_normal.
      eexists. split; [done|].
      split; [by apply numeric_totals_set, numeric_totals_set|]. split.
      * intros c Hc. rewrite !prop_get_set. unfold bump.
        by destruct (String.eqb_spec (category e) c) as [<-|]; [rewrite Hget|].
      * intros c Hc Hnone. rewrite !prop_get_set.
        destruct (String.eqb_spec (category e) c) as [<-|]; [congruence | done].
Qed.

Lemma stats_fold_typed l : forall stats,
  numeric_totals stats ->
  exists stats',
    reduce_elems stats_step stats (map expense_obj l) = Normal stats'
    /\ (forall c, inherited c = false ->
          prop_get stats' c = fold_left bump (with_category c l) (prop_get stats c))
    /\ (forall c, inherited c = true -> prop_get stats c = None ->
          prop_get stats' c = None).
Proof.
  induction l as [|e l IH]; intros stats Hnum; [by exists stats|].
  destruct (stats_step_typed stats e Hnum) as (stats1 & Hstep & Hnum1 & Hown & Hinh).
  destruct (IH stats1 Hnum1) as (stats' & Hrun & Hown' & Hinh').
  exists stats'. split; [|split].
  - change (map expense_obj (e :: l)) with (expense_obj e :: map expense_obj l).
    by rewrite reduce_elems_cons, Hstep, bind_normal.
  - intros c Hc. rewrite (Hown' c Hc), (Hown c Hc). unfold with_category. simpl.
    by destruct (String.eqb (category e) c).
  - intros c Hc Hnone. apply (Hinh' c Hc), (Hinh c Hc Hnone).
Qed.

Lemma numeric_totals_nil : numeric_totals (num := num) [].
Proof. by intros k s. Qed.

Lemma fold_bump l : forall n (a : num),
  fold_left bump l (Some (mkStat n (VNum a)))
  = Some (mkStat (n + length l) (VNum (fold_left num_add (map amount l) a))).
Proof.
  induction l as [|e l IH]; intros n a; simpl.
  - by rewrite Nat.add_0_r.
  - unfold bump at 2. simpl. rewrite IH. do 2 f_equal. lia.
Qed.

Lemma fold_bump_none l :
  l <> [] ->
  fold_left bump l None
  = Some (mkStat (length l) (VNum (sum_amounts l))).
Proof.
  destruct l as [|e l]; [done|]. intros _.
  change (fold_left bump (e :: l) None)
    with (fold_left bump (e :: l) (Some (mkStat 0 (VNum num_zero)))).
  by rewrite fold_bump.
Qed.

End StatsFacts.

(** *** Drawing and the form handlers *)

Section HandlerFacts.
Context {num : Type} `{Number num}.
Implicit Types (w : World num) (l : list (Expense num)) (e : Expense num).

(** An expense object is drawn without an error, and so is a ledger of them. *)
Lemma createExpenseHTML_typed e : createExpenseHTML (expense_obj e) = Normal tt.
Proof. reflexivity. Qed.

Lemma renderExpenses_typed (this : State num) l :
  getFilteredExpenses this = Normal (ledger l) -> renderExpenses this = Normal tt.
Proof.
  intros Hv. unfold renderExpenses. rewrite Hv, bind_normal. clear Hv.
  destruct l as [|e l]; [done|]. simpl.
  induction l as [|e' l IH]; [done|]. exact IH.
Qed.

Lemma renderUI_typed (this : State num) l :
  getFilteredExpenses this = Normal (ledger l) -> renderUI this = Normal tt.
Proof.
  intros Hv. unfold renderUI, updateTotal.
  rewrite (renderExpenses_typed this l Hv), (getTotal_of_visible this l Hv), Hv.
  reflexivity.
Qed.

Lemma renderUI_ledger l (f : string) : renderUI (mkState (ledger l) f) = Normal tt.
Proof.
  destruct (String.eqb_spec f "All") as [->|Hf].
  - apply (renderUI_typed _ l), getFilteredExpenses_all.
  - by apply (renderUI_typed _ (with_category f l)), getFilteredExpenses_category.
Qed.

(** A form that passes goes on to addExpense, draws, and clears its fields. *)
Lemma handleAddExpense_valid (parseFloat : string -> num) (now : num)
    (random36 iso : string) (el : Elements) w :
  is_empty (amountInput el) || num_le (parseFloat (amountInput el)) num_zero = false ->
  is_empty (categoryInput el) = false ->
  handleAddExpense parseFloat now random36 iso el w =
  match addExpense
          (expense_obj (mkExpense (generateUID now random36)
                          (parseFloat (amountInput el)) (categoryInput el) iso)) w with
  | (Normal _, w') =>
      match renderUI (state w') with
      | Normal _ =>
          (Normal (mkElements "" "" (hide (amountError el)) (hide (categoryError el))), w')
      | Throw err => (Throw err, w')
      end
  | (Throw err, w') => (Throw err, w')
  end.
Proof.
  intros Ha Hc. unfold handleAddExpense, validateForm. cbv zeta.
  rewrite Ha, Hc. simpl.
  unfold mbind, JS_mbind, js_bind.
  destruct (addExpense _ w) as [[[]|err] w1]; [|done].
  unfold get_state, lift. by destruct (renderUI (state w1)).
Qed.

(** The expense is in the entries as soon as addExpense has run, whatever
    drawing does afterwards. *)
Lemma handleAddExpense_entries (parseFloat : string -> num) (now : num)
    (random36 iso : string) (el : Elements) (xs : list (value num)) w :
  expenses (state w) = VArr xs ->
  is_empty (amountInput el) || num_le (parseFloat (amountInput el)) num_zero = false ->
  is_empty (categoryInput el) = false ->
  expenses (state (snd (handleAddExpense parseFloat now random36 iso el w)))
  = VArr (xs ++ [expense_obj (mkExpense (generateUID now random36)
                                (parseFloat (amountInput el)) (categoryInput el) iso)]).
Proof.
  intros Hw Ha Hc. rewrite handleAddExpense_valid by done.
  rewrite (addExpense_array _ xs w Hw).
  set (w0 := with_expenses _ w).
  destruct (saveToStorage_state w0) as [Hok Hst].
  destruct (saveToStorage w0) as [c w1]. simpl in Hok, Hst. subst c.
  by destruct (renderUI (state w1)); simpl; rewrite Hst.
Qed.

End HandlerFacts.

(** * Properties of the specification *)

Section Claims.
Context {num : Type} `{NumberText num}.
Implicit Types (w : World num) (l : list (Expense num)) (e : Expense num).

(** C1 (as amended).  Replaying any sequence of addExpense / removeExpense
    calls on an empty ledger completes normally and leaves exactly the added
    expenses that no later call removed, in the order they were added,
    whatever their ids; their ids are pairwise distinct provided the ids
    handed to addExpense were. *)
Theorem replay_keeps_the_surviving_adds (ops : list (op num)) w :
  expenses (state w) = VArr [] ->
  fst (replay ops w) = Normal tt
  /\ expenses (state (snd (replay ops w))) = ledger (survivors ops)
  /\ (NoDup (ids (added ops)) -> NoDup (ids (survivors ops))).
Proof.
  intros Hw.
  destruct (replay_apply_ops ops [] w Hw) as [Hc Hs].
  rewrite apply_ops_survivors in Hs. split; [done|]. split; [done|].
  intros Hids. eapply sublist_NoDup; [exact Hids | apply survivors_sublist].
Qed.

(** C2 (as amended).  The state object's addExpense checks nothing: every
    value handed to it is appended to the entries and the call completes
    normally.  The checks sit in the caller.  When the amount field is empty
    or its parsed amount is <= 0, or the category field is empty,
    handleAddExpense returns without calling addExpense: the globals are
    untouched, the fields keep their text, the amount's error box shows
    "Please enter a positive amount" exactly when the amount is at fault and
    the category's error box shows "Please select a category" exactly when
    the category is.  Otherwise the form passes, whatever the text of the
    category, and the expense built from the two fields is appended to the
    entries. *)
Theorem validation_is_left_to_the_form
    (parseFloat : string -> num) (now : num) (random36 iso : string)
    (el : Elements) (x : value num) (xs : list (value num)) w :
  expenses (state w) = VArr xs ->
  (fst (addExpense x w) = Normal tt
   /\ expenses (state (snd (addExpense x w))) = VArr (xs ++ [x]))
  /\ (is_empty (amountInput el) || num_le (parseFloat (amountInput el)) num_zero
        || is_empty (categoryInput el) = true ->
      handleAddExpense parseFloat now random36 iso el w
      = (Normal
           (mkElements (amountInput el) (categoryInput el)
              (if is_empty (amountInput el)
                  || num_le (parseFloat (amountInput el)) num_zero
               then showError "Please enter a positive amount"
               else hide (amountError el))
              (if is_empty (categoryInput el)
               then showError "Please select a category"
               else hide (categoryError el))),
         w))
  /\ (is_empty (amountInput el) || num_le (parseFloat (amountInput el)) num_zero
        = false ->
      is_empty (categoryInput el) = false ->
      snd (validateForm parseFloat el) = true
      /\ expenses (state (snd (handleAddExpense parseFloat now random36 iso el w)))
         = VArr (xs ++ [expense_obj
                          (mkExpense (generateUID now random36)
                             (parseFloat (amountInput el)) (categoryInput el) iso)])).
Proof.
  intros Hw. split; [|split].
  - rewrite (addExpense_array x xs w Hw).
    by destruct (saveToStorage_state (with_expenses (VArr (xs ++ [x])) w)) as [-> ->].
  - intros Hbad. unfold handleAddExpense, validateForm. cbv zeta.
    destruct (is_empty (amountInput el) || num_le (parseFloat (amountInput el)) num_zero)
      eqn:Hamount; simpl; [done|].
    simpl in Hbad. by rewrite Hbad.
  - intros Hamount Hcategory. split.
    + unfold validateForm. simpl. by rewrite Hamount, Hcategory.
    + by apply handleAddExpense_entries.
Qed.

(** C3.  On a ledger of expense objects, getTotal under the filter "All" is
    the sum of the amounts of all entries, under a category filter it is the
    sum over the entries of that category, and on the empty ledger it is 0. *)
Theorem getTotal_is_the_sum_of_the_visible_amounts l (f : string) :
  f <> "All" ->
  getTotal (mkState (ledger l) "All") = Normal (VNum (sum_amounts l))
  /\ getTotal (mkState (ledger l) f) = Normal (VNum (sum_amounts (with_category f l)))
  /\ getTotal (mkState (ledger []) "All") = Normal (VNum num_zero)
  /\ getTotal (mkState (ledger []) f) = Normal (VNum num_zero).
Proof.
  intros Hf. split; [|split; [|split]].
  - apply getTotal_of_visible, getFilteredExpenses_all.
  - by apply getTotal_of_visible, getFilteredExpenses_category.
  - reflexivity.
  - by rewrite (getTotal_of_visible _ []) by by apply (getFilteredExpenses_category []).
Qed.

(** Category statistics on a ledger of expense objects: every category
    that occurs and is not the name of an inherited property has its count
    and its total, whatever the filter. *)
Lemma getCategoryStats_typed l (f : string) :
  exists stats,
    getCategoryStats (mkState (ledger l) f) = Normal stats
    /\ (forall c, inherited c = false -> with_category c l <> [] ->
          prop_get stats c
          = Some (mkStat (length (with_category c l))
                         (VNum (sum_amounts (with_category c l)))))
    /\ (forall c, inherited c = false -> with_category c l = [] ->
          prop_get stats c = None)
    /\ (forall c, inherited c = true -> prop_get stats c = None).
Proof.
  destruct (stats_fold_typed l [] numeric_totals_nil) as (stats & Hrun & Hown & Hinh).
  exists stats. split; [exact Hrun|]. split; [|split].
  - intros c Hc Hne. rewrite (Hown c Hc). by apply fold_bump_none.
  - intros c Hc He. by rewrite (Hown c Hc), He.
  - intros c Hc. by apply Hinh.
Qed.

(** C5.  On a ledger of expense objects removeExpense completes normally;
    a second call with the same id changes neither the state object nor the
    store; and an id that no entry carries leaves the entries as they were. *)
Theorem removeExpense_is_idempotent (i : string) l w :
  expenses (state w) = ledger l ->
  fst (removeExpense i w) = Normal tt
  /\ state (snd (removeExpense i (snd (removeExpense i w))))
     = state (snd (removeExpense i w))
  /\ localStorage (snd (removeExpense i (snd (removeExpense i w))))
     = localStorage (snd (removeExpense i w))
  /\ (i ∉ ids l -> expenses (state (snd (removeExpense i w))) = ledger l).
Proof.
  intros Hw. destruct (removeExpense_twice i w) as [Hst Hls].
  split; [|split; [exact Hst | split; [exact Hls|]]].
  - rewrite (removeExpense_ledger i l w Hw). apply saveToStorage_state.
  - intros Habsent. rewrite (removeExpense_ledger i l w Hw).
    destruct (saveToStorage_state (with_expenses (ledger (without_id i l)) w)) as [_ ->].
    simpl. f_equal. clear Hw Hst Hls.
    induction l as [|e l IH]; [done|]. unfold ids in Habsent. simpl in *.
    apply not_elem_of_cons in Habsent as [Hne Habsent].
    apply not_eq_sym, String.eqb_neq in Hne. rewrite Hne. simpl. f_equal. by apply IH.
Qed.

Lemma expense_obj_serializable e :
  num_is_finite (amount e) = true -> serializable (expense_obj e).
Proof.
  intros Hfin. simpl. split; [|done]. split.
  - apply (bool_decide_unpack _). by vm_compute.
  - repeat constructor.
Qed.

Lemma ledger_serializable l :
  Forall (fun e => num_is_finite (amount e) = true) l -> serializable (ledger l).
Proof.
  intros Hall. unfold ledger. simpl. apply serializable_elems.
  apply Forall_forall. intros x Hx. apply list_elem_of_fmap in Hx as (e & -> & He).
  apply expense_obj_serializable. by apply (proj1 (Forall_forall _ _) Hall).
Qed.

(** C6.  A ledger of expense objects with finite amounts that saveToStorage
    manages to write is what loadFromStorage reads back from the store it
    was written to, whatever the page that reads holds in its own entries
    (a page opened anew, or the page that saved): same entries, same order,
    same fields. *)
Theorem load_after_save l w (w' : World num) :
  Forall (fun e => num_is_finite (amount e) = true) l ->
  expenses (state w) = ledger l ->
  accessible (localStorage w) = true ->
  storage_size (<["expenses" := JSON_stringify (ledger l)]> (items (localStorage w)))
    <= quota (localStorage w) ->
  localStorage w' = localStorage (snd (saveToStorage w)) ->
  loadFromStorage w' = (Normal (ledger l), w').
Proof.
  intros Hfin Hw Hacc Hroom Hstore.
  rewrite saveToStorage_written in Hstore by by rewrite ?Hw.
  simpl in Hstore.
  apply (loadFromStorage_parsed _ (JSON_stringify (ledger l))).
  - by rewrite Hstore.
  - rewrite Hstore. simpl. rewrite Hw. apply lookup_insert_eq.
  - by apply parse_stringify, ledger_serializable.
Qed.

(** C7 (as amended).  setFilter accepts every string: it replaces
    currentFilter by it and touches nothing else, the store included. *)
Theorem setFilter_takes_any_value (v : string) w :
  setFilter v w
  = (Normal tt, mkWorld (mkState (expenses (state w)) v) (localStorage w) (console w)).
Proof. reflexivity. Qed.

(** C8.  On a slot never written loadFromStorage returns the empty array
    without an error; on a slot whose text does not parse, init completes
    normally with the entries set to the empty array, as in the empty case. *)
Theorem load_of_nothing_or_garbage w (text : string) :
  accessible (localStorage w) = true ->
  (items (localStorage w) !! "expenses" = None ->
     loadFromStorage w = (Normal (VArr []), w)
     /\ init w = (Normal tt, with_expenses (VArr []) w))
  /\ (items (localStorage w) !! "expenses" = Some text ->
      JSON_parse (num := num) text = None ->
      fst (init w) = Normal tt
      /\ state (snd (init w)) = state (with_expenses (VArr []) w)
      /\ localStorage (snd (init w)) = localStorage w).
Proof.
  intros Hacc. split.
  - intros Hnone. rewrite init_load, loadFromStorage_absent by done. done.
  - intros Hsome Hbad. rewrite init_load.
    destruct (loadFromStorage_corrupt w text Hacc Hsome Hbad) as (Hc & Hst & Hls & _).
    destruct (loadFromStorage w) as [c w1]. simpl in *. subst c.
    unfold with_expenses. simpl. by rewrite Hst, Hls.
Qed.

Lemma setItem_with_expenses (k t : string) (v : value num) w :
  fst (setItem k t (with_expenses v w)) = fst (setItem k t w).
Proof.
  unfold setItem, with_expenses. simpl.
  destruct (accessible (localStorage w)); [|done]. by destruct (_ <=? _).
Qed.

(** C9.  When the store refuses the write, addExpense still completes
    normally, the new entry is in the entries, the queries see it, and the
    store is as before. *)
Theorem addExpense_survives_a_refused_write e l w (err : exn) :
  expenses (state w) = ledger l ->
  fst (setItem "expenses" (JSON_stringify (ledger (l ++ [e]))) w) = Throw err ->
  fst (addExpense (expense_obj e) w) = Normal tt
  /\ state (snd (addExpense (expense_obj e) w))
     = mkState (ledger (l ++ [e])) (currentFilter (state w))
  /\ getFilteredExpenses (mkState (ledger (l ++ [e])) "All") = Normal (ledger (l ++ [e]))
  /\ getTotal (mkState (ledger (l ++ [e])) "All") = Normal (VNum (sum_amounts (l ++ [e])))
  /\ localStorage (snd (addExpense (expense_obj e) w)) = localStorage w.
Proof.
  intros Hw Hfail.
  rewrite (addExpense_array _ (map expense_obj l) w Hw), <- ledger_app.
  rewrite (saveToStorage_refused _ err) by by rewrite setItem_with_expenses.
  split; [done|]. split; [done|]. split; [done|]. split; [|done].
  apply getTotal_of_visible, getFilteredExpenses_all.
Qed.

(** C10.  init validates nothing: when the stored text parses as an array,
    the entries become that array as it is; in particular a stored ledger of
    expense objects comes back whole, whatever the sign of its amounts, its
    categories and its ids. *)
Theorem init_takes_the_stored_array_as_it_is w (text : string)
    (xs : list (value num)) l :
  accessible (localStorage w) = true ->
  (items (localStorage w) !! "expenses" = Some text ->
     JSON_parse text = Some (VArr xs) ->
     init w = (Normal tt, with_expenses (VArr xs) w))
  /\ (items (localStorage w) !! "expenses" = Some (JSON_stringify (ledger l)) ->
      Forall (fun e => num_is_finite (amount e) = true) l ->
      init w = (Normal tt, with_expenses (ledger l) w)).
Proof.
  intros Hacc. split.
  - intros Hsome Hparse. by rewrite init_load, (loadFromStorage_parsed w text (VArr xs)).
  - intros Hsome Hfin.
    rewrite init_load,
      (loadFromStorage_parsed w (JSON_stringify (ledger l)) (ledger l)); [done..|].
    by apply parse_stringify, ledger_serializable.
Qed.

End Claims.

Lemma replay_keeps_the_surviving_adds_witness :
  expenses (state fresh_world) = VArr []
  /\ NoDup (ids (added [Add lunch; Add taxi; Remove (id lunch)]))
  /\ fst (replay [Add lunch; Add taxi; Remove (id lunch)] fresh_world) = Normal tt
  /\ expenses (state (snd (replay [Add lunch; Add taxi; Remove (id lunch)] fresh_world)))
     = ledger (survivors [Add lunch; Add taxi; Remove (id lunch)])
  /\ NoDup (ids (survivors [Add lunch; Add taxi; Remove (id lunch)])).
Proof.
  assert (Hids : NoDup (ids (added [Add lunch; Add taxi; Remove (id lunch)])))
    by (vm_compute; apply NoDup_ListNoDup; repeat constructor; simpl; intuition discriminate).
  destruct (replay_keeps_the_surviving_adds [Add lunch; Add taxi; Remove (id lunch)]
              fresh_world eq_refl) as (Hc & Hs & Hnd).
  split; [reflexivity|]. split; [exact Hids|].
  split; [exact Hc|]. split; [exact Hs|]. exact (Hnd Hids).
Defined.

(** The entries and their order do not depend on the ids: two adds carrying
    one id and no removal leave both entries, in the order of the calls. *)
Lemma replay_keeps_entries_with_one_id :
  expenses (state (snd (replay [Add lunch; Add taxi; Add lunch] fresh_world)))
  = ledger (survivors [Add lunch; Add taxi; Add lunch])
  /\ survivors [Add lunch; Add taxi; Add lunch] = [lunch; taxi; lunch].
Proof. split; by vm_compute. Qed.

(** C1, the claim as stated, fails: the state object takes the id from its
    caller, and two adds carrying one id leave two entries with that id. *)
Lemma replay_duplicate_ids :
  expenses (state fresh_world) = VArr []
  /\ fst (replay [Add lunch; Add lunch] fresh_world) = Normal tt
  /\ expenses (state (snd (replay [Add lunch; Add lunch] fresh_world)))
     = ledger [lunch; lunch]
  /\ ~ NoDup (ids [lunch; lunch]).
Proof.
  split; [reflexivity|]. split; [by vm_compute|]. split; [by vm_compute|].
  intros Hnd. apply NoDup_cons in Hnd as [Hin _]. apply Hin. left.
Qed.

(** The same through the form: two submissions at one reading of the clock
    and one random draw get one id from generateUID. *)
Lemma same_instant_twice_ids :
  expenses (state (snd same_instant_twice))
  = ledger [ mkExpense "1700000000000-k3j9x2m1p" (IFin 50) "Food"
               "2023-11-14T22:13:20.000Z";
             mkExpense "1700000000000-k3j9x2m1p" (IFin 30) "Travel"
               "2023-11-14T22:13:20.000Z" ].
Proof. by vm_compute. Qed.

(** C2, the claim as stated, fails: addExpense takes a negative amount and
    an unknown category, completes normally and grows the entries. *)
Lemma addExpense_takes_an_invalid_expense :
  num_le (amount refund) num_zero = true
  /\ recognized (category refund) = false
  /\ fst (addExpense (expense_obj refund) fresh_world) = Normal tt
  /\ expenses (state (snd (addExpense (expense_obj refund) fresh_world)))
     = ledger [refund]
  /\ expenses (state fresh_world) = ledger [].
Proof. repeat split; by vm_compute. Qed.

(** A negative amount with a category chosen is turned away with the
    amount's message alone; a positive amount with a category outside the
    recognized set passes, and the expense reaches the entries. *)
Lemma validation_is_left_to_the_form_witness :
  expenses (state fresh_world) = VArr []
  /\ (fst (addExpense (expense_obj refund) fresh_world) = Normal tt
      /\ expenses (state (snd (addExpense (expense_obj refund) fresh_world)))
         = VArr ([] ++ [expense_obj refund]))
  /\ handleAddExpense parse_int (IFin 1700000120000) "0.zz0q1w2e3r"
       "2023-11-14T22:15:20.000Z" (blank_form "-5" "Food") fresh_world
     = (Normal (mkElements "-5" "Food"
                  (mkErrorBox "Please enter a positive amount" true)
                  (mkErrorBox "" false)),
        fresh_world)
  /\ recognized "Gambling" = false
  /\ snd (validateForm parse_int (blank_form "50" "Gambling")) = true
  /\ expenses (state (snd (handleAddExpense parse_int (IFin 1700000120000) "0.zz0q1w2e3r"
                             "2023-11-14T22:15:20.000Z" (blank_form "50" "Gambling")
                             fresh_world)))
     = VArr [expense_obj (mkExpense "1700000120000-zz0q1w2e3" (IFin 50) "Gambling"
                            "2023-11-14T22:15:20.000Z")].
Proof.
  split; [reflexivity|].
  destruct (validation_is_left_to_the_form parse_int (IFin 1700000120000)
              "0.zz0q1w2e3r" "2023-11-14T22:15:20.000Z" (blank_form "-5" "Food")
              (expense_obj refund) [] fresh_world eq_refl) as (Hadd & Hbad & _).
  destruct (validation_is_left_to_the_form parse_int (IFin 1700000120000)
              "0.zz0q1w2e3r" "2023-11-14T22:15:20.000Z" (blank_form "50" "Gambling")
              (expense_obj refund) [] fresh_world eq_refl) as (_ & _ & Hgood).
  split; [exact Hadd|]. split; [exact (Hbad eq_refl)|]. split; [reflexivity|].
  exact (Hgood eq_refl eq_refl).
Defined.

Lemma getTotal_is_the_sum_of_the_visible_amounts_witness :
  "Food" <> "All"
  /\ getTotal (mkState (ledger [lunch; taxi]) "All")
     = Normal (VNum (sum_amounts [lunch; taxi]))
  /\ getTotal (mkState (ledger [lunch; taxi]) "Food")
     = Normal (VNum (sum_amounts (with_category "Food" [lunch; taxi])))
  /\ getTotal (mkState (ledger []) "All") = Normal (VNum (num_zero (num := intnum)))
  /\ getTotal (mkState (ledger []) "Food") = Normal (VNum (num_zero (num := intnum))).
Proof.
  assert (Hf : "Food" <> "All") by discriminate.
  split; [exact Hf|].
  exact (getTotal_is_the_sum_of_the_visible_amounts [lunch; taxi] "Food" Hf).
Defined.

(** The scenario of the specification: 50 under "Food", 80 under "All". *)
Lemma getTotal_scenario :
  getTotal (mkState (ledger [lunch; taxi]) "Food") = Normal (VNum (IFin 50))
  /\ getTotal (mkState (ledger [lunch; taxi]) "All") = Normal (VNum (IFin 80)).
Proof. split; reflexivity. Qed.

(** C4, at the failing input: a category named like a property that every
    object inherits gets no entry in the statistics, although an entry of
    the ledger carries it. *)
Theorem getCategoryStats_skips_inherited_names :
  getCategoryStats (mkState (ledger [lunch; odd]) "All")
  = Normal [("Food", mkStat 1 (VNum (IFin 50)))]
  /\ with_category "constructor" [lunch; odd] = [odd].
Proof. split; reflexivity. Qed.

(** The scenario of the specification holds, whatever the filter. *)
Lemma getCategoryStats_scenario (f : string) :
  getCategoryStats (mkState (ledger scenario) f)
  = Normal [("Food", mkStat 2 (VNum (IFin 30))); ("Travel", mkStat 1 (VNum (IFin 5)))].
Proof. reflexivity. Qed.

Lemma removeExpense_is_idempotent_witness :
  expenses (state two_entries) = ledger [lunch; taxi]
  /\ ("no-such-id" ∉ ids [lunch; taxi])
  /\ fst (removeExpense "no-such-id" two_entries) = Normal tt
  /\ state (snd (removeExpense "no-such-id" (snd (removeExpense "no-such-id" two_entries))))
     = state (snd (removeExpense "no-such-id" two_entries))
  /\ localStorage (snd (removeExpense "no-such-id" (snd (removeExpense "no-such-id" two_entries))))
     = localStorage (snd (removeExpense "no-such-id" two_entries))
  /\ expenses (state (snd (removeExpense "no-such-id" two_entries))) = ledger [lunch; taxi].
Proof.
  assert (Habsent : "no-such-id" ∉ ids [lunch; taxi]).
  { vm_compute. intros Hin. repeat (apply elem_of_cons in Hin as [Hin|Hin]; [discriminate|]).
    by apply elem_of_nil in Hin. }
  destruct (removeExpense_is_idempotent "no-such-id" [lunch; taxi] two_entries eq_refl)
    as (Hc & Hst & Hls & Hkeep).
  split; [reflexivity|]. split; [exact Habsent|].
  split; [exact Hc|]. split; [exact Hst|]. split; [exact Hls|]. exact (Hkeep Habsent).
Defined.

Lemma load_after_save_witness :
  Forall (fun e => num_is_finite (amount e) = true) [lunch; taxi]
  /\ expenses (state two_entries) = ledger [lunch; taxi]
  /\ accessible (localStorage two_entries) = true
  /\ storage_size (<["expenses" := JSON_stringify (ledger [lunch; taxi])]>
                     (items (localStorage two_entries)))
     <= quota (localStorage two_entries)
  /\ localStorage reopened_world = localStorage (snd (saveToStorage two_entries))
  /\ expenses (state reopened_world) = VArr []
  /\ loadFromStorage reopened_world = (Normal (ledger [lunch; taxi]), reopened_world).
Proof.
  assert (Hfin : Forall (fun e => num_is_finite (amount e) = true) [lunch; taxi])
    by (repeat constructor).
  assert (Hroom : storage_size (<["expenses" := JSON_stringify (ledger [lunch; taxi])]>
                                  (items (localStorage two_entries)))
                  <= quota (localStorage two_entries))
    by (apply Nat.leb_le; vm_compute; reflexivity).
  split; [exact Hfin|]. split; [reflexivity|]. split; [reflexivity|].
  split; [exact Hroom|]. split; [reflexivity|]. split; [reflexivity|].
  exact (load_after_save [lunch; taxi] two_entries reopened_world
           Hfin eq_refl eq_refl Hroom eq_refl).
Defined.

(** C7, the claim as stated, fails: a value that is neither "All" nor a
    recognized category is accepted and becomes the filter. *)
Lemma setFilter_takes_an_unknown_value :
  "Bogus" <> "All"
  /\ recognized "Bogus" = false
  /\ fst (setFilter "Bogus" fresh_world) = Normal tt
  /\ currentFilter (state (snd (setFilter "Bogus" fresh_world))) = "Bogus"
  /\ currentFilter (state fresh_world) = "All".
Proof. repeat split; (discriminate || reflexivity). Qed.

Lemma load_of_nothing_or_garbage_witness :
  (accessible (localStorage fresh_world) = true
   /\ items (localStorage fresh_world) !! "expenses" = None
   /\ loadFromStorage fresh_world = (Normal (VArr []), fresh_world)
   /\ init fresh_world = (Normal tt, with_expenses (VArr []) fresh_world))
  /\ (accessible (localStorage corrupt_world) = true
      /\ items (localStorage corrupt_world) !! "expenses" = Some "[{oops"
      /\ JSON_parse (num := intnum) "[{oops" = None
      /\ fst (init corrupt_world) = Normal tt
      /\ state (snd (init corrupt_world)) = state (with_expenses (VArr []) corrupt_world)
      /\ localStorage (snd (init corrupt_world)) = localStorage corrupt_world).
Proof.
  split.
  - split; [reflexivity|]. split; [reflexivity|].
    exact (proj1 (load_of_nothing_or_garbage fresh_world "" eq_refl) eq_refl).
  - split; [reflexivity|]. split; [reflexivity|]. split; [reflexivity|].
    exact (proj2 (load_of_nothing_or_garbage corrupt_world "[{oops" eq_refl)
                 eq_refl eq_refl).
Defined.

(** An escape of four hexadecimal digits is read whatever the code unit it
    names; stored text that uses one loads as any other. *)
Lemma unicode_escape_defined h1 h2 h3 h4 :
  unicode_escape h1 h2 h3 h4 = None
  <-> hex_value h1 = None \/ hex_value h2 = None \/ hex_value h3 = None
      \/ hex_value h4 = None.
Proof.
  unfold unicode_escape.
  destruct (hex_value h1), (hex_value h2), (hex_value h3), (hex_value h4);
    simpl; split; try done; try tauto; intros [|[|[|]]]; done.
Qed.

Lemma init_reads_escapes :
  rupee = String "226" (String "130" (String "185" ""))
  /\ JSON_parse (num := intnum) (String dquote ("\u20b9" +:+ String dquote ""))
     = Some (VStr rupee)
  /\ init escaped_world = (Normal tt, with_expenses (VArr [VStr rupee]) escaped_world).
Proof. repeat split; by vm_compute. Qed.

(** A surrogate on its own is written as its escape, a pair as it is; both
    read back. *)
Lemma stringify_surrogates :
  JSON_stringify (num := intnum) (VStr leading_half)
  = String dquote ("\ud83d" +:+ String dquote "")
  /\ JSON_stringify (num := intnum) (VStr (leading_half +:+ trailing_half))
     = String dquote (leading_half +:+ trailing_half +:+ String dquote "")
  /\ JSON_parse (num := intnum) (String dquote ("\ud83d\ude00" +:+ String dquote ""))
     = Some (VStr (leading_half +:+ trailing_half))
  /\ JSON_parse (num := intnum) (JSON_stringify (num := intnum) (VStr trailing_half))
     = Some (VStr trailing_half).
Proof. repeat split; by vm_compute. Qed.

Lemma addExpense_survives_a_refused_write_witness :
  expenses (state full_world) = ledger []
  /\ fst (setItem "expenses" (JSON_stringify (ledger ([] ++ [lunch]))) full_world)
     = Throw QuotaExceededError
  /\ fst (addExpense (expense_obj lunch) full_world) = Normal tt
  /\ state (snd (addExpense (expense_obj lunch) full_world))
     = mkState (ledger ([] ++ [lunch])) (currentFilter (state full_world))
  /\ getFilteredExpenses (mkState (ledger ([] ++ [lunch])) "All")
     = Normal (ledger ([] ++ [lunch]))
  /\ getTotal (mkState (ledger ([] ++ [lunch])) "All")
     = Normal (VNum (sum_amounts ([] ++ [lunch])))
  /\ localStorage (snd (addExpense (expense_obj lunch) full_world))
     = localStorage full_world.
Proof.
  assert (Hfail : fst (setItem "expenses" (JSON_stringify (ledger ([] ++ [lunch])))
                         full_world) = Throw QuotaExceededError) by (by vm_compute).
  split; [reflexivity|]. split; [exact Hfail|].
  exact (addExpense_survives_a_refused_write lunch [] full_world QuotaExceededError
           eq_refl Hfail).
Defined.

Lemma init_takes_the_stored_array_as_it_is_witness :
  accessible (localStorage tampered_world) = true
  /\ items (localStorage tampered_world) !! "expenses"
     = Some (JSON_stringify (ledger [refund; refund]))
  /\ JSON_parse (JSON_stringify (ledger [refund; refund]))
     = Some (VArr (map expense_obj [refund; refund]))
  /\ Forall (fun e => num_is_finite (amount e) = true) [refund; refund]
  /\ init tampered_world
     = (Normal tt, with_expenses (VArr (map expense_obj [refund; refund])) tampered_world)
  /\ init tampered_world
     = (Normal tt, with_expenses (ledger [refund; refund]) tampered_world).
Proof.
  assert (Hslot : items (localStorage tampered_world) !! "expenses"
                  = Some (JSON_stringify (ledger [refund; refund]))) by (by vm_compute).
  assert (Hparse : JSON_parse (JSON_stringify (ledger [refund; refund]))
                   = Some (VArr (map expense_obj [refund; refund]))) by (by vm_compute).
  assert (Hfin : Forall (fun e => num_is_finite (amount e) = true) [refund; refund])
    by (repeat constructor).
  destruct (init_takes_the_stored_array_as_it_is tampered_world
              (JSON_stringify (ledger [refund; refund]))
              (map expense_obj [refund; refund]) [refund; refund] eq_refl)
    as [Hany Htyped].
  split; [reflexivity|]. split; [exact Hslot|]. split; [exact Hparse|].
  split; [exact Hfin|]. split; [exact (Hany Hslot Hparse) | exact (Htyped Hslot Hfin)].
Defined.

(** * Further properties of the code *)

Section MoreFacts.
Context {num : Type} `{Number num}.
Implicit Types (w : World num) (l : list (Expense num)) (e : Expense num)
  (xs : list (value num)) (x : value num).

Lemma without_id_absent i l : i ∉ ids l -> without_id i l = l.
Proof.
  unfold ids, without_id. induction l as [|e l IH]; [done|]. simpl.
  intros [Hne Habs]%not_elem_of_cons.
  apply not_eq_sym, String.eqb_neq in Hne. rewrite Hne. simpl. by rewrite IH.
Qed.

Lemma without_id_app i l l' :
  without_id i (l ++ l') = without_id i l ++ without_id i l'.
Proof. apply List.filter_app. Qed.

Lemma without_id_gone i l : i ∉ ids (without_id i l).
Proof.
  unfold ids, without_id. induction l as [|e l IH]; simpl; [apply not_elem_of_nil|].
  destruct (String.eqb_spec (id e) i) as [Heq|Hne]; simpl; [done|].
  apply not_elem_of_cons. split; [by apply not_eq_sym | done].
Qed.

Lemma without_id_sublist i l : sublist (without_id i l) l.
Proof.
  unfold without_id. induction l as [|e l IH]; simpl; [constructor|].
  destruct (negb _); by constructor.
Qed.

Lemma without_id_keeps i l e : e ∈ l -> id e <> i -> e ∈ without_id i l.
Proof.
  unfold without_id. intros Hin Hne. apply list_elem_of_In, List.filter_In.
  split; [by apply list_elem_of_In|]. by apply String.eqb_neq in Hne as ->.
Qed.

(** After a mutator on a typed ledger: the outcome and the new entries. *)
Lemma addExpense_ledger e l w :
  expenses (state w) = ledger l ->
  fst (addExpense (expense_obj e) w) = Normal tt
  /\ state (snd (addExpense (expense_obj e) w))
     = mkState (ledger (l ++ [e])) (currentFilter (state w)).
Proof.
  intros Hw. rewrite (addExpense_array _ (map expense_obj l) w Hw), <- ledger_app.
  by destruct (saveToStorage_state (with_expenses (ledger (l ++ [e])) w)) as [-> ->].
Qed.

Lemma removeExpense_ledger_state i l w :
  expenses (state w) = ledger l ->
  fst (removeExpense i w) = Normal tt
  /\ state (snd (removeExpense i w))
     = mkState (ledger (without_id i l)) (currentFilter (state w)).
Proof.
  intros Hw. rewrite (removeExpense_ledger i l w Hw).
  by destruct (saveToStorage_state (with_expenses (ledger (without_id i l)) w)) as [-> ->].
Qed.

(** What a throwing callback does to [filter] and [reduce]. *)
Lemma filter_elems_null (test : value num -> completion bool) xs :
  (forall x err, test x = Throw err -> err = TypeError) ->
  test VNull = Throw TypeError ->
  VNull ∈ xs -> filter_elems test xs = Throw TypeError.
Proof.
  intros Honly Hnull. induction xs as [|x xs IH]; [by intros ?%elem_of_nil|].
  intros [<-|Hin]%elem_of_cons; simpl.
  - by rewrite Hnull.
  - destruct (test x) as [b|err] eqn:Hx; [|by rewrite (Honly x err Hx)].
    simpl. by rewrite (IH Hin).
Qed.

Lemma reduce_elems_null {A} (f : A -> value num -> completion A) xs :
  (forall acc x err, f acc x = Throw err -> err = TypeError) ->
  (forall acc, f acc VNull = Throw TypeError) ->
  VNull ∈ xs -> forall acc, reduce_elems f acc xs = Throw TypeError.
Proof.
  intros Honly Hnull. induction xs as [|x xs IH]; [by intros ?%elem_of_nil|].
  intros Hin acc. apply elem_of_cons in Hin as [<-|Hin]; simpl.
  - by rewrite Hnull.
  - destruct (f acc x) as [acc'|err] eqn:Hx; [|by rewrite (Honly acc x err Hx)].
    simpl. by apply IH.
Qed.

Lemma get_prop_throws x k err : get_prop x k = Throw err -> err = TypeError.
Proof. destruct x; simpl; congruence. Qed.

Lemma removeExpense_run i w :
  removeExpense i w =
  match array_filter
          (fun expense => o ← get_prop expense "id";
                          Normal (negb (strict_eq_string o i)))
          (expenses (state w)) with
  | Normal v => saveToStorage (with_expenses v w)
  | Throw err => (Throw err, w)
  end.
Proof.
  unfold removeExpense, mbind, JS_mbind, js_bind, get_state, lift, set_expenses.
  cbv beta iota. reflexivity.
Qed.

Lemma addExpense_run x w :
  addExpense x w =
  match array_push (expenses (state w)) x with
  | Normal v => saveToStorage (with_expenses v w)
  | Throw err => (Throw err, w)
  end.
Proof.
  unfold addExpense, mbind, JS_mbind, js_bind, get_state, lift, set_expenses.
  cbv beta iota. reflexivity.
Qed.

(** The conversions throw nothing but a TypeError. *)
Lemma to_string_throws (v : value num) err : to_string v = Throw err -> err = TypeError.
Proof.
  revert err. induction v as [| [] | n | s | l IH | ps _] using value_ind;
    intros err; simpl; try done.
  - set (join := fix join (l : list (value num)) : completion (list string) :=
                   match l with
                   | [] => Normal []
                   | x :: l' =>
                       s ← match x with VNull => Normal "" | _ => to_string x end;
                       r ← join l'; Normal (s :: r)
                   end).
    assert (Hjoin : forall err', join l = Throw err' -> err' = TypeError).
    { induction IH as [|x l Hx _ IHl]; intros err'; simpl; [done|].
      destruct (match x with VNull => Normal "" | _ => to_string x end)
        as [s|e1] eqn:Hs; simpl.
      - destruct (join l) as [r|e2]; simpl; [done|]. intros [= <-]. by apply IHl.
      - intros [= <-]. apply Hx. by destruct x. }
    destruct (join l) as [parts|e1]; simpl; [done|]. intros [= <-]. by apply Hjoin.
  - destruct (prop_get ps "toString"); congruence.
Qed.

Lemma to_string_opt_throws (o : option (value num)) err :
  to_string_opt o = Throw err -> err = TypeError.
Proof. destruct o as [v|]; simpl; [apply to_string_throws | done]. Qed.

Lemma to_primitive_throws (o : option (value num)) err :
  to_primitive o = Throw err -> err = TypeError.
Proof.
  destruct o as [[| | | |l|ps]|]; try done.
  - unfold to_primitive. destruct (to_string (VArr l)) eqn:Hs; simpl; [done|].
    intros [= <-]. by apply (to_string_throws (VArr l)).
  - unfold to_primitive. destruct (to_string (VObj ps)) eqn:Hs; simpl; [done|].
    intros [= <-]. by apply (to_string_throws (VObj ps)).
Qed.

(** ToPrimitive leaves a primitive alone and gives a primitive. *)
Lemma to_primitive_primitive (o : option (value num)) :
  primitive o = true -> to_primitive o = Normal o.
Proof. by destruct o as [[]|]. Qed.

Lemma to_primitive_result (o p : option (value num)) :
  to_primitive o = Normal p -> primitive p = true.
Proof.
  destruct o as [[| | | |l|ps]|]; try (by intros [= <-]).
  - unfold to_primitive. destruct (to_string (VArr l)); simpl; [by intros [= <-] | done].
  - unfold to_primitive. destruct (to_string (VObj ps)); simpl; [by intros [= <-] | done].
Qed.

Lemma to_string_opt_primitive (p : option (value num)) :
  primitive p = true -> exists s, to_string_opt p = Normal s.
Proof. destruct p as [[| [] | | | |]|]; simpl; try done; eauto. Qed.

(** [+] gives a number or a string, throws nothing but a TypeError, and
    throws nothing at all on primitives. *)
Lemma js_add_cases (a b : option (value num)) :
  (exists n, js_add a b = Normal (VNum n))
  \/ (exists s, js_add a b = Normal (VStr s))
  \/ js_add a b = Throw TypeError.
Proof.
  unfold js_add.
  destruct (to_primitive a) as [pa|e1] eqn:Ha;
    [|rewrite (to_primitive_throws _ _ Ha); by right; right].
  destruct (to_primitive b) as [pb|e2] eqn:Hb;
    [|rewrite (to_primitive_throws _ _ Hb); by right; right].
  simpl.
  destruct (to_string_opt_primitive pa (to_primitive_result _ _ Ha)) as [sa ->].
  destruct (to_string_opt_primitive pb (to_primitive_result _ _ Hb)) as [sb ->].
  destruct (is_string pa || is_string pb); simpl; eauto.
Qed.

Lemma js_add_throws (a b : option (value num)) err :
  js_add a b = Throw err -> err = TypeError.
Proof.
  destruct (js_add_cases a b) as [[n ->]|[[s ->]| ->]]; congruence.
Qed.

Lemma js_add_primitive (a b : option (value num)) :
  primitive a = true -> primitive b = true ->
  exists v, js_add a b = Normal v /\ primitive (Some v) = true.
Proof.
  intros Ha Hb. unfold js_add.
  rewrite (to_primitive_primitive a Ha), (to_primitive_primitive b Hb). simpl.
  destruct (to_string_opt_primitive a Ha) as [sa ->].
  destruct (to_string_opt_primitive b Hb) as [sb ->].
  destruct (is_string a || is_string b); simpl; eauto.
Qed.

Lemma stats_step_throws (stats : props (CategoryStat num)) x err :
  stats_step stats x = Throw err -> err = TypeError.
Proof.
  unfold stats_step.
  destruct (get_prop x "category") as [c|e1] eqn:Hc; simpl;
    [|intros [= <-]; by apply (get_prop_throws x "category")].
  destruct (to_string_opt c) as [k|e2] eqn:Hk; simpl;
    [|intros [= <-]; by apply (to_string_opt_throws c)].
  destruct (get_prop x "amount") as [a|e3] eqn:Ha; simpl;
    [|intros [= <-]; by apply (get_prop_throws x "amount")].
  destruct (prop_get _ k) as [s|].
  - destruct (js_add (Some (total s)) a) as [t|e4] eqn:Hadd; simpl; [done|].
    intros [= <-]. by apply (js_add_throws _ _ _ Hadd).
  - destruct (to_primitive a) as [pa|e4] eqn:Hp; simpl; [done|].
    intros [= <-]. by apply (to_primitive_throws _ _ Hp).
Qed.

(** What saveToStorage leaves alone. *)
Lemma saveToStorage_frame w (k : string) :
  k <> "expenses" ->
  items (localStorage (snd (saveToStorage w))) !! k = items (localStorage w) !! k.
Proof.
  intros Hk. js_unfold. destruct (accessible (localStorage w)); [|done].
  destruct (_ <=? _); [|done]. simpl. by rewrite lookup_insert_ne.
Qed.

Lemma saveToStorage_limits w :
  quota (localStorage (snd (saveToStorage w))) = quota (localStorage w)
  /\ accessible (localStorage (snd (saveToStorage w))) = accessible (localStorage w).
Proof.
  js_unfold. destruct (accessible (localStorage w)) eqn:Hacc; [|done].
  by destruct (_ <=? _).
Qed.

(** A mutator either throws and changes nothing, or replaces the entries
    and saves. *)
Lemma run_op_shape (o : op num) w :
  (exists err, run_op o w = (Throw err, w))
  \/ (exists v, run_op o w = saveToStorage (with_expenses v w)).
Proof.
  destruct o as [e|i]; simpl.
  - rewrite addExpense_run. destruct (array_push _ _); eauto.
  - rewrite removeExpense_run. destruct (array_filter _ _); eauto.
Qed.

Lemma replay_cons (o : op num) ops w :
  replay (o :: ops) w =
  match run_op o w with
  | (Normal _, w') => replay ops w'
  | (Throw err, w') => (Throw err, w')
  end.
Proof. reflexivity. Qed.

Lemma setItem_refused (k t : string) w :
  accessible (localStorage w) = true ->
  quota (localStorage w) < storage_size (<[k := t]> (items (localStorage w))) ->
  fst (setItem k t w) = Throw QuotaExceededError.
Proof.
  intros Hacc Hfull. unfold setItem. rewrite Hacc.
  by apply Nat.leb_gt in Hfull as ->.
Qed.

Lemma with_category_sublist (f : string) l : sublist (with_category f l) l.
Proof.
  unfold with_category. induction l as [|e l IH]; simpl; [constructor|].
  destruct (String.eqb _ _); by constructor.
Qed.

Lemma with_category_elem (f : string) l e :
  e ∈ with_category f l <-> e ∈ l /\ category e = f.
Proof.
  unfold with_category. rewrite !list_elem_of_In, List.filter_In.
  by rewrite String.eqb_eq.
Qed.

(** Once the running total is a string it stays one. *)
Lemma js_add_string_left (a : string) (o : option (value num)) :
  (exists s, js_add (Some (VStr a)) o = Normal (VStr s))
  \/ js_add (Some (VStr a)) o = Throw TypeError.
Proof.
  unfold js_add. simpl.
  destruct (to_primitive o) as [p|e1] eqn:Hp; simpl;
    [|rewrite (to_primitive_throws _ _ Hp); by right].
  destruct (to_string_opt_primitive p (to_primitive_result _ _ Hp)) as [sb ->].
  simpl. eauto.
Qed.

Lemma js_add_string_right (acc : value num) (a : string) :
  primitive (Some acc) = true ->
  exists s, js_add (Some acc) (Some (VStr a)) = Normal (VStr s).
Proof.
  intros Hacc. unfold js_add. rewrite (to_primitive_primitive _ Hacc). simpl.
  rewrite orb_true_r.
  destruct (to_string_opt_primitive _ Hacc) as [sa Hsa]. simpl in Hsa. rewrite Hsa.
  simpl. eauto.
Qed.

Lemma get_prop_not_null x (k : string) :
  x <> VNull -> exists o, get_prop x k = Normal o.
Proof. destruct x; simpl; eauto. done. Qed.

Lemma reduce_amounts_from_string xs : forall a : string,
  Forall (fun x => x <> VNull) xs ->
  (exists s,
     reduce_elems
       (fun sum expense => o ← get_prop expense "amount"; js_add (Some sum) o)
       (VStr a) xs = Normal (VStr s))
  \/ reduce_elems
       (fun sum expense => o ← get_prop expense "amount"; js_add (Some sum) o)
       (VStr a) xs = Throw TypeError.
Proof.
  induction xs as [|x xs IH]; intros a Hall; [left; by exists a|].
  apply Forall_cons in Hall as [Hx Hall].
  destruct (get_prop_not_null x "amount" Hx) as [o Ho].
  rewrite reduce_elems_cons, Ho, !bind_normal.
  destruct (js_add_string_left a o) as [[s ->]| ->]; [|by right].
  rewrite bind_normal. by apply IH.
Qed.

Lemma reduce_amounts_to_string xs : forall acc : value num,
  primitive (Some acc) = true ->
  Forall (fun x => x <> VNull) xs ->
  Exists string_amount xs ->
  (exists s,
     reduce_elems
       (fun sum expense => o ← get_prop expense "amount"; js_add (Some sum) o)
       acc xs = Normal (VStr s))
  \/ reduce_elems
       (fun sum expense => o ← get_prop expense "amount"; js_add (Some sum) o)
       acc xs = Throw TypeError.
Proof.
  induction xs as [|x xs IH]; intros acc Hacc Hall Hex; [by apply Exists_nil in Hex|].
  apply Forall_cons in Hall as [Hx Hall].
  apply Exists_cons in Hex as [[a Ha]|Hex].
  - destruct (js_add_string_right acc a Hacc) as [s Hs].
    rewrite reduce_elems_cons, Ha, !bind_normal, Hs, bind_normal.
    by apply reduce_amounts_from_string.
  - destruct (get_prop_not_null x "amount" Hx) as [o Ho].
    rewrite reduce_elems_cons, Ho, !bind_normal.
    destruct (js_add_cases (Some acc) o) as [[n ->]|[[s ->]| ->]]; [| |by right];
      rewrite bind_normal; by apply IH.
Qed.

(** With primitive amounts the sum is never interrupted. *)
Lemma reduce_amounts_primitive xs : forall acc : value num,
  primitive (Some acc) = true ->
  Forall primitive_amount xs ->
  exists v,
    reduce_elems
      (fun sum expense => o ← get_prop expense "amount"; js_add (Some sum) o)
      acc xs = Normal v.
Proof.
  induction xs as [|x xs IH]; intros acc Hacc Hall; [by exists acc|].
  apply Forall_cons in Hall as [(o & Ho & Hprim) Hall].
  destruct (js_add_primitive (Some acc) o Hacc Hprim) as (v & Hv & Hvprim).
  rewrite reduce_elems_cons, Ho, !bind_normal, Hv, bind_normal. by apply IH.
Qed.

(** An entry without a number for amount cannot be drawn. *)
Lemma createExpenseHTML_throws x err :
  createExpenseHTML x = Throw err -> err = TypeError.
Proof.
  unfold createExpenseHTML.
  destruct (get_prop x "category") as [c|e1] eqn:Hc; simpl;
    [|intros [= <-]; by apply (get_prop_throws x "category")].
  destruct (to_string_opt c) as [k|e2] eqn:Hk; simpl;
    [|intros [= <-]; by apply (to_string_opt_throws c)].
  destruct (get_prop x "timestamp") as [t|e3] eqn:Ht; simpl;
    [|intros [= <-]; by apply (get_prop_throws x "timestamp")].
  destruct (to_primitive t) as [pt|e4] eqn:Hpt; simpl;
    [|intros [= <-]; by apply (to_primitive_throws t)].
  destruct (get_prop x "id") as [i|e5] eqn:Hi; simpl;
    [|intros [= <-]; by apply (get_prop_throws x "id")].
  destruct (to_string_opt i) as [si|e6] eqn:Hsi; simpl;
    [|intros [= <-]; by apply (to_string_opt_throws i)].
  destruct (get_prop x "amount") as [a|e7] eqn:Ha; simpl;
    [|intros [= <-]; by apply (get_prop_throws x "amount")].
  destruct a as [[]|]; congruence.
Qed.

Lemma createExpenseHTML_no_number x :
  (forall n, get_prop x "amount" <> Normal (Some (VNum n))) ->
  createExpenseHTML x = Throw TypeError.
Proof.
  intros Hbad. destruct (createExpenseHTML x) as [[]|err] eqn:Hdraw;
    [|by rewrite (createExpenseHTML_throws x err Hdraw)].
  exfalso. revert Hdraw. unfold createExpenseHTML.
  destruct (get_prop x "category") as [c|]; simpl; [|done].
  destruct (to_string_opt c); simpl; [|done].
  destruct (get_prop x "timestamp") as [t|]; simpl; [|done].
  destruct (to_primitive t); simpl; [|done].
  destruct (get_prop x "id") as [i|]; simpl; [|done].
  destruct (to_string_opt i); simpl; [|done].
  destruct (get_prop x "amount") as [[[| | n | | |]|]|] eqn:Ha; simpl; try done.
  by destruct (Hbad n).
Qed.

Lemma reduce_elems_throws {A} (f : A -> value num -> completion A) xs x :
  (forall acc y err, f acc y = Throw err -> err = TypeError) ->
  (forall acc, f acc x = Throw TypeError) ->
  x ∈ xs -> forall acc, reduce_elems f acc xs = Throw TypeError.
Proof.
  intros Honly Hx. induction xs as [|y xs IH]; [by intros ?%elem_of_nil|].
  intros Hin acc. apply elem_of_cons in Hin as [<-|Hin]; simpl.
  - by rewrite Hx.
  - destruct (f acc y) as [acc'|err] eqn:Hy; [|by rewrite (Honly acc y err Hy)].
    simpl. by apply IH.
Qed.

Lemma renderUI_undrawable xs x :
  x ∈ xs ->
  (forall n, get_prop x "amount" <> Normal (Some (VNum n))) ->
  renderUI (mkState (VArr xs) "All") = Throw TypeError.
Proof.
  intros Hin Hbad. unfold renderUI, renderExpenses. simpl.
  destruct xs as [|y ys]; [by apply elem_of_nil in Hin|].
  rewrite (reduce_elems_throws _ (y :: ys) x); [done| | |done].
  - intros acc z err. apply createExpenseHTML_throws.
  - intros acc. by apply createExpenseHTML_no_number.
Qed.

Lemma substring_length (n m : nat) (s : string) :
  String.length (String.substring n m s) <= m.
Proof.
  revert n m. induction s as [|c s IH]; intros [|n] [|m]; simpl; try lia.
  - specialize (IH 0 m). lia.
  - apply (IH n 0).
  - apply (IH n (S m)).
Qed.

Lemma substring_short (n m : nat) (s : string) :
  String.length s <= n -> String.substring n m s = "".
Proof.
  revert n m. induction s as [|c s IH]; intros [|n] [|m]; simpl; try done; try lia.
  - intros Hle. apply IH. lia.
  - intros Hle. apply IH. lia.
Qed.

Lemma stringify_reloaded e :
  JSON_stringify (expense_obj e) = JSON_stringify (reloaded_obj e).
Proof.
  unfold expense_obj, reloaded_obj. simpl.
  by destruct (num_is_finite (amount e)) eqn:Hfin; simpl; rewrite ?Hfin.
Qed.

Lemma stringify_reloaded_ledger l :
  JSON_stringify (ledger l) = JSON_stringify (VArr (map reloaded_obj l)).
Proof.
  unfold ledger. simpl. do 3 f_equal. rewrite !List.map_map.
  apply List.map_ext. intros e. apply stringify_reloaded.
Qed.

End MoreFacts.

Section MorePropFacts.
Context {A : Type}.
Implicit Types (ps : props A) (k : string) (a : A).

Lemma prop_get_None_keys ps k : prop_get ps k = None <-> k ∉ keys ps.
Proof.
  unfold keys. induction ps as [|[k0 a0] ps IH]; simpl.
  - split; [intros _; apply not_elem_of_nil | done].
  - rewrite not_elem_of_cons, <- IH.
    destruct (String.eqb_spec k0 k) as [->|Hne]; [by split; [|intros []]|].
    split; [by split; [apply not_eq_sym|] | by intros []].
Qed.

Lemma keys_prop_replace ps k a : keys (prop_replace k a ps) = keys ps.
Proof.
  unfold keys. induction ps as [|[k0 a0] ps IH]; [done|]. simpl.
  destruct (String.eqb k0 k); simpl; [done | by rewrite IH].
Qed.

Lemma keys_insert_index ps (n : N) k a : keys (insert_index n k a ps) ≡ₚ k :: keys ps.
Proof.
  unfold keys. induction ps as [|[k0 a0] ps IH]; [done|]. simpl.
  destruct (array_index k0) as [n'|]; [destruct (n' <? n)%N|]; simpl; try done.
  rewrite IH. apply Permutation_swap.
Qed.

(** The keys after [obj[k] = a]: the same when [k] was there, one more
    when it was not. *)
Lemma keys_prop_set ps k a :
  keys (prop_set ps k a)
  ≡ₚ match prop_get ps k with Some _ => keys ps | None => k :: keys ps end.
Proof.
  unfold prop_set. destruct (prop_get ps k) as [a0|] eqn:Hget.
  - by rewrite keys_prop_replace.
  - destruct (array_index k); [apply keys_insert_index|].
    unfold keys. rewrite map_app. simpl. by rewrite Permutation_app_comm.
Qed.

Lemma weight_prop_replace (weight : A -> nat) ps k a old :
  prop_get ps k = Some old ->
  list_sum (map (fun p => weight (snd p)) (prop_replace k a ps)) + weight old
  = list_sum (map (fun p => weight (snd p)) ps) + weight a.
Proof.
  induction ps as [|[k0 a0] ps IH]; simpl; [done|].
  destruct (String.eqb k0 k); simpl.
  - intros [= ->]. lia.
  - intros Hget. specialize (IH Hget). lia.
Qed.

Lemma weight_insert_index (weight : A -> nat) ps (n : N) k a :
  list_sum (map (fun p => weight (snd p)) (insert_index n k a ps))
  = list_sum (map (fun p => weight (snd p)) ps) + weight a.
Proof.
  induction ps as [|[k0 a0] ps IH]; simpl; [lia|].
  destruct (array_index k0) as [n'|]; [destruct (n' <? n)%N|]; simpl; lia.
Qed.

Lemma weight_prop_set (weight : A -> nat) ps k a :
  list_sum (map (fun p => weight (snd p)) (prop_set ps k a))
  + from_option weight 0 (prop_get ps k)
  = list_sum (map (fun p => weight (snd p)) ps) + weight a.
Proof.
  unfold prop_set. destruct (prop_get ps k) as [old|] eqn:Hget; simpl.
  - by apply weight_prop_replace.
  - destruct (array_index k); [rewrite weight_insert_index; lia|].
    rewrite map_app, list_sum_app. simpl. lia.
Qed.

End MorePropFacts.

Section MoreStatsFacts.
Context {num : Type} `{Number num}.
Implicit Types (l : list (Expense num)) (e : Expense num)
  (stats : props (CategoryStat num)).

(** One round keeps the keys distinct and free of inherited names, and
    raises the counts by one in all, unless the category is an inherited
    name. *)
Lemma stats_step_counts stats e :
  numeric_totals stats ->
  NoDup (keys stats) ->
  (forall k, k ∈ keys stats -> inherited k = false) ->
  exists stats',
    stats_step stats (expense_obj e) = Normal stats'
    /\ numeric_totals stats'
    /\ NoDup (keys stats')
    /\ (forall k, k ∈ keys stats' -> inherited k = false)
    /\ sum_counts stats' = sum_counts stats + length (counted [e]).
Proof.
  intros Hnum Hnd Hclean. unfold stats_step.
  rewrite get_prop_category, bind_normal, to_string_category, bind_normal.
  cbv beta zeta. rewrite get_prop_amount, bind_normal.
  unfold stats_missing, counted. simpl.
  destruct (prop_get stats (category e)) as [s|] eqn:Hget.
  - rewrite Hget. destruct (Hnum _ _ Hget) as [t Ht].
    rewrite Ht, js_add_numbers, bind_normal.
    eexists. split; [done|]. split; [by apply numeric_totals_set|].
    pose proof (keys_prop_set stats (category e)
                  (mkStat (count s + 1) (VNum (num_add t (amount e)))))
      as Hkeys.
    pose proof (weight_prop_set count stats (category e)
                  (mkStat (count s + 1) (VNum (num_add t (amount e)))))
      as Hsum.
    rewrite Hget in Hkeys, Hsum. simpl in Hsum.
    assert (inherited (category e) = false) as ->.
    { apply Hclean. destruct (decide (category e ∈ keys stats)) as [|Hn]; [done|].
      apply prop_get_None_keys in Hn. congruence. }
    split; [by rewrite Hkeys|]. split; [intros k; rewrite Hkeys; apply Hclean|].
    unfold sum_counts. simpl. lia.
  - destruct (inherited (category e)) eqn:Hin; simpl.
    + rewrite Hget. eexists. split; [done|]. split; [done|].
      split; [done|]. split; [done|]. lia.
    + rewrite prop_get_set, String.eqb_refl. simpl total.
      rewrite js_add_numbers, bind_normal.
      set (s0 := mkStat 0 (VNum num_zero)).
      set (s1 := mkStat (count s0 + 1) (VNum (num_add num_zero (amount e)))).
      eexists. split; [done|].
      split; [by apply numeric_totals_set, numeric_totals_set|].
      pose proof (keys_prop_set stats (category e) s0) as Hkeys0.
      pose proof (weight_prop_set count stats (category e) s0) as Hsum0.
      pose proof (keys_prop_set (prop_set stats (category e) s0) (category e) s1) as Hkeys1.
      pose proof (weight_prop_set count (prop_set stats (category e) s0) (category e) s1)
        as Hsum1.
      rewrite prop_get_set, String.eqb_refl in Hkeys1, Hsum1.
      rewrite Hget in Hkeys0, Hsum0. rewrite Hkeys0 in Hkeys1. simpl in *.
      split; [|split].
      * rewrite Hkeys1. apply NoDup_cons. split; [by apply prop_get_None_keys | done].
      * intros k. rewrite Hkeys1. intros [->|Hk]%elem_of_cons; [done | by apply Hclean].
      * unfold sum_counts. lia.
Qed.

Lemma stats_fold_counts l : forall stats,
  numeric_totals stats ->
  NoDup (keys stats) ->
  (forall k, k ∈ keys stats -> inherited k = false) ->
  exists stats',
    reduce_elems stats_step stats (map expense_obj l) = Normal stats'
    /\ NoDup (keys stats')
    /\ (forall k, k ∈ keys stats' -> inherited k = false)
    /\ sum_counts stats' = sum_counts stats + length (counted l).
Proof.
  induction l as [|e l IH]; intros stats Hnum Hnd Hclean.
  - exists stats. simpl. repeat split; try done; lia.
  - destruct (stats_step_counts stats e Hnum Hnd Hclean)
      as (stats1 & Hstep & Hnum1 & Hnd1 & Hc1 & Hs1).
    destruct (IH stats1 Hnum1 Hnd1 Hc1) as (stats' & Hrun & Hnd' & Hc' & Hs').
    exists stats'. split; [|split; [done|split; [done|]]].
    + change (map expense_obj (e :: l)) with (expense_obj e :: map expense_obj l).
      by rewrite reduce_elems_cons, Hstep, bind_normal.
    + rewrite Hs', Hs1. unfold counted. simpl.
      destruct (negb (inherited (category e))); simpl; lia.
Qed.

Lemma with_category_categories (c : string) l :
  with_category c l <> [] <-> c ∈ categories l.
Proof.
  unfold with_category, categories. induction l as [|e l IH]; simpl.
  - split; [done | by intros ?%elem_of_nil].
  - rewrite elem_of_cons, <- IH.
    destruct (String.eqb_spec (category e) c) as [->|Hne]; [by split; [left|]|].
    split; [by right | by intros [?|?]].
Qed.

End MoreStatsFacts.

Section Extras.
Context {num : Type} `{NumberText num}.
Implicit Types (w : World num) (l : list (Expense num)) (e : Expense num)
  (xs : list (value num)) (x : value num).

(** X1.  Removing the expense just added, by its id, gives back the entries
    there were before, provided no earlier entry carries that id; both calls
    complete normally. *)
Theorem remove_undoes_add e l w :
  expenses (state w) = ledger l ->
  id e ∉ ids l ->
  fst (addExpense (expense_obj e) w) = Normal tt
  /\ fst (removeExpense (id e) (snd (addExpense (expense_obj e) w))) = Normal tt
  /\ state (snd (removeExpense (id e) (snd (addExpense (expense_obj e) w))))
     = state w.
Proof.
  intros Hw Hfresh. destruct (addExpense_ledger e l w Hw) as [Hc Hs].
  assert (Hw1 : expenses (state (snd (addExpense (expense_obj e) w))) = ledger (l ++ [e]))
    by by rewrite Hs.
  destruct (removeExpense_ledger_state (id e) (l ++ [e]) _ Hw1) as [Hc' Hs'].
  split; [done|]. split; [done|]. rewrite Hs', Hs. simpl.
  rewrite without_id_app, without_id_absent by done.
  unfold without_id at 1. simpl. rewrite String.eqb_refl. simpl. rewrite app_nil_r.
  rewrite <- Hw. by destruct (state w).
Qed.

(** X2.  removeExpense drops every entry that carries the id, also when
    several do, and nothing else: the entries that remain are the others, in
    their order. *)
Theorem removeExpense_drops_every_match (i : string) l w :
  expenses (state w) = ledger l ->
  expenses (state (snd (removeExpense i w))) = ledger (without_id i l)
  /\ (i ∉ ids (without_id i l))
  /\ sublist (without_id i l) l
  /\ (forall e, e ∈ l -> id e <> i -> e ∈ without_id i l).
Proof.
  intros Hw. destruct (removeExpense_ledger_state i l w Hw) as [_ Hs].
  split; [by rewrite Hs|]. split; [apply without_id_gone|].
  split; [apply without_id_sublist|]. intros e. apply without_id_keeps.
Qed.

(** X3.  One [null] among the entries (a stored text can bring it in) makes
    removeExpense, getTotal and getCategoryStats throw a TypeError;
    removeExpense then leaves the state object, the store and the console as
    they were. *)
Theorem null_entry_throws (i : string) xs w :
  expenses (state w) = VArr xs ->
  VNull ∈ xs ->
  removeExpense i w = (Throw TypeError, w)
  /\ getTotal (state w) = Throw TypeError
  /\ getCategoryStats (state w) = Throw TypeError.
Proof.
  intros Hw Hnull. split; [|split].
  - rewrite removeExpense_run, Hw. simpl.
    rewrite filter_elems_null; [done| |done|done].
    intros x err. destruct (get_prop x "id") eqn:Hx; simpl; [done|].
    intros [= <-]. by apply (get_prop_throws x "id").
  - unfold getTotal, getFilteredExpenses. rewrite Hw.
    destruct (String.eqb (currentFilter (state w)) "All").
    + simpl. apply reduce_elems_null; [|done|done].
      intros acc x err. destruct (get_prop x "amount") as [o|e1] eqn:Hx; simpl.
      * apply js_add_throws.
      * intros [= <-]. by apply (get_prop_throws x "amount").
    + simpl. rewrite filter_elems_null; [done| |done|done].
      intros x err. destruct (get_prop x "category") eqn:Hx; simpl; [done|].
      intros [= <-]. by apply (get_prop_throws x "category").
  - unfold getCategoryStats. rewrite Hw. simpl.
    apply reduce_elems_null; [|done|done]. intros acc x err. apply stats_step_throws.
Qed.

(** X4.  When state.expenses is not an array (a stored text can make it an
    object, a number, a string), addExpense and removeExpense throw a
    TypeError and change nothing, nothing is written to the store, and
    getTotal and getCategoryStats throw a TypeError too. *)
Theorem non_array_throws (i : string) x w :
  (forall xs, expenses (state w) <> VArr xs) ->
  addExpense x w = (Throw TypeError, w)
  /\ removeExpense i w = (Throw TypeError, w)
  /\ getTotal (state w) = Throw TypeError
  /\ getCategoryStats (state w) = Throw TypeError.
Proof.
  intros Hw. rewrite addExpense_run, removeExpense_run.
  unfold getTotal, getFilteredExpenses, getCategoryStats.
  destruct (expenses (state w)) as [| b | n | s | xs | ps] eqn:He;
    try (by destruct (Hw xs));
    by destruct (String.eqb (currentFilter (state w)) "All").
Qed.

(** X5.  removeExpense compares ids without conversion: an entry whose id is
    not a string equal to the one asked for (a number, or no id at all)
    stays, so the entries are unchanged when no entry has such an id. *)
Theorem removeExpense_compares_strictly (i : string) xs w :
  expenses (state w) = VArr xs ->
  Forall (id_differs i) xs ->
  fst (removeExpense i w) = Normal tt
  /\ state (snd (removeExpense i w)) = state w.
Proof.
  intros Hw Hall. rewrite removeExpense_run, Hw. simpl.
  assert (filter_elems
            (fun expense => o ← get_prop expense "id";
                            Normal (negb (strict_eq_string o i))) xs = Normal xs) as ->.
  { clear Hw. induction Hall as [|x xs (o & Hget & Hneq) _ IH]; [done|].
    simpl. rewrite Hget. simpl. by rewrite Hneq, IH. }
  simpl. destruct (saveToStorage_state (with_expenses (VArr xs) w)) as [-> ->].
  split; [done|]. unfold with_expenses. simpl. rewrite <- Hw. by destruct (state w).
Qed.

(** X6.  saveToStorage never throws and never touches the state object,
    the other slots of the store, its quota or its accessibility: either the
    slot "expenses" now holds the text of the entries and nothing is logged,
    or the store is as before and one error is logged. *)
Theorem saveToStorage_is_contained w (k : string) :
  k <> "expenses" ->
  fst (saveToStorage w) = Normal tt
  /\ state (snd (saveToStorage w)) = state w
  /\ items (localStorage (snd (saveToStorage w))) !! k = items (localStorage w) !! k
  /\ quota (localStorage (snd (saveToStorage w))) = quota (localStorage w)
  /\ accessible (localStorage (snd (saveToStorage w))) = accessible (localStorage w)
  /\ ((items (localStorage (snd (saveToStorage w))) !! "expenses"
        = Some (JSON_stringify (expenses (state w)))
       /\ console (snd (saveToStorage w)) = console w)
      \/ (localStorage (snd (saveToStorage w)) = localStorage w
          /\ exists err, console (snd (saveToStorage w))
                         = console w ++ [("Error saving to localStorage:", err)])).
Proof.
  intros Hk. destruct (saveToStorage_state w) as [Hc Hs].
  destruct (saveToStorage_limits w) as [Hq Ha].
  split; [done|]. split; [done|]. split; [by apply saveToStorage_frame|].
  split; [done|]. split; [done|]. clear.
  js_unfold. destruct (accessible (localStorage w)); [|right; eauto].
  destruct (_ <=? _); [left | right; eauto]. simpl. by rewrite lookup_insert_eq.
Qed.

(** X7.  No sequence of addExpense and removeExpense calls, on any state,
    changes the filter, a slot of the store other than "expenses", the quota
    or the accessibility of the store. *)
Theorem mutators_keep_to_their_slot (ops : list (op num)) w (k : string) :
  k <> "expenses" ->
  currentFilter (state (snd (replay ops w))) = currentFilter (state w)
  /\ items (localStorage (snd (replay ops w))) !! k = items (localStorage w) !! k
  /\ quota (localStorage (snd (replay ops w))) = quota (localStorage w)
  /\ accessible (localStorage (snd (replay ops w))) = accessible (localStorage w).
Proof.
  intros Hk. revert w. induction ops as [|o ops IH]; intros w; [done|].
  rewrite replay_cons.
  destruct (run_op_shape o w) as [[err ->]|[v ->]]; [done|].
  destruct (saveToStorage_state (with_expenses v w)) as [Hc Hs].
  pose proof (saveToStorage_frame (with_expenses v w) k Hk) as Hf.
  destruct (saveToStorage_limits (with_expenses v w)) as [Hq Ha].
  destruct (saveToStorage (with_expenses v w)) as [c w1]. simpl in *. subst c.
  destruct (IH w1) as (-> & -> & -> & ->). rewrite Hs. simpl. auto.
Qed.

(** X8.  An expense added while the store takes the write is there again
    after the page is opened anew: init on that store gives the entries with
    the new one at the end. *)
Theorem added_expense_survives_reload e l w :
  Forall (fun e => num_is_finite (amount e) = true) (l ++ [e]) ->
  expenses (state w) = ledger l ->
  accessible (localStorage w) = true ->
  storage_size (<["expenses" := JSON_stringify (ledger (l ++ [e]))]>
                  (items (localStorage w))) <= quota (localStorage w) ->
  init (reload (localStorage (snd (addExpense (expense_obj e) w))))
  = (Normal tt,
     with_expenses (ledger (l ++ [e]))
       (reload (localStorage (snd (addExpense (expense_obj e) w))))).
Proof.
  intros Hfin Hw Hacc Hroom.
  rewrite (addExpense_array _ (map expense_obj l) w Hw), <- ledger_app.
  rewrite saveToStorage_written by done. simpl.
  rewrite init_load,
    (loadFromStorage_parsed _ (JSON_stringify (ledger (l ++ [e]))) (ledger (l ++ [e])));
    [done|done| |].
  - simpl. apply lookup_insert_eq.
  - by apply parse_stringify, ledger_serializable.
Qed.

(** X9.  An expense added while the store is full is in the entries for the
    session but gone after the page is opened anew: init then gives the
    entries the store held before. *)
Theorem refused_write_is_lost_on_reload e l w :
  Forall (fun e => num_is_finite (amount e) = true) l ->
  expenses (state w) = ledger l ->
  items (localStorage w) !! "expenses" = Some (JSON_stringify (ledger l)) ->
  accessible (localStorage w) = true ->
  quota (localStorage w)
  < storage_size (<["expenses" := JSON_stringify (ledger (l ++ [e]))]>
                    (items (localStorage w))) ->
  expenses (state (snd (addExpense (expense_obj e) w))) = ledger (l ++ [e])
  /\ init (reload (localStorage (snd (addExpense (expense_obj e) w))))
     = (Normal tt,
        with_expenses (ledger l)
          (reload (localStorage (snd (addExpense (expense_obj e) w))))).
Proof.
  intros Hfin Hw Hslot Hacc Hfull.
  rewrite (addExpense_array _ (map expense_obj l) w Hw), <- ledger_app.
  rewrite (saveToStorage_refused _ QuotaExceededError)
    by by apply setItem_refused.
  split; [done|]. simpl.
  rewrite init_load, (loadFromStorage_parsed _ (JSON_stringify (ledger l)) (ledger l));
    [done|done|done|].
  by apply parse_stringify, ledger_serializable.
Qed.

(** X10.  init never throws and never writes: whatever the store holds or
    refuses, it completes normally and leaves the store and the filter as
    they were. *)
Theorem init_never_throws_never_writes w :
  fst (init w) = Normal tt
  /\ localStorage (snd (init w)) = localStorage w
  /\ currentFilter (state (snd (init w))) = currentFilter (state w).
Proof.
  unfold init. js_unfold. destruct (accessible (localStorage w)); [|by simpl].
  destruct (items (localStorage w) !! "expenses") as [[|c text]|];
    [by simpl| |by simpl].
  destruct (JSON_parse (String c text)); by simpl.
Qed.

(** X11.  On a store that refuses access init sets the entries to the empty
    array and logs the SecurityError; on a slot holding the empty string it
    sets them to the empty array and logs nothing. *)
Theorem init_on_a_locked_or_blank_store w :
  (accessible (localStorage w) = false ->
     init w
     = (Normal tt,
        mkWorld (mkState (VArr []) (currentFilter (state w))) (localStorage w)
          (console w ++ [("Error loading from localStorage:", SecurityError)])))
  /\ (accessible (localStorage w) = true ->
      items (localStorage w) !! "expenses" = Some "" ->
      init w = (Normal tt, with_expenses (VArr []) w)).
Proof.
  split.
  - intros Hacc. unfold init. js_unfold. by rewrite Hacc.
  - intros Hacc Hslot. unfold init. js_unfold. by rewrite Hacc, Hslot.
Qed.

(** X12.  Filtering is a view: setFilter leaves the entries alone; under a
    category filter getFilteredExpenses gives exactly the entries of that
    category, in their order; and setting the filter back to "All" shows all
    entries again. *)
Theorem filtering_leaves_the_entries (f : string) l w :
  expenses (state w) = ledger l ->
  f <> "All" ->
  expenses (state (snd (setFilter f w))) = ledger l
  /\ getFilteredExpenses (state (snd (setFilter f w)))
     = Normal (ledger (with_category f l))
  /\ sublist (with_category f l) l
  /\ (forall e, e ∈ with_category f l <-> e ∈ l /\ category e = f)
  /\ getFilteredExpenses (state (snd (setFilter "All" (snd (setFilter f w)))))
     = Normal (ledger l).
Proof.
  intros Hw Hf. split; [done|]. split.
  { simpl. rewrite Hw. by apply getFilteredExpenses_category. }
  split; [apply with_category_sublist|]. split; [apply with_category_elem|].
  simpl. rewrite Hw. apply getFilteredExpenses_all.
Qed.

(** X13.  getTotal adds with JavaScript's [+]: as soon as one entry has a
    string for amount (a stored text can bring it in), the total under "All"
    is not a number.  It is a string, unless the conversion of an amount
    that is an array or an object throws, and then getTotal throws that
    TypeError; with amounts that are primitives it is a string. *)
Theorem getTotal_concatenates_string_amounts xs :
  Forall (fun x => x <> VNull) xs ->
  Exists string_amount xs ->
  ((exists s, getTotal (mkState (VArr xs) "All") = Normal (VStr s))
   \/ getTotal (mkState (VArr xs) "All") = Throw TypeError)
  /\ (Forall primitive_amount xs ->
      exists s, getTotal (mkState (VArr xs) "All") = Normal (VStr s)).
Proof.
  intros Hall Hex. unfold getTotal. simpl.
  pose proof (reduce_amounts_to_string xs (VNum num_zero) eq_refl Hall Hex) as Hsum.
  split; [exact Hsum|]. intros Hprim.
  destruct (reduce_amounts_primitive xs (VNum num_zero) eq_refl Hprim) as [v Hv].
  destruct Hsum as [Hs|Hthrow]; [exact Hs | congruence].
Qed.

(** X14.  A form that passes validateForm (amount field not empty, parsed
    amount not <= 0, category chosen) makes handleAddExpense append one
    expense built from the fields, the generated id and the time stamp.  On
    a ledger of expense objects it then clears both fields and hides both
    error boxes.  When, under the filter "All", an entry has no number for
    amount (a stored text can bring it in), drawing the list throws a
    TypeError after the expense has been appended, and the handler stops
    there.  The test also lets through an amount that parseFloat reads as
    NaN, for which <= is false. *)
Theorem handleAddExpense_adds_what_the_form_holds
    (parseFloat : string -> num) (now : num) (random36 iso : string)
    (el : Elements) l xs x w :
  is_empty (amountInput el) = false ->
  num_le (parseFloat (amountInput el)) num_zero = false ->
  is_empty (categoryInput el) = false ->
  (expenses (state w) = ledger l ->
     fst (handleAddExpense parseFloat now random36 iso el w)
     = Normal (mkElements "" "" (hide (amountError el)) (hide (categoryError el)))
     /\ expenses (state (snd (handleAddExpense parseFloat now random36 iso el w)))
        = ledger (l ++ [mkExpense (generateUID now random36)
                          (parseFloat (amountInput el)) (categoryInput el) iso]))
  /\ (expenses (state w) = VArr xs ->
      currentFilter (state w) = "All" ->
      x ∈ xs ->
      (forall n, get_prop x "amount" <> Normal (Some (VNum n))) ->
      fst (handleAddExpense parseFloat now random36 iso el w) = Throw TypeError
      /\ expenses (state (snd (handleAddExpense parseFloat now random36 iso el w)))
         = VArr (xs ++ [expense_obj
                          (mkExpense (generateUID now random36)
                             (parseFloat (amountInput el)) (categoryInput el) iso)])).
Proof.
  intros Ha Hp Hc.
  assert (Hamount : is_empty (amountInput el)
                    || num_le (parseFloat (amountInput el)) num_zero = false)
    by by rewrite Ha, Hp.
  set (e := mkExpense (generateUID now random36) (parseFloat (amountInput el))
              (categoryInput el) iso).
  split.
  - intros Hw. split.
    + rewrite handleAddExpense_valid by done. fold e.
      destruct (addExpense_ledger e l w Hw) as [Hok Hst].
      destruct (addExpense (expense_obj e) w) as [c w1]. simpl in Hok, Hst. subst c.
      by rewrite Hst, renderUI_ledger.
    + rewrite (handleAddExpense_entries _ _ _ _ _ (map expense_obj l)) by done.
      by rewrite <- ledger_app.
  - intros Hw Hf Hin Hbad. split; [|by apply handleAddExpense_entries].
    rewrite handleAddExpense_valid by done. fold e.
    rewrite (addExpense_array _ xs w Hw).
    set (w0 := with_expenses _ w).
    destruct (saveToStorage_state w0) as [Hok Hst].
    destruct (saveToStorage w0) as [c w1]. simpl in Hok, Hst. subst c.
    rewrite Hst. subst w0. simpl. rewrite Hf.
    rewrite (renderUI_undrawable (xs ++ [expense_obj e]) x); [done| |done].
    apply elem_of_app. by left.
Qed.

(** X15.  What is saved and loaded again is the entries with every amount
    that is not finite (NaN, an infinity) replaced by [null]; entries with
    finite amounts come back as they were. *)
Theorem non_finite_amounts_come_back_null l w :
  expenses (state w) = ledger l ->
  accessible (localStorage w) = true ->
  storage_size (<["expenses" := JSON_stringify (ledger l)]> (items (localStorage w)))
    <= quota (localStorage w) ->
  loadFromStorage (snd (saveToStorage w))
  = (Normal (VArr (map reloaded_obj l)), snd (saveToStorage w))
  /\ (forall e, num_is_finite (amount e) = true -> reloaded_obj e = expense_obj e)
  /\ (forall e, num_is_finite (amount e) = false ->
        get_prop (reloaded_obj e) "amount" = Normal (Some VNull)).
Proof.
  intros Hw Hacc Hroom. split; [|split].
  - rewrite saveToStorage_written by by rewrite ?Hw.
    apply (loadFromStorage_parsed _ (JSON_stringify (ledger l))).
    + by simpl.
    + simpl. rewrite Hw. apply lookup_insert_eq.
    + rewrite stringify_reloaded_ledger. apply parse_stringify.
      simpl. apply serializable_elems, Forall_forall.
      intros x (e & -> & _)%list_elem_of_fmap. simpl. split.
      * split; [apply (bool_decide_unpack _); by vm_compute | repeat constructor].
      * by destruct (num_is_finite (amount e)) eqn:Hfin.
  - intros e Hfin. unfold reloaded_obj, expense_obj. by rewrite Hfin.
  - intros e Hfin. unfold reloaded_obj. simpl. by rewrite Hfin.
Qed.

(** X16.  Submitting the form and then deleting the new entry through its
    delete button, with the dialog confirmed, gives back the state object
    there was before, provided the generated id was not in use; with the
    dialog declined nothing changes. *)
Theorem delete_handler_undoes_submit
    (parseFloat : string -> num) (now : num) (random36 iso : string)
    (el : Elements) l w :
  expenses (state w) = ledger l ->
  is_empty (amountInput el) = false ->
  num_le (parseFloat (amountInput el)) num_zero = false ->
  is_empty (categoryInput el) = false ->
  generateUID now random36 ∉ ids l ->
  fst (handleDeleteExpense (generateUID now random36) true
         (snd (handleAddExpense parseFloat now random36 iso el w))) = Normal tt
  /\ state (snd (handleDeleteExpense (generateUID now random36) true
                   (snd (handleAddExpense parseFloat now random36 iso el w))))
     = state w
  /\ handleDeleteExpense (generateUID now random36) false
       (snd (handleAddExpense parseFloat now random36 iso el w))
     = (Normal tt, snd (handleAddExpense parseFloat now random36 iso el w)).
Proof.
  intros Hw Ha Hp Hc Hfresh. split; [|split; [|done]].
  all: rewrite handleAddExpense_valid by by rewrite ?Ha, ?Hp.
  all: set (e := mkExpense (generateUID now random36) (parseFloat (amountInput el))
                   (categoryInput el) iso).
  all: destruct (addExpense_ledger e l w Hw) as [Hc' Hs].
  all: destruct (addExpense (expense_obj e) w) as [c w1]; simpl in Hc', Hs; subst c.
  all: rewrite Hs, renderUI_ledger; simpl.
  all: assert (Hw1 : expenses (state w1) = ledger (l ++ [e])) by by rewrite Hs.
  all: destruct (removeExpense_ledger_state (generateUID now random36) (l ++ [e]) w1 Hw1)
         as [Hc'' Hs'].
  all: unfold mbind, JS_mbind, js_bind.
  all: destruct (removeExpense (generateUID now random36) w1) as [c w2];
         simpl in Hc'', Hs'; subst c.
  all: unfold get_state, lift; rewrite Hs', renderUI_ledger.
  - done.
  - simpl. rewrite Hs', Hs. simpl.
    rewrite without_id_app, without_id_absent by done.
    unfold without_id at 1. simpl. rewrite String.eqb_refl. simpl. rewrite app_nil_r.
    rewrite <- Hw. by destruct (state w).
Qed.

(** X17.  An id made by generateUID is the clock reading, a dash and at most
    nine characters of the random text: two ids of one clock reading are
    equal exactly when the random texts agree on their third to eleventh
    character, and a random text of at most two characters (a draw of 0
    gives "0") leaves nothing after the dash. *)
Theorem generateUID_reads_nine_characters (now : num) (r r' : string) :
  (generateUID now r = generateUID now r'
   <-> String.substring 2 9 r = String.substring 2 9 r')
  /\ String.length (generateUID now r) <= String.length (num_to_string now) + 10
  /\ (String.length r <= 2 -> generateUID now r = num_to_string now +:+ "-").
Proof.
  unfold generateUID. split; [|split].
  - split; [|by intros ->].
    intros Heq. apply (inj (String.app _)) in Heq. by apply (inj (String.app "-")) in Heq.
  - rewrite !string_length_app. pose proof (substring_length 2 9 r). simpl. lia.
  - intros Hr. by rewrite substring_short.
Qed.

(** X18.  For a category that is not the name of an inherited property,
    getCategoryStats records the number of entries of that category and the
    sum of their amounts, and records nothing when no entry has it; the
    filter plays no part. *)
Theorem getCategoryStats_per_category l (f f' c : string) :
  inherited c = false ->
  exists stats,
    getCategoryStats (mkState (ledger l) f) = Normal stats
    /\ getCategoryStats (mkState (ledger l) f') = Normal stats
    /\ prop_get stats c
       = match with_category c l with
         | [] => None
         | es => Some (mkStat (length es) (VNum (sum_amounts es)))
         end.
Proof.
  intros Hc.
  destruct (stats_fold_typed l [] numeric_totals_nil) as (stats & Hrun & Hown & _).
  exists stats. split; [exact Hrun|]. split; [exact Hrun|].
  rewrite (Hown c Hc). simpl.
  destruct (with_category c l) as [|e es] eqn:Hes; [done|].
  by apply (fold_bump_none (e :: es)).
Qed.

(** X19.  The statistics count every entry once: the keys of the result
    are distinct, they are the categories that occur among the entries and
    are not names of inherited properties, and the counts add up to the
    number of entries with such a category. *)
Theorem getCategoryStats_counts_each_entry_once l (f : string) :
  exists stats,
    getCategoryStats (mkState (ledger l) f) = Normal stats
    /\ NoDup (keys stats)
    /\ (forall k, k ∈ keys stats <-> k ∈ categories l /\ inherited k = false)
    /\ sum_counts stats = length (counted l).
Proof.
  destruct (stats_fold_counts l []) as (stats & Hrun & Hnd & Hclean & Hsum);
    [apply numeric_totals_nil | constructor | by intros k ?%elem_of_nil |].
  destruct (stats_fold_typed l [] numeric_totals_nil) as (stats' & Hrun' & Hown & Hinh).
  rewrite Hrun in Hrun'. injection Hrun' as <-.
  exists stats. split; [exact Hrun|]. split; [exact Hnd|]. split; [|exact Hsum].
  intros k. split.
  - intros Hk. split; [|by apply Hclean].
    apply with_category_categories. intros Hnone.
    apply (proj1 (prop_get_None_keys stats k)); [|done].
    by rewrite (Hown k (Hclean k Hk)), Hnone.
  - intros [Hin Hk]. apply with_category_categories in Hin.
    destruct (decide (k ∈ keys stats)) as [|Hn]; [done|].
    apply prop_get_None_keys in Hn. rewrite (Hown k Hk) in Hn. simpl in Hn.
    by rewrite (fold_bump_none (with_category k l) Hin) in Hn.
Qed.

(** X20.  init takes whatever the stored text parses to, also when that is
    not an array: it completes normally with that value as state.expenses,
    after which addExpense throws a TypeError and changes nothing, so the
    stored text stays as it is. *)
Theorem stored_non_array_is_taken w (text : string) (v x : value num) :
  accessible (localStorage w) = true ->
  items (localStorage w) !! "expenses" = Some text ->
  JSON_parse text = Some v ->
  (forall xs, v <> VArr xs) ->
  init w = (Normal tt, with_expenses v w)
  /\ addExpense x (with_expenses v w) = (Throw TypeError, with_expenses v w)
  /\ items (localStorage (with_expenses v w)) !! "expenses" = Some text.
Proof.
  intros Hacc Hslot Hparse Hshape. split; [|split; [|done]].
  - by rewrite init_load, (loadFromStorage_parsed w text v).
  - rewrite addExpense_run. simpl.
    destruct v as [| b | n | s | xs | ps]; try done. by destruct (Hshape xs).
Qed.

End Extras.

(** ** The further properties at concrete pages *)

Ltac absent_from_list :=
  vm_compute; let Hin := fresh "Hin" in
  intros Hin; repeat (apply elem_of_cons in Hin as [Hin|Hin]; [discriminate|]);
  by apply elem_of_nil in Hin.

Lemma remove_undoes_add_witness :
  expenses (state two_entries) = ledger [lunch; taxi]
  /\ (id refund ∉ ids [lunch; taxi])
  /\ fst (addExpense (expense_obj refund) two_entries) = Normal tt
  /\ fst (removeExpense (id refund) (snd (addExpense (expense_obj refund) two_entries)))
     = Normal tt
  /\ state (snd (removeExpense (id refund)
                   (snd (addExpense (expense_obj refund) two_entries))))
     = state two_entries.
Proof.
  assert (Hfresh : id refund ∉ ids [lunch; taxi]) by absent_from_list.
  split; [reflexivity|]. split; [exact Hfresh|].
  exact (remove_undoes_add refund [lunch; taxi] two_entries eq_refl Hfresh).
Defined.

Lemma removeExpense_drops_every_match_witness :
  expenses (state doubled_world) = ledger [lunch; taxi; lunch]
  /\ expenses (state (snd (removeExpense (id lunch) doubled_world)))
     = ledger (without_id (id lunch) [lunch; taxi; lunch])
  /\ without_id (id lunch) [lunch; taxi; lunch] = [taxi].
Proof.
  split; [reflexivity|]. split; [|reflexivity].
  exact (proj1 (removeExpense_drops_every_match (id lunch) [lunch; taxi; lunch]
                  doubled_world eq_refl)).
Defined.

Lemma null_entry_throws_witness :
  expenses (state null_world) = VArr [expense_obj lunch; VNull]
  /\ (VNull ∈ [expense_obj lunch; VNull])
  /\ removeExpense "any" null_world = (Throw TypeError, null_world)
  /\ getTotal (state null_world) = Throw TypeError
  /\ getCategoryStats (state null_world) = Throw TypeError.
Proof.
  assert (Hin : VNull (num := intnum) ∈ [expense_obj lunch; VNull])
    by (right; left).
  split; [reflexivity|]. split; [exact Hin|].
  exact (null_entry_throws "any" [expense_obj lunch; VNull] null_world eq_refl Hin).
Defined.

Lemma non_array_throws_witness :
  (forall xs, expenses (state broken_world) <> VArr xs)
  /\ addExpense (expense_obj lunch) broken_world = (Throw TypeError, broken_world)
  /\ removeExpense "any" broken_world = (Throw TypeError, broken_world)
  /\ getTotal (state broken_world) = Throw TypeError
  /\ getCategoryStats (state broken_world) = Throw TypeError.
Proof.
  assert (Hshape : forall xs, expenses (state broken_world) <> VArr xs)
    by (intros xs; discriminate).
  split; [exact Hshape|].
  exact (non_array_throws "any" (expense_obj lunch) broken_world Hshape).
Defined.

Lemma removeExpense_compares_strictly_witness :
  expenses (state numeric_world) = VArr [numeric_id_entry]
  /\ Forall (id_differs "5") [numeric_id_entry]
  /\ fst (removeExpense "5" numeric_world) = Normal tt
  /\ state (snd (removeExpense "5" numeric_world)) = state numeric_world.
Proof.
  assert (Hall : Forall (id_differs "5") [numeric_id_entry]).
  { repeat constructor. exists (Some (VNum (IFin 5))). split; reflexivity. }
  split; [reflexivity|]. split; [exact Hall|].
  exact (removeExpense_compares_strictly "5" [numeric_id_entry] numeric_world
           eq_refl Hall).
Defined.

Lemma saveToStorage_is_contained_witness :
  "theme" <> "expenses"
  /\ fst (saveToStorage synced_world) = Normal tt
  /\ items (localStorage (snd (saveToStorage synced_world))) !! "theme"
     = items (localStorage synced_world) !! "theme".
Proof.
  assert (Hk : "theme" <> "expenses") by discriminate.
  destruct (saveToStorage_is_contained synced_world "theme" Hk) as (Hc & _ & Hf & _).
  split; [exact Hk|]. split; [exact Hc | exact Hf].
Defined.

Lemma mutators_keep_to_their_slot_witness :
  "theme" <> "expenses"
  /\ currentFilter (state (snd (replay [Add refund; Remove (id lunch)] synced_world)))
     = currentFilter (state synced_world)
  /\ items (localStorage (snd (replay [Add refund; Remove (id lunch)] synced_world)))
       !! "theme"
     = items (localStorage synced_world) !! "theme".
Proof.
  assert (Hk : "theme" <> "expenses") by discriminate.
  destruct (mutators_keep_to_their_slot [Add refund; Remove (id lunch)] synced_world
              "theme" Hk) as (Hf & Hs & _).
  split; [exact Hk|]. split; [exact Hf | exact Hs].
Defined.

Lemma added_expense_survives_reload_witness :
  Forall (fun e => num_is_finite (amount e) = true) ([lunch; taxi] ++ [refund])
  /\ expenses (state two_entries) = ledger [lunch; taxi]
  /\ accessible (localStorage two_entries) = true
  /\ storage_size (<["expenses" := JSON_stringify (ledger ([lunch; taxi] ++ [refund]))]>
                     (items (localStorage two_entries)))
     <= quota (localStorage two_entries)
  /\ init (reload (localStorage (snd (addExpense (expense_obj refund) two_entries))))
     = (Normal tt,
        with_expenses (ledger ([lunch; taxi] ++ [refund]))
          (reload (localStorage (snd (addExpense (expense_obj refund) two_entries))))).
Proof.
  assert (Hfin : Forall (fun e => num_is_finite (amount e) = true)
                   ([lunch; taxi] ++ [refund])) by (repeat constructor).
  assert (Hroom : storage_size
                    (<["expenses" := JSON_stringify (ledger ([lunch; taxi] ++ [refund]))]>
                       (items (localStorage two_entries)))
                  <= quota (localStorage two_entries))
    by (apply Nat.leb_le; vm_compute; reflexivity).
  split; [exact Hfin|]. split; [reflexivity|]. split; [reflexivity|].
  split; [exact Hroom|].
  exact (added_expense_survives_reload refund [lunch; taxi] two_entries Hfin eq_refl
           eq_refl Hroom).
Defined.

Lemma refused_write_is_lost_on_reload_witness :
  Forall (fun e => num_is_finite (amount e) = true) [lunch; taxi]
  /\ expenses (state tight_world) = ledger [lunch; taxi]
  /\ items (localStorage tight_world) !! "expenses"
     = Some (JSON_stringify (ledger [lunch; taxi]))
  /\ accessible (localStorage tight_world) = true
  /\ quota (localStorage tight_world)
     < storage_size (<["expenses" := JSON_stringify (ledger ([lunch; taxi] ++ [refund]))]>
                       (items (localStorage tight_world)))
  /\ expenses (state (snd (addExpense (expense_obj refund) tight_world)))
     = ledger ([lunch; taxi] ++ [refund])
  /\ init (reload (localStorage (snd (addExpense (expense_obj refund) tight_world))))
     = (Normal tt,
        with_expenses (ledger [lunch; taxi])
          (reload (localStorage (snd (addExpense (expense_obj refund) tight_world))))).
Proof.
  assert (Hfin : Forall (fun e => num_is_finite (amount e) = true) [lunch; taxi])
    by (repeat constructor).
  assert (Hslot : items (localStorage tight_world) !! "expenses"
                  = Some (JSON_stringify (ledger [lunch; taxi]))) by (by vm_compute).
  assert (Hfull : quota (localStorage tight_world)
                  < storage_size
                      (<["expenses" := JSON_stringify (ledger ([lunch; taxi] ++ [refund]))]>
                         (items (localStorage tight_world))))
    by (apply Nat.ltb_lt; vm_compute; reflexivity).
  split; [exact Hfin|]. split; [reflexivity|]. split; [exact Hslot|].
  split; [reflexivity|]. split; [exact Hfull|].
  exact (refused_write_is_lost_on_reload refund [lunch; taxi] tight_world Hfin eq_refl
           Hslot eq_refl Hfull).
Defined.

Lemma init_on_a_locked_or_blank_store_witness :
  (accessible (localStorage locked_world) = false
   /\ init locked_world
      = (Normal tt,
         mkWorld (mkState (VArr []) (currentFilter (state locked_world)))
           (localStorage locked_world)
           (console locked_world
            ++ [("Error loading from localStorage:", SecurityError)])))
  /\ (accessible (localStorage blank_world) = true
      /\ items (localStorage blank_world) !! "expenses" = Some ""
      /\ init blank_world = (Normal tt, with_expenses (VArr []) blank_world)).
Proof.
  split.
  - split; [reflexivity|].
    exact (proj1 (init_on_a_locked_or_blank_store locked_world) eq_refl).
  - split; [reflexivity|]. split; [reflexivity|].
    exact (proj2 (init_on_a_locked_or_blank_store blank_world) eq_refl eq_refl).
Defined.

Lemma filtering_leaves_the_entries_witness :
  expenses (state two_entries) = ledger [lunch; taxi]
  /\ "Food" <> "All"
  /\ getFilteredExpenses (state (snd (setFilter "Food" two_entries)))
     = Normal (ledger (with_category "Food" [lunch; taxi]))
  /\ with_category "Food" [lunch; taxi] = [lunch]
  /\ getFilteredExpenses
       (state (snd (setFilter "All" (snd (setFilter "Food" two_entries)))))
     = Normal (ledger [lunch; taxi]).
Proof.
  assert (Hf : "Food" <> "All") by discriminate.
  destruct (filtering_leaves_the_entries "Food" [lunch; taxi] two_entries eq_refl Hf)
    as (_ & Hview & _ & _ & Hback).
  split; [reflexivity|]. split; [exact Hf|]. split; [exact Hview|].
  split; [reflexivity | exact Hback].
Defined.

Lemma getTotal_concatenates_string_amounts_witness :
  Forall (fun x => x <> VNull) [expense_obj lunch; string_amount_entry]
  /\ Exists string_amount [expense_obj lunch; string_amount_entry]
  /\ Forall primitive_amount [expense_obj lunch; string_amount_entry]
  /\ (exists s, getTotal (mkState (VArr [expense_obj lunch; string_amount_entry]) "All")
               = Normal (VStr s))
  /\ getTotal (mkState (VArr [expense_obj lunch; string_amount_entry]) "All")
     = Normal (VStr "507").
Proof.
  assert (Hall : Forall (fun x : value intnum => x <> VNull)
                   [expense_obj lunch; string_amount_entry])
    by (repeat constructor; discriminate).
  assert (Hex : Exists string_amount [expense_obj lunch; string_amount_entry]).
  { right. left. by exists "7". }
  assert (Hprim : Forall primitive_amount [expense_obj lunch; string_amount_entry]).
  { repeat constructor; eexists; (split; [reflexivity|reflexivity]). }
  split; [exact Hall|]. split; [exact Hex|]. split; [exact Hprim|].
  split; [|reflexivity].
  exact (proj2 (getTotal_concatenates_string_amounts _ Hall Hex) Hprim).
Defined.

(** An amount that cannot be converted interrupts the sum. *)
Lemma getTotal_unconvertible_amount :
  getTotal (mkState (VArr [string_amount_entry; unconvertible_amount_entry]) "All")
  = Throw TypeError.
Proof. reflexivity. Qed.

Lemma handleAddExpense_adds_what_the_form_holds_witness :
  is_empty (amountInput (blank_form "50" "Food")) = false
  /\ num_le (parse_int (amountInput (blank_form "50" "Food"))) num_zero = false
  /\ is_empty (categoryInput (blank_form "50" "Food")) = false
  /\ (expenses (state fresh_world) = ledger []
      /\ fst (handleAddExpense parse_int (IFin 1700000000000) "0.k3j9x2m1p4"
                "2023-11-14T22:13:20.000Z" (blank_form "50" "Food") fresh_world)
         = Normal (blank_form "" "")
      /\ expenses (state (snd (handleAddExpense parse_int (IFin 1700000000000)
                                 "0.k3j9x2m1p4" "2023-11-14T22:13:20.000Z"
                                 (blank_form "50" "Food") fresh_world)))
         = ledger ([] ++ [lunch]))
  /\ (expenses (state string_amount_world) = VArr [string_amount_entry]
      /\ currentFilter (state string_amount_world) = "All"
      /\ (string_amount_entry ∈ [string_amount_entry])
      /\ (forall n, get_prop string_amount_entry "amount" <> Normal (Some (VNum n)))
      /\ fst (handleAddExpense parse_int (IFin 1700000000000) "0.k3j9x2m1p4"
                "2023-11-14T22:13:20.000Z" (blank_form "50" "Food") string_amount_world)
         = Throw TypeError
      /\ expenses (state (snd (handleAddExpense parse_int (IFin 1700000000000)
                                 "0.k3j9x2m1p4" "2023-11-14T22:13:20.000Z"
                                 (blank_form "50" "Food") string_amount_world)))
         = VArr ([string_amount_entry] ++ [expense_obj lunch])).
Proof.
  assert (Hpos : num_le (parse_int (amountInput (blank_form "50" "Food"))) num_zero
                 = false) by (by vm_compute).
  assert (Hin : string_amount_entry ∈ [string_amount_entry]) by (by left).
  assert (Hbad : forall n, get_prop string_amount_entry "amount"
                           <> Normal (Some (VNum n))) by (intros n; discriminate).
  destruct (handleAddExpense_adds_what_the_form_holds parse_int (IFin 1700000000000)
              "0.k3j9x2m1p4" "2023-11-14T22:13:20.000Z" (blank_form "50" "Food")
              [] [] VNull fresh_world eq_refl Hpos eq_refl) as [Htyped _].
  destruct (handleAddExpense_adds_what_the_form_holds parse_int (IFin 1700000000000)
              "0.k3j9x2m1p4" "2023-11-14T22:13:20.000Z" (blank_form "50" "Food")
              [] [string_amount_entry] string_amount_entry string_amount_world
              eq_refl Hpos eq_refl) as [_ Hthrows].
  split; [reflexivity|]. split; [exact Hpos|]. split; [reflexivity|]. split.
  - split; [reflexivity | exact (Htyped eq_refl)].
  - split; [reflexivity|]. split; [reflexivity|]. split; [exact Hin|].
    split; [exact Hbad | exact (Hthrows eq_refl eq_refl Hin Hbad)].
Defined.

Lemma non_finite_amounts_come_back_null_witness :
  expenses (state nan_world) = ledger [nan_expense; lunch]
  /\ accessible (localStorage nan_world) = true
  /\ storage_size (<["expenses" := JSON_stringify (ledger [nan_expense; lunch])]>
                     (items (localStorage nan_world)))
     <= quota (localStorage nan_world)
  /\ loadFromStorage (snd (saveToStorage nan_world))
     = (Normal (VArr (map reloaded_obj [nan_expense; lunch])),
        snd (saveToStorage nan_world))
  /\ num_is_finite (amount nan_expense) = false
  /\ get_prop (reloaded_obj nan_expense) "amount" = Normal (Some VNull).
Proof.
  assert (Hroom : storage_size
                    (<["expenses" := JSON_stringify (ledger [nan_expense; lunch])]>
                       (items (localStorage nan_world)))
                  <= quota (localStorage nan_world))
    by (apply Nat.leb_le; vm_compute; reflexivity).
  destruct (non_finite_amounts_come_back_null [nan_expense; lunch] nan_world eq_refl
              eq_refl Hroom) as (Hload & _ & Hnull).
  split; [reflexivity|]. split; [reflexivity|]. split; [exact Hroom|].
  split; [exact Hload|]. split; [reflexivity | exact (Hnull nan_expense eq_refl)].
Defined.

Lemma delete_handler_undoes_submit_witness :
  expenses (state two_entries) = ledger [lunch; taxi]
  /\ is_empty (amountInput (blank_form "12" "Bills")) = false
  /\ num_le (parse_int (amountInput (blank_form "12" "Bills"))) num_zero = false
  /\ is_empty (categoryInput (blank_form "12" "Bills")) = false
  /\ (generateUID (IFin 1700000300000) "0.p0o9i8u7y6" ∉ ids [lunch; taxi])
  /\ state (snd (handleDeleteExpense (generateUID (IFin 1700000300000) "0.p0o9i8u7y6")
                   true
                   (snd (handleAddExpense parse_int (IFin 1700000300000) "0.p0o9i8u7y6"
                           "2023-11-14T22:18:20.000Z" (blank_form "12" "Bills")
                           two_entries))))
     = state two_entries.
Proof.
  assert (Hfresh : generateUID (IFin 1700000300000) "0.p0o9i8u7y6" ∉ ids [lunch; taxi])
    by absent_from_list.
  assert (Hpos : num_le (parse_int (amountInput (blank_form "12" "Bills"))) num_zero
                 = false) by (by vm_compute).
  destruct (delete_handler_undoes_submit parse_int (IFin 1700000300000) "0.p0o9i8u7y6"
              "2023-11-14T22:18:20.000Z" (blank_form "12" "Bills") [lunch; taxi]
              two_entries eq_refl eq_refl Hpos eq_refl Hfresh) as (_ & Hback & _).
  split; [reflexivity|]. split; [reflexivity|]. split; [exact Hpos|].
  split; [reflexivity|]. split; [exact Hfresh | exact Hback].
Defined.

Lemma generateUID_reads_nine_characters_witness :
  String.length "0" <= 2
  /\ generateUID (IFin 1700000000000) "0" = num_to_string (IFin 1700000000000) +:+ "-"
  /\ generateUID (IFin 1700000000000) "0.k3j9x2m1p4zzzz"
     = generateUID (IFin 1700000000000) "0.k3j9x2m1pAAAA".
Proof.
  assert (Hshort : String.length "0" <= 2) by (simpl; lia).
  destruct (generateUID_reads_nine_characters (IFin 1700000000000) "0" "0")
    as (_ & _ & Hdash).
  destruct (generateUID_reads_nine_characters (IFin 1700000000000)
              "0.k3j9x2m1p4zzzz" "0.k3j9x2m1pAAAA") as (Hsame & _ & _).
  split; [exact Hshort|]. split; [exact (Hdash Hshort)|].
  apply Hsame. reflexivity.
Defined.

Lemma getCategoryStats_per_category_witness :
  inherited "Food" = false
  /\ exists stats,
       getCategoryStats (mkState (ledger scenario) "All") = Normal stats
       /\ getCategoryStats (mkState (ledger scenario) "Travel") = Normal stats
       /\ prop_get stats "Food"
          = match with_category "Food" scenario with
            | [] => None
            | es => Some (mkStat (length es) (VNum (sum_amounts es)))
            end.
Proof.
  split; [reflexivity|].
  exact (getCategoryStats_per_category scenario "All" "Travel" "Food" eq_refl).
Defined.

Lemma stored_non_array_is_taken_witness :
  accessible (localStorage object_world) = true
  /\ items (localStorage object_world) !! "expenses" = Some "{}"
  /\ JSON_parse (num := intnum) "{}" = Some (VObj [])
  /\ (forall xs, VObj [] <> VArr (num := intnum) xs)
  /\ init object_world = (Normal tt, with_expenses (VObj []) object_world)
  /\ addExpense (expense_obj lunch) (with_expenses (VObj []) object_world)
     = (Throw TypeError, with_expenses (VObj []) object_world).
Proof.
  assert (Hshape : forall xs, VObj [] <> VArr (num := intnum) xs)
    by (intros xs; discriminate).
  destruct (stored_non_array_is_taken object_world "{}" (VObj []) (expense_obj lunch)
              eq_refl eq_refl eq_refl Hshape) as (Hinit & Hadd & _).
  split; [reflexivity|]. split; [reflexivity|]. split; [reflexivity|].
  split; [exact Hshape|]. split; [exact Hinit | exact Hadd].
Defined.
